(** * Calypso: ARGO NetCDF to SQL converter (convertor.py)

    A shallow embedding of [ArgoDataConverter], of the discovery of the
    files and of [main] with the connection and the schema set-up, with
    the properties of the ingestion pipeline: quality-control filtering,
    the pressure-required invariant, duplicate avoidance, transactional
    persistence and failure isolation.

    Floating-point data (IEEE 754 binary64 and binary32 values read from
    the NetCDF arrays) are [spec_float]s; NaN is pandas' and xarray's
    missing marker for numeric columns. *)

From Stdlib Require Import ZArith QArith Qround Qabs Qpower Lia Lqa Bool.
From Stdlib Require Import Floats.SpecFloat.
From stdpp Require Import base list option strings relations.

Close Scope Q_scope.
Open Scope Z_scope.

(** ** Floating-point values *)

Abbreviation float := spec_float.

Definition nan : float := S754_nan.

(** [pd.isna] / [numpy.isnan] on a float cell. *)
Definition isna (x : float) : bool :=
  match x with
  | S754_nan => true
  | _ => false
  end.

Definition notna (x : float) : bool := negb (isna x).

(** ** Exceptions and results *)

(** The Python exception classes the pipeline can meet.  All of them derive
    from [Exception], which is what every handler of the source catches. *)
Inductive exn : Type :=
  | KeyError          (* a variable or dimension missing from the dataset *)
  | ValueError        (* a conversion failed, array shapes disagree *)
  | OverflowError     (* a date or a time delta out of range *)
  | OSError           (* the file cannot be opened or read *)
  | DatabaseError.    (* psycopg2.Error: a statement or a commit failed *)

Inductive result (A : Type) : Type :=
  | Ok (a : A)
  | Raise (e : exn).
Arguments Ok {A} a.
Arguments Raise {A} e.

Definition result_bind {A B} (r : result A) (k : A → result B) : result B :=
  match r with
  | Ok a => k a
  | Raise e => Raise e
  end.

Definition is_ok {A} (r : result A) : bool :=
  match r with
  | Ok _ => true
  | Raise _ => false
  end.

(** ** Quality filter *)

(** One element of a [*_QC] array: a one-byte string, or the missing flag
    (a fill value masked by xarray). *)
Definition qc_flag : Type := option Byte.byte.

(** The literal codes [b'1'] and [b'2']. *)
Definition good_flags : list Byte.byte := [Byte.x31; Byte.x32].

(** [flag.isin([b'1', b'2'])] on one element. *)
Definition isin_good (f : qc_flag) : bool :=
  match f with
  | Some b => existsb (Byte.eqb b) good_flags
  | None => false
  end.

(** [values.where(cond)]: keep the value where [cond] holds, NaN elsewhere.
    The two arrays of one profile share the [N_LEVELS] dimension; arrays of
    different sizes along it cannot be aligned and the call raises. *)
Definition xr_where (values : list float) (cond : list bool)
  : result (list float) :=
  if (length values =? length cond)%nat
  then Ok (zip_with (λ v (c : bool), if c then v else nan) values cond)
  else Raise ValueError.

(** [var.where(var_qc.isin([b'1', b'2'])).values] for one variable. *)
Definition qc_filter (values : list float) (flags : list qc_flag)
  : result (list float) :=
  xr_where values (isin_good <$> flags).

(** ** Profiles inside a dataset *)

(** The view [ds.isel(N_PROF=i)] of one profile: each field is the result
    of the read (and of the [int] conversion for the two keys) that the
    source performs on it; [Raise] where that read raises. *)
Record profile_view : Type := {
  PLATFORM_NUMBER : result Z;
  CYCLE_NUMBER : result Z;
  JULD : result float;
  LATITUDE : result float;
  LONGITUDE : result float;
  TEMP : result (list float);
  TEMP_QC : result (list qc_flag);
  PSAL : result (list float);
  PSAL_QC : result (list qc_flag);
  PRES : result (list float);
  PRES_QC : result (list qc_flag)
}.

(** ** Measurement extraction *)

(** One line of the data frame of [_extract_measurements], before the
    profile id is attached. *)
Record frame_row : Type := {
  fr_pressure : float;
  fr_temperature : float;
  fr_salinity : float
}.

(** [pd.DataFrame({...})] from three columns: the columns must have one
    length. *)
Definition make_frame (pres temp psal : list float)
  : result (list frame_row) :=
  if ((length pres =? length temp) && (length pres =? length psal))%nat
  then Ok (zip_with (λ p ts, Build_frame_row p ts.1 ts.2) pres (zip temp psal))
  else Raise ValueError.

(** [df.dropna(subset=['pressure_dbar'])]. *)
Definition dropna_pressure (df : list frame_row) : list frame_row :=
  List.filter (λ r, notna (fr_pressure r)) df.

(** A tuple handed to the bulk insert, in column order: a row of the
    measurement table.  A cell of the three data columns is a float, or
    empty (SQL NULL). *)
Record measurement : Type := {
  m_profile_id : Z;
  pressure_dbar : option float;
  temperature_celsius : option float;
  salinity_psu : option float
}.

(** One cell of [df.where(pd.notna(df), None)].  The three data columns
    are float64 columns, and a float64 column stores the [None] that
    replaces a missing cell as NaN again: the cell comes out as it went
    in, a float, NaN where the value is missing.  No cell of a tuple is
    [None]. *)
Definition where_notna (x : float) : option float := Some x.

Definition to_tuple (profile_id : Z) (r : frame_row) : measurement :=
  {| m_profile_id := profile_id;
     pressure_dbar := where_notna (fr_pressure r);
     temperature_celsius := where_notna (fr_temperature r);
     salinity_psu := where_notna (fr_salinity r) |}.

(** The three filtered arrays, in the order the source computes them. *)
Definition filtered_arrays (pv : profile_view)
  : result (list float * list float * list float) :=
  result_bind (TEMP pv) (λ temp_raw,
  result_bind (TEMP_QC pv) (λ temp_qc,
  result_bind (qc_filter temp_raw temp_qc) (λ temp,
  result_bind (PSAL pv) (λ psal_raw,
  result_bind (PSAL_QC pv) (λ psal_qc,
  result_bind (qc_filter psal_raw psal_qc) (λ psal,
  result_bind (PRES pv) (λ pres_raw,
  result_bind (PRES_QC pv) (λ pres_qc,
  result_bind (qc_filter pres_raw pres_qc) (λ pres,
  Ok (pres, temp, psal)))))))))).

(** The data frame before [dropna]. *)
Definition candidate_frame (pv : profile_view) : result (list frame_row) :=
  result_bind (filtered_arrays pv) (λ '(pres, temp, psal),
  make_frame pres temp psal).

(** The body of the [try] block of [_extract_measurements]. *)
Definition extract_rows (pv : profile_view) (profile_id : Z)
  : result (list measurement) :=
  result_bind (candidate_frame pv) (λ df,
  Ok (to_tuple profile_id <$> dropna_pressure df)).

(** ** Time conversion *)

(** binary64, the format of a Python [float]. *)
Definition prec : Z := 53.
Definition emax : Z := 1024.

Definition fmul : float → float → float := SFmul prec emax.

(** A sign, a magnitude and an exponent as a float (zero when the magnitude
    is). *)
Definition mk_float (s : bool) (m e : Z) : float :=
  match m with
  | Zpos p => S754_finite s p e
  | _ => S754_zero s
  end.

(** C's [modf]: the fractional and the integral part, both with the sign of
    the argument. *)
Definition modf (x : float) : float * float :=
  match x with
  | S754_nan => (S754_nan, S754_nan)
  | S754_infinity s => (S754_zero s, x)
  | S754_zero _ => (x, x)
  | S754_finite s m e =>
      if 0 <=? e then (S754_zero s, x)
      else (mk_float s (Zpos m mod 2 ^ (- e)) e,
            mk_float s (Zpos m / 2 ^ (- e)) 0)
  end.

(** [PyLong_FromDouble]: truncation to an integer; NaN and the infinities
    raise. *)
Definition long_from_double (x : float) : result Z :=
  match x with
  | S754_nan => Raise ValueError
  | S754_infinity _ => Raise OverflowError
  | S754_zero _ => Ok 0
  | S754_finite s m e =>
      Ok (cond_Zopp s (if 0 <=? e then Zpos m * 2 ^ e else Zpos m / 2 ^ (- e)))
  end.

(** [PyLong_AsDouble] on an integer of at most 53 bits. *)
Definition double_from_long (z : Z) : float :=
  binary_normalize prec emax z 0 false.

Definition is_zero (x : float) : bool :=
  match x with
  | S754_zero _ => true
  | _ => false
  end.

(** The exact value of a float that is not NaN or infinite. *)
Definition F2Q (x : float) : Q :=
  match x with
  | S754_finite s m e => (inject_Z (cond_Zopp s (Zpos m)) * Qpower 2 e)%Q
  | _ => 0%Q
  end.

Definition us_per_day : Z := 86400000000.

(** [accum("days", 0, days, us_per_day, &leftover_us)] of [delta_new] for a
    float argument: the whole days are converted exactly, the fractional
    day goes through one float multiplication.  Returns the microseconds so
    far and the fractional microsecond left over. *)
Definition accum (sofar : Z) (num : float) (factor : Z) : result (Z * float) :=
  let '(fracpart, intpart) := modf num in
  result_bind (long_from_double intpart) (λ x,
  let sum := sofar + x * factor in
  if is_zero fracpart then Ok (sum, S754_zero false)
  else
    let dnum := fmul (double_from_long factor) fracpart in
    let '(fracpart', intpart') := modf dnum in
    result_bind (long_from_double intpart') (λ x',
    Ok (sum + x', fracpart'))).

(** C's [round]: to the nearest integer, halves away from zero. *)
Definition round_away (q : Q) : Z :=
  if Qle_bool 0 q then Qfloor (q + (1 # 2))%Q else Qceiling (q - (1 # 2))%Q.

(** The rounding of the left-over fraction in [delta_new]: to the nearest
    microsecond, a half to the side that makes the total even. *)
Definition whole_us (x : Z) (leftover_us : Q) : Z :=
  let w := round_away leftover_us in
  if Qeq_bool (Qabs (inject_Z w - leftover_us)%Q) (1 # 2)%Q
  then
    let x_is_odd := if Z.odd x then 1 else 0 in
    2 * round_away ((leftover_us + inject_Z x_is_odd) * (1 # 2))%Q - x_is_odd
  else w.

Record timedelta : Type := {
  td_days : Z;
  td_seconds : Z;
  td_microseconds : Z
}.

Definition MAX_DELTA_DAYS : Z := 999999999.

(** [microseconds_to_delta]: normalisation and the range check on days. *)
Definition microseconds_to_delta (us : Z) : result timedelta :=
  let s := us / 1000000 in
  let d := s / 86400 in
  if Z.abs d <=? MAX_DELTA_DAYS
  then Ok {| td_days := d; td_seconds := s mod 86400;
             td_microseconds := us mod 1000000 |}
  else Raise OverflowError.

(** The microseconds of [timedelta(days=x)] for a float [x], before they
    are normalised: what [accum] gives, plus the rounded left-over when
    there is one. *)
Definition total_us (x : float) : result Z :=
  result_bind (accum 0 x us_per_day) (λ '(us, leftover_us),
  Ok (if is_zero leftover_us then us
      else us + whole_us us (F2Q leftover_us))).

(** [timedelta(days=x)] for a float [x]. *)
Definition timedelta_days (x : float) : result timedelta :=
  result_bind (total_us x) microseconds_to_delta.

Definition delta_us (td : timedelta) : Z :=
  (td_days td * 86400 + td_seconds td) * 1000000 + td_microseconds td.

(** ** Calendar dates (proleptic Gregorian, as in Python's [datetime]) *)

Record datetime : Type := {
  year : Z;
  month : Z;
  day : Z;
  hour : Z;
  minute : Z;
  second : Z;
  microsecond : Z
}.

Definition MAXORDINAL : Z := 3652059.

Definition is_leap (y : Z) : bool :=
  (y mod 4 =? 0) && (negb (y mod 100 =? 0) || (y mod 400 =? 0)).

Definition days_before_year (y : Z) : Z :=
  let y := y - 1 in
  y * 365 + y / 4 - y / 100 + y / 400.

Definition DAYS_IN_MONTH : list Z :=
  [-1; 31; 28; 31; 30; 31; 30; 31; 31; 30; 31; 30; 31].

Definition DAYS_BEFORE_MONTH : list Z :=
  [-1; 0; 31; 59; 90; 120; 151; 181; 212; 243; 273; 304; 334].

Definition table (t : list Z) (i : Z) : Z := nth (Z.to_nat i) t 0.

Definition days_before_month (y m : Z) : Z :=
  table DAYS_BEFORE_MONTH m + (if (2 <? m) && is_leap y then 1 else 0).

Definition ymd2ord (y m d : Z) : Z :=
  days_before_year y + days_before_month y m + d.

Definition DI400Y : Z := 146097.
Definition DI100Y : Z := 36524.
Definition DI4Y : Z := 1461.

(** [_ord2ymd]: the year, month and day of a day ordinal, where day 1 is
    0001-01-01. *)
Definition ord2ymd (n : Z) : Z * Z * Z :=
  let n := n - 1 in
  let n400 := n / DI400Y in
  let n := n mod DI400Y in
  let y := n400 * 400 + 1 in
  let n100 := n / DI100Y in
  let n := n mod DI100Y in
  let n4 := n / DI4Y in
  let n := n mod DI4Y in
  let n1 := n / 365 in
  let n := n mod 365 in
  let y := y + n100 * 100 + n4 * 4 + n1 in
  if (n1 =? 4) || (n100 =? 4) then (y - 1, 12, 31)
  else
    let leapyear := (n1 =? 3) && (negb (n4 =? 24) || (n100 =? 3)) in
    let m := Z.shiftr (n + 50) 5 in
    let preceding :=
      table DAYS_BEFORE_MONTH m + (if (2 <? m) && leapyear then 1 else 0) in
    if n <? preceding
    then
      let m := m - 1 in
      let preceding :=
        preceding
        - (table DAYS_IN_MONTH m + (if (m =? 2) && leapyear then 1 else 0)) in
      (y, m, n - preceding + 1)
    else (y, m, n - preceding + 1).

(** Microseconds from the start of day ordinal 0 to a date-time. *)
Definition datetime_us (t : datetime) : Z :=
  ((ymd2ord (year t) (month t) (day t) * 24 + hour t) * 60 + minute t) * 60
    * 1000000
  + second t * 1000000 + microsecond t.

(** The date-time at a count of microseconds from the start of ordinal 0. *)
Definition datetime_of_us (us : Z) : datetime :=
  let s := us / 1000000 in
  let d := s / 86400 in
  let rem := s mod 86400 in
  let '(y, m, dd) := ord2ymd d in
  {| year := y; month := m; day := dd;
     hour := rem / 3600; minute := (rem mod 3600) / 60;
     second := (rem mod 3600) mod 60;
     microsecond := us mod 1000000 |}.

(** [datetime.__add__]: the sum as a day ordinal and a time of day; a day
    ordinal outside [1, MAXORDINAL] is out of range. *)
Definition datetime_add (t : datetime) (td : timedelta) : result datetime :=
  let us := datetime_us t + delta_us td in
  let d := us / 1000000 / 86400 in
  if (0 <? d) && (d <=? MAXORDINAL) then Ok (datetime_of_us us)
  else Raise OverflowError.

(** [ref_date = datetime(1950, 1, 1)]. *)
Definition ref_date : datetime :=
  {| year := 1950; month := 1; day := 1;
     hour := 0; minute := 0; second := 0; microsecond := 0 |}.

(** [ref_date + timedelta(days=float(julian_day))]. *)
Definition profile_date_of (julian_day : float) : result datetime :=
  result_bind (timedelta_days julian_day) (datetime_add ref_date).

(** ** The store and the connection *)

Record profile_row : Type := {
  profile_id : Z;
  platform_number : Z;
  cycle_number : Z;
  profile_timestamp : datetime;
  latitude : float;
  longitude : float
}.

Record tables : Type := {
  argo_profiles : list profile_row;
  ocean_measurements : list measurement
}.

(** The calls to [logging], with what they report. *)
Inductive log_record : Type :=
  | DebugSkipExisting (platform cycle : Z)
  | ErrorFile (path : string) (e : exn)
  | ErrorProfileInsert (platform cycle : Z) (e : exn)
  | WarningExtract (profile_id : Z) (e : exn)
  | ErrorBulkInsert (e : exn).

(** The world the converter runs in.
    - [committed] is the durable content of the two tables, [session] is
      what the open transaction of the connection sees: statements change
      [session], [commit] makes it durable, [rollback] discards it.
    - [unique_key] tells whether the schema (db_setup.sql) declares
      (platform_number, cycle_number) unique.
    - [next_profile_id] is the generator of the profile table's key.
    - [faults] schedules the failures of the round trips to the server:
      each statement, each commit and each rollback consumes one entry
      and raises when it is [true]; an exhausted schedule means no more
      failures.  Any cause
      of failure is a schedule: a lost connection, a value the schema
      rejects, a transaction that the server aborted after an earlier
      error. *)
Record world : Type := {
  committed : tables;
  session : tables;
  unique_key : bool;
  next_profile_id : Z;
  faults : list bool;
  log : list log_record
}.

Definition set_session (t : tables) (w : world) : world :=
  {| committed := committed w; session := t; unique_key := unique_key w;
     next_profile_id := next_profile_id w; faults := faults w; log := log w |}.

Definition set_committed (t : tables) (w : world) : world :=
  {| committed := t; session := session w; unique_key := unique_key w;
     next_profile_id := next_profile_id w; faults := faults w; log := log w |}.

Definition set_next_profile_id (n : Z) (w : world) : world :=
  {| committed := committed w; session := session w;
     unique_key := unique_key w;
     next_profile_id := n; faults := faults w; log := log w |}.

Definition set_faults (fs : list bool) (w : world) : world :=
  {| committed := committed w; session := session w;
     unique_key := unique_key w;
     next_profile_id := next_profile_id w; faults := fs; log := log w |}.

Definition add_log (r : log_record) (w : world) : world :=
  {| committed := committed w; session := session w;
     unique_key := unique_key w;
     next_profile_id := next_profile_id w; faults := faults w;
     log := log w ++ [r] |}.

(** ** The monad of the converter: state and exceptions *)

Definition M (A : Type) : Type := world → result A * world.

Definition ret {A} (a : A) : M A := λ w, (Ok a, w).

Definition bind {A B} (m : M A) (k : A → M B) : M B :=
  λ w, match m w with
       | (Ok a, w') => k a w'
       | (Raise e, w') => (Raise e, w')
       end.

Definition raise {A} (e : exn) : M A := λ w, (Raise e, w).

Definition lift {A} (r : result A) : M A := λ w, (r, w).

(** [try: body except Exception as e: handler(e)]. *)
Definition try_except {A} (body : M A) (handler : exn → M A) : M A :=
  λ w, match body w with
       | (Ok a, w') => (Ok a, w')
       | (Raise e, w') => handler e w'
       end.

Definition modify (f : world → world) : M unit := λ w, (Ok tt, f w).

Definition gets {A} (f : world → A) : M A := λ w, (Ok (f w), w).

Notation "x <- m ;; k" := (bind m (λ x, k))
  (at level 100, m at next level, right associativity).
Notation "m ;;; k" := (bind m (λ _, k))
  (at level 100, right associativity).

Definition logging (r : log_record) : M unit := modify (add_log r).

(** One round trip to the server. *)
Definition round_trip : M unit :=
  λ w, match faults w with
       | true :: fs => (Raise DatabaseError, set_faults fs w)
       | false :: fs => (Ok tt, set_faults fs w)
       | [] => (Ok tt, w)
       end.

Definition commit : M unit :=
  round_trip ;;; modify (λ w, set_committed (session w) w).

(** [conn.rollback()]: a round trip of its own.  It raises when the
    server cannot be reached; a connection in that state is lost and the
    server discards its open transaction, so the statements that were
    pending are gone whether the call returns or raises. *)
Definition rollback : M unit :=
  λ w, let '(r, w') := round_trip w in (r, set_session (committed w') w').

(** ** The converter *)

Definition has_key (platform cycle : Z) (r : profile_row) : bool :=
  (platform_number r =? platform) && (cycle_number r =? cycle).

(** [SELECT 1 FROM argo_profiles WHERE platform_number = %s AND
    cycle_number = %s], then [fetchone() is not None]. *)
Definition _profile_exists (platform cycle : Z) : M bool :=
  round_trip ;;;
  gets (λ w, existsb (has_key platform cycle) (argo_profiles (session w))).

(** [INSERT INTO argo_profiles ... RETURNING profile_id]: the key is drawn
    from the generator before the row is checked against the schema. *)
Definition execute_insert_profile
    (platform cycle : Z) (date : datetime) (lat lon : float) : M Z :=
  round_trip ;;;
  id <- gets next_profile_id ;;
  modify (set_next_profile_id (id + 1)) ;;;
  dup <- gets (λ w, unique_key w
                    && existsb (has_key platform cycle)
                         (argo_profiles (session w))) ;;
  if dup : bool then raise DatabaseError
  else
    modify (λ w, set_session
      {| argo_profiles := argo_profiles (session w) ++
           [{| profile_id := id; platform_number := platform;
               cycle_number := cycle; profile_timestamp := date;
               latitude := lat; longitude := lon |}];
         ocean_measurements := ocean_measurements (session w) |} w) ;;;
    ret id.

Definition _insert_profile_metadata
    (platform cycle : Z) (date : datetime) (lat lon : float) : M (option Z) :=
  try_except
    (profile_id <- execute_insert_profile platform cycle date lat lon ;;
     commit ;;;
     ret (Some profile_id))
    (λ e,
     logging (ErrorProfileInsert platform cycle e) ;;;
     rollback ;;;
     ret None).

Definition _extract_measurements (pv : profile_view) (profile_id : Z)
  : M (list measurement) :=
  try_except
    (lift (extract_rows pv profile_id))
    (λ e, logging (WarningExtract profile_id e) ;;; ret []).

(** [execute_values] sends the rows in pages of [page_size] rows, one
    INSERT statement a page, all in the open transaction. *)
Definition page_size : nat := 100.

Fixpoint paginate {A} (fuel : nat) (rows : list A) : list (list A) :=
  match fuel, rows with
  | S fuel', _ :: _ => take page_size rows :: paginate fuel' (drop page_size rows)
  | _, _ => []
  end.

Definition execute_insert_page (page : list measurement) : M unit :=
  round_trip ;;;
  modify (λ w, set_session
    {| argo_profiles := argo_profiles (session w);
       ocean_measurements := ocean_measurements (session w) ++ page |} w).

Fixpoint execute_pages (pages : list (list measurement)) : M unit :=
  match pages with
  | [] => ret tt
  | page :: pages' => execute_insert_page page ;;; execute_pages pages'
  end.

Definition execute_values (measurements : list measurement) : M unit :=
  execute_pages (paginate (length measurements) measurements).

Definition _bulk_insert_measurements (measurements : list measurement)
  : M unit :=
  try_except
    (execute_values measurements ;;; commit)
    (λ e, logging (ErrorBulkInsert e) ;;; rollback).

(** Python's truth value of what [_insert_profile_metadata] returns. *)
Definition truthy (profile_id : option Z) : bool :=
  match profile_id with
  | Some id => negb (id =? 0)
  | None => false
  end.

(** The part of the loop body that follows the duplicate check, for a
    profile that is not in the store. *)
Definition ingest_profile (pv : profile_view) (platform cycle : Z) : M unit :=
  julian_day <- lift (JULD pv) ;;
  profile_date <- lift (profile_date_of julian_day) ;;
  lat <- lift (LATITUDE pv) ;;
  lon <- lift (LONGITUDE pv) ;;
  profile_id <- _insert_profile_metadata platform cycle profile_date lat lon ;;
  if negb (truthy profile_id) then ret tt
  else
    match profile_id with
    | Some id =>
        measurements <- _extract_measurements pv id ;;
        match measurements with
        | [] => ret tt
        | _ :: _ => _bulk_insert_measurements measurements
        end
    | None => ret tt
    end.

(** The body of [for i in range(len(ds.N_PROF))]. *)
Definition process_profile (pv : profile_view) : M unit :=
  platform <- lift (PLATFORM_NUMBER pv) ;;
  cycle <- lift (CYCLE_NUMBER pv) ;;
  found <- _profile_exists platform cycle ;;
  if found : bool then logging (DebugSkipExisting platform cycle)
  else ingest_profile pv platform cycle.

(** The loop over the profile indices of one dataset, in order. *)
Fixpoint process_profiles (pvs : list profile_view) : M unit :=
  match pvs with
  | [] => ret tt
  | pv :: pvs' => process_profile pv ;;; process_profiles pvs'
  end.

(** A file of the data directory: its path and what [xr.open_dataset]
    and [ds.N_PROF] give for it, the profiles in index order. *)
Record nc_file : Type := {
  file_path : string;
  dataset : result (list profile_view)
}.

(** The body of the [try] block of [process_file]. *)
Definition file_body (f : nc_file) : M unit :=
  pvs <- lift (dataset f) ;; process_profiles pvs.

Definition process_file (f : nc_file) : M unit :=
  try_except (file_body f) (λ e, logging (ErrorFile (file_path f) e)).

(** The loop of [main] over the discovered files. *)
Fixpoint main_loop (nc_files : list nc_file) : M unit :=
  match nc_files with
  | [] => ret tt
  | f :: fs => process_file f ;;; main_loop fs
  end.

(** The world after a computation. *)
Definition exec {A} (m : M A) (w : world) : world := (m w).2.

(** ** File discovery *)

(** [s.endswith(suffix)]. *)
Definition endswith (s suffix : string) : bool :=
  bool_decide (String.list_ascii_of_string suffix
                 `suffix_of` String.list_ascii_of_string s).

(** [s.startswith(prefix)]. *)
Definition startswith (s prefix : string) : bool := String.prefix prefix s.

(** [os.path.join(a, b)] on a POSIX system. *)
Definition path_join (a b : string) : string :=
  if startswith b "/" then b
  else if String.eqb a "" || endswith a "/" then a +:+ b
  else a +:+ "/" +:+ b.

(** What [os.scandir] finds in a directory: a name that is not a
    directory, a directory with its own entries ([None] when it cannot be
    listed), or a symbolic link to a directory. *)
#[warnings="-register-all"]
Inductive fs_entry : Type :=
  | Regular (name : string)
  | Folder (name : string) (entries : option (list fs_entry))
  | FolderLink (name : string).

(** The second and third components of what [os.walk] yields for a
    directory: the names for which [is_dir()] holds, and the others. *)
Definition dirs_of (entries : list fs_entry) : list string :=
  omap (λ e, match e with
             | Regular _ => None
             | Folder name _ | FolderLink name => Some name
             end) entries.

Definition files_of (entries : list fs_entry) : list string :=
  omap (λ e, match e with
             | Regular name => Some name
             | Folder _ _ | FolderLink _ => None
             end) entries.

(** [os.walk] below one entry of [top], top-down: links are not followed,
    a directory that cannot be listed is passed over in silence. *)
Fixpoint walk_entry (top : string) (e : fs_entry)
  : list (string * list string * list string) :=
  match e with
  | Folder name (Some entries) =>
      let root := path_join top name in
      (root, dirs_of entries, files_of entries)
        :: flat_map (walk_entry root) entries
  | _ => []
  end.

(** [os.walk(top)], for the listing of [top]. *)
Definition os_walk (top : string) (listing : option (list fs_entry))
  : list (string * list string * list string) :=
  match listing with
  | Some entries =>
      (top, dirs_of entries, files_of entries)
        :: flat_map (walk_entry top) entries
  | None => []
  end.

(** The two inner lines of the loop of [find_netcdf_files], for one
    triple of the walk. *)
Definition nc_files_of (triple : string * list string * list string)
  : list string :=
  let '(root, _, files) := triple in
  path_join root <$> List.filter (λ file, endswith file ".nc") files.

Definition find_netcdf_files (directory : string)
    (listing : option (list fs_entry)) : list string :=
  flat_map nc_files_of (os_walk directory listing).

(** ** The program *)

(** What [psycopg2.connect] does with [DB_CONFIG]: it returns a connection,
    raises [psycopg2.OperationalError], or raises something else. *)
Inductive connect_outcome : Type :=
  | Connected
  | OperationalError
  | OtherError (e : exn).

(** What executing the text of [db_setup.sql] does to the database once
    the commit that follows has made it durable: to the two tables, to the
    uniqueness constraint on the key and to the generator of profile ids.
    The script is a file beside the program; its effect is left open. *)
Record schema_script : Type := {
  script_tables : tables → tables;
  script_unique_key : bool → bool;
  script_next_profile_id : Z → Z
}.

(** What the program finds around it. *)
Record environment : Type := {
  argv : list string;
  isdir : string → bool;
  scandir : string → option (list fs_entry);
  connect : connect_outcome;
  db_setup_sql : result schema_script;
  open_dataset : string → result (list profile_view)
}.

(** The calls to [logging] outside the converter. *)
Inductive main_record : Type :=
  | InfoConnected
  | ErrorConnect
  | ErrorCheckConfiguration
  | InfoSchemaReady
  | ErrorSchema (e : exn)
  | WarningNoFiles (directory : string)
  | InfoFound (n : nat)
  | InfoComplete.

Inductive connection_state : Type :=
  | NoConnection
  | ConnectionOpen
  | ConnectionClosed.

(** The state of a run: what was printed, what was logged outside the
    converter, the connection, and the database with the converter's
    log. *)
Record process : Type := {
  stdout : list string;
  records : list main_record;
  connection : connection_state;
  database : world
}.

(** How a run ends: [main] returns, [sys.exit] is called, or an exception
    leaves [main]. *)
Inductive ending : Type :=
  | Returned
  | SysExit (status : Z)
  | Uncaught (e : exn).

Definition print (line : string) (s : process) : process :=
  {| stdout := stdout s ++ [line]; records := records s;
     connection := connection s; database := database s |}.

Definition log_main (r : main_record) (s : process) : process :=
  {| stdout := stdout s; records := records s ++ [r];
     connection := connection s; database := database s |}.

Definition set_connection (c : connection_state) (s : process) : process :=
  {| stdout := stdout s; records := records s;
     connection := c; database := database s |}.

Definition set_database (w : world) (s : process) : process :=
  {| stdout := stdout s; records := records s;
     connection := connection s; database := w |}.

(** A run that has not started, before the database [w]. *)
Definition start (w : world) : process :=
  {| stdout := []; records := []; connection := NoConnection; database := w |}.

(** [get_db_connection]: [None] when the caller goes on with the
    connection. *)
Definition get_db_connection (env : environment) (s : process)
  : option ending * process :=
  match connect env with
  | Connected => (None, log_main InfoConnected (set_connection ConnectionOpen s))
  | OperationalError =>
      (Some (SysExit 1), log_main ErrorCheckConfiguration (log_main ErrorConnect s))
  | OtherError e => (Some (Uncaught e), s)
  end.

(** [cur.execute(f.read())] on the text of the script. *)
Definition execute_script (script : schema_script) : M unit :=
  round_trip ;;;
  modify (λ w, set_session (script_tables script (session w)) w).

(** The schema of the script in force. *)
Definition install_schema (script : schema_script) (w : world) : world :=
  {| committed := committed w; session := session w;
     unique_key := script_unique_key script (unique_key w);
     next_profile_id := script_next_profile_id script (next_profile_id w);
     faults := faults w; log := log w |}.

(** The [try] block of [setup_database]. *)
Definition setup_body (env : environment) : M unit :=
  script <- lift (db_setup_sql env) ;;
  execute_script script ;;;
  commit ;;;
  modify (install_schema script).

(** [setup_database]: [None] when it returns.  The handler logs, rolls
    back and exits; an exception of the rollback leaves the handler, and
    [main], as it is. *)
Definition setup_database (env : environment) (s : process)
  : option ending * process :=
  match setup_body env (database s) with
  | (Ok _, w) => (None, log_main InfoSchemaReady (set_database w s))
  | (Raise e, w) =>
      let s := log_main (ErrorSchema e) s in
      match rollback w with
      | (Ok _, w) => (Some (SysExit 1), set_database w s)
      | (Raise e', w) => (Some (Uncaught e'), set_database w s)
      end
  end.

(** The file at a path, as [xr.open_dataset] finds it. *)
Definition opened (env : environment) (path : string) : nc_file :=
  {| file_path := path; dataset := open_dataset env path |}.

Definition usage : string :=
  "Usage: python convert_netcdf_to_sql.py <path_to_argo_data_directory>".

Definition main (env : environment) (s : process) : ending * process :=
  match argv env with
  | [_; data_directory] =>
      if negb (isdir env data_directory)
      then (SysExit 1,
            print ("Error: Directory not found at '" +:+ data_directory +:+ "'") s)
      else
        match get_db_connection env s with
        | (Some stop, s) => (stop, s)
        | (None, s) =>
            match setup_database env s with
            | (Some stop, s) => (stop, s)
            | (None, s) =>
                let nc_files :=
                  find_netcdf_files data_directory (scandir env data_directory) in
                match nc_files with
                | [] => (SysExit 0, log_main (WarningNoFiles data_directory) s)
                | _ :: _ =>
                    let s := log_main (InfoFound (length nc_files)) s in
                    match main_loop (opened env <$> nc_files) (database s) with
                    | (Ok _, w) =>
                        (Returned,
                         log_main InfoComplete
                           (set_connection ConnectionClosed (set_database w s)))
                    | (Raise e, w) => (Uncaught e, set_database w s)
                    end
                end
            end
        end
  | _ => (SysExit 1, print usage s)
  end.

(** * Specification predicates *)

(** What the quality filter promises of its output [out] for the raw
    [values] and their [flags]. *)
Definition qc_filtered (values : list float) (flags : list qc_flag)
    (out : list float) : Prop :=
  length out = length values ∧
  ∀ (i : nat) (v : float) (f : qc_flag),
    values !! i = Some v → flags !! i = Some f →
    (f = Some Byte.x31 ∨ f = Some Byte.x32 → out !! i = Some v) ∧
    (f ≠ Some Byte.x31 → f ≠ Some Byte.x32 → out !! i = Some nan).

(** The deduplication key of a stored profile. *)
Definition key_of (r : profile_row) : Z * Z :=
  (platform_number r, cycle_number r).

(** A persisted measurement row carries a pressure. *)
Definition has_pressure (m : measurement) : Prop :=
  ∃ p, pressure_dbar m = Some p ∧ isna p = false.

(** No statement of the connection's transaction is pending. *)
Definition quiescent (w : world) : Prop := session w = committed w.

(** The tables after one more profile and its measurements. *)
Definition with_profile (row : profile_row) (ms : list measurement)
    (t : tables) : tables :=
  {| argo_profiles := argo_profiles t ++ [row];
     ocean_measurements := ocean_measurements t ++ ms |}.

(** What the processing of one profile may do to the durable tables:
    nothing, or one new profile whose key was absent, with none or all of
    the rows extracted for it. *)
Inductive profile_outcome (pv : profile_view) (t t' : tables) : Prop :=
  | outcome_unchanged :
      t' = t → profile_outcome pv t t'
  | outcome_ingested (row : profile_row) (ms : list measurement) :
      PLATFORM_NUMBER pv = Ok (platform_number row) →
      CYCLE_NUMBER pv = Ok (cycle_number row) →
      existsb (has_key (platform_number row) (cycle_number row))
        (argo_profiles t) = false →
      ms = [] ∨ (profile_id row ≠ 0 ∧ extract_rows pv (profile_id row) = Ok ms) →
      t' = with_profile row ms t →
      profile_outcome pv t t'.

(** The tables, the schema and the key generator are the same in two
    worlds. *)
Definition same_store (w w' : world) : Prop :=
  committed w' = committed w ∧ session w' = session w ∧
  unique_key w' = unique_key w ∧ next_profile_id w' = next_profile_id w.

(** The row that [execute_insert_profile] stores. *)
Definition new_row (id platform cycle : Z) (date : datetime) (lat lon : float)
  : profile_row :=
  {| profile_id := id; platform_number := platform; cycle_number := cycle;
     profile_timestamp := date; latitude := lat; longitude := lon |}.

(** One step of the durable tables, and the states a run can reach. *)
Definition store_step (t t' : tables) : Prop :=
  ∃ pv, profile_outcome pv t t'.

Definition reachable : tables → tables → Prop := rtc store_step.

(** The number of INSERT statements [execute_values] sends for a batch. *)
Definition statements (ms : list measurement) : nat :=
  length (paginate (length ms) ms).

(** Whether one of the next [n] round trips fails. *)
Definition fails_within (n : nat) (w : world) : bool :=
  existsb (λ b : bool, b) (take n (faults w)).


(** Whether the round trip number [n] from now, counted from 0, fails. *)
Definition fails_at (n : nat) (w : world) : bool :=
  match faults w !! n with
  | Some true => true
  | _ => false
  end.


(** NaN and the infinities. *)
Definition non_finite (x : float) : bool :=
  match x with
  | S754_nan | S754_infinity _ => true
  | _ => false
  end.

(** The ways in which reading or converting the metadata fields of a profile
    raises in world [w]: the exception, and the world at that point.  The
    timestamp and the position are read only once the duplicate guard has
    answered that the profile is new. *)
Inductive metadata_raises (pv : profile_view) (w : world)
  : exn → world → Prop :=
  | raises_platform (e : exn) :
      PLATFORM_NUMBER pv = Raise e →
      metadata_raises pv w e w
  | raises_cycle (p : Z) (e : exn) :
      PLATFORM_NUMBER pv = Ok p → CYCLE_NUMBER pv = Raise e →
      metadata_raises pv w e w
  | raises_juld (p c : Z) (w1 : world) (e : exn) :
      PLATFORM_NUMBER pv = Ok p → CYCLE_NUMBER pv = Ok c →
      _profile_exists p c w = (Ok false, w1) →
      JULD pv = Raise e →
      metadata_raises pv w e w1
  | raises_date (p c : Z) (w1 : world) (jd : float) (e : exn) :
      PLATFORM_NUMBER pv = Ok p → CYCLE_NUMBER pv = Ok c →
      _profile_exists p c w = (Ok false, w1) →
      JULD pv = Ok jd → profile_date_of jd = Raise e →
      metadata_raises pv w e w1
  | raises_latitude (p c : Z) (w1 : world) (jd : float) (d : datetime)
      (e : exn) :
      PLATFORM_NUMBER pv = Ok p → CYCLE_NUMBER pv = Ok c →
      _profile_exists p c w = (Ok false, w1) →
      JULD pv = Ok jd → profile_date_of jd = Ok d →
      LATITUDE pv = Raise e →
      metadata_raises pv w e w1
  | raises_longitude (p c : Z) (w1 : world) (jd : float) (d : datetime)
      (la : float) (e : exn) :
      PLATFORM_NUMBER pv = Ok p → CYCLE_NUMBER pv = Ok c →
      _profile_exists p c w = (Ok false, w1) →
      JULD pv = Ok jd → profile_date_of jd = Ok d →
      LATITUDE pv = Ok la → LONGITUDE pv = Raise e →
      metadata_raises pv w e w1.

(** The rows of [t] are the first rows of [t'], in both tables. *)
Definition extends (t t' : tables) : Prop :=
  argo_profiles t `prefix_of` argo_profiles t' ∧
  ocean_measurements t `prefix_of` ocean_measurements t'.

(** The keys the loop over a dataset gets to read: those of the profiles
    before the first one whose platform or cycle number raises. *)
Fixpoint keys_read (pvs : list profile_view) : list (Z * Z) :=
  match pvs with
  | [] => []
  | pv :: pvs' =>
      match PLATFORM_NUMBER pv, CYCLE_NUMBER pv with
      | Ok p, Ok c => (p, c) :: keys_read pvs'
      | _, _ => []
      end
  end.

(** A key is in the profile table. *)
Definition present (t : tables) (k : Z * Z) : Prop :=
  existsb (has_key k.1 k.2) (argo_profiles t) = true.

(** Every key the run over the files gets to read is in the store. *)
Definition all_present (fs : list nc_file) (t : tables) : Prop :=
  Forall (λ f, ∀ pvs, dataset f = Ok pvs → Forall (present t) (keys_read pvs))
    fs.

(** The timestamp and the position of a profile are read and converted
    without an exception. *)
Definition clean_profile (pv : profile_view) : bool :=
  match JULD pv with
  | Ok jd => is_ok (profile_date_of jd)
  | Raise _ => false
  end && is_ok (LATITUDE pv) && is_ok (LONGITUDE pv).

(** No profile of the file, if it opens, raises after the duplicate
    check. *)
Definition clean_file (f : nc_file) : bool :=
  match dataset f with
  | Ok pvs => forallb clean_profile pvs
  | Raise _ => true
  end.

(** The numbers of rows of the two tables. *)
Definition row_counts (w : world) : nat * nat :=
  (length (argo_profiles (committed w)),
   length (ocean_measurements (committed w))).

(** How far the microseconds of a converted day count may be from the
    exact product: half a microsecond of rounding, and the rounding of the
    float product of the fractional day. *)
Definition tolerance : Q := ((1 # 2) + (1 # 16384))%Q.

(** The mantissa of [86400000000.0], whose exponent is -16. *)
Definition us_per_day_mantissa : positive := 5662310400000000.

(** The day of a count of microseconds from ordinal 0 is one that
    [datetime] can hold: a day of the years 1 to 9999. *)
Definition in_range (us : Z) : bool :=
  (0 <? us / 1000000 / 86400) && (us / 1000000 / 86400 <=? MAXORDINAL).

(** The number of days of a month of the proleptic Gregorian calendar. *)
Definition days_in_month (y m : Z) : Z :=
  if (m =? 2) && is_leap y then 29 else table DAYS_IN_MONTH m.

(** A date of the calendar, in the years that [datetime] holds. *)
Definition valid_date (y m d : Z) : Prop :=
  1 <= y <= 9999 ∧ 1 <= m <= 12 ∧ 1 <= d <= days_in_month y m.

(** The fields of a date-time are those of a date of the calendar and of
    a time of day. *)
Definition valid_datetime (t : datetime) : Prop :=
  valid_date (year t) (month t) (day t) ∧
  0 <= hour t < 24 ∧ 0 <= minute t < 60 ∧ 0 <= second t < 60 ∧
  0 <= microsecond t < 1000000.

(** A name that is not a directory is listed in the directory [root] of
    the tree with entries [entries] at path [top], reached through
    directories that can be listed and are not links. *)
Inductive listed (top : string) (entries : list fs_entry)
  : string → string → Prop :=
  | listed_here (name : string) :
      Regular name ∈ entries → listed top entries top name
  | listed_below (dir : string) (sub : list fs_entry) (root name : string) :
      Folder dir (Some sub) ∈ entries →
      listed (path_join top dir) sub root name →
      listed top entries root name.

(** What the walk below one entry finds, said with [listed]. *)
Definition found_below (top : string) (e : fs_entry) (path : string) : Prop :=
  match e with
  | Folder dir (Some sub) =>
      ∃ root name, listed (path_join top dir) sub root name ∧
                   endswith name ".nc" = true ∧ path = path_join root name
  | _ => False
  end.

(** Every measurement row carries the id of a stored profile. *)
Definition references_ok (t : tables) : Prop :=
  Forall (λ m, m_profile_id m ∈ profile_id <$> argo_profiles t)
    (ocean_measurements t).

(** What is stored of a temperature or salinity reading [v] with flag
    [q]: the reading when the flag is good, NaN when it is not. *)
Definition kept (v : float) (q : qc_flag) : float :=
  if isin_good q then v else nan.

(** The row of one depth sample, given as its pressure, temperature and
    salinity readings with their flags; none when the pressure is flagged
    bad or missing. *)
Definition row_of_sample (id : Z)
    (sample : (float * qc_flag) * (float * qc_flag) * (float * qc_flag))
  : option measurement :=
  let '((p, pq), (t, tq), (s, sq)) := sample in
  if isin_good pq && notna p
  then Some {| m_profile_id := id; pressure_dbar := Some p;
               temperature_celsius := Some (kept t tq);
               salinity_psu := Some (kept s sq) |}
  else None.

(** * Sample data *)

(** Sample floats (binary64). *)
Definition f_zero : float := S754_zero false.
Definition f_one_and_half : float := S754_finite false 6755399441055744 (-52).
Definition f_ten : float := S754_finite false 5629499534213120 (-49).
Definition f_twenty : float := S754_finite false 5629499534213120 (-48).
Definition f_thirty_five : float := S754_finite false 4925812092436480 (-47).

(** A profile with five depth samples, two of them with temperature flag
    [b'4'] and one with a missing salinity flag. *)
Definition five_samples : profile_view :=
  {| PLATFORM_NUMBER := Ok 1901393;
     CYCLE_NUMBER := Ok 7;
     JULD := Ok f_one_and_half;
     LATITUDE := Ok f_ten;
     LONGITUDE := Ok f_twenty;
     TEMP := Ok [f_ten; f_twenty; f_ten; f_twenty; f_ten];
     TEMP_QC := Ok [Some Byte.x31; Some Byte.x34; Some Byte.x31;
                    Some Byte.x34; Some Byte.x32];
     PSAL := Ok [f_thirty_five; f_thirty_five; f_thirty_five; f_thirty_five;
                 f_thirty_five];
     PSAL_QC := Ok [Some Byte.x31; Some Byte.x31; None; Some Byte.x31;
                    Some Byte.x31];
     PRES := Ok [f_ten; f_twenty; f_thirty_five; f_ten; f_twenty];
     PRES_QC := Ok [Some Byte.x31; Some Byte.x31; Some Byte.x31;
                    Some Byte.x31; Some Byte.x31] |}.

(** One depth sample whose pressure is flagged bad ([b'4']) while its
    temperature and salinity are good. *)
Definition no_pressure_sample : profile_view :=
  {| PLATFORM_NUMBER := Ok 1901393;
     CYCLE_NUMBER := Ok 8;
     JULD := Ok f_one_and_half;
     LATITUDE := Ok f_ten;
     LONGITUDE := Ok f_twenty;
     TEMP := Ok [f_ten]; TEMP_QC := Ok [Some Byte.x31];
     PSAL := Ok [f_thirty_five]; PSAL_QC := Ok [Some Byte.x32];
     PRES := Ok [f_twenty]; PRES_QC := Ok [Some Byte.x34] |}.

(** A profile with the key of [five_samples] and nothing else readable. *)
Definition key_only : profile_view :=
  {| PLATFORM_NUMBER := Ok 1901393;
     CYCLE_NUMBER := Ok 7;
     JULD := Raise KeyError;
     LATITUDE := Raise KeyError;
     LONGITUDE := Raise KeyError;
     TEMP := Raise KeyError; TEMP_QC := Raise KeyError;
     PSAL := Raise KeyError; PSAL_QC := Raise KeyError;
     PRES := Raise KeyError; PRES_QC := Raise KeyError |}.

(** A profile whose Julian day is NaN (a masked fill value). *)
Definition nan_juld (platform cycle : Z) : profile_view :=
  {| PLATFORM_NUMBER := Ok platform;
     CYCLE_NUMBER := Ok cycle;
     JULD := Ok nan;
     LATITUDE := Ok f_ten;
     LONGITUDE := Ok f_twenty;
     TEMP := Ok []; TEMP_QC := Ok [];
     PSAL := Ok []; PSAL_QC := Ok [];
     PRES := Ok []; PRES_QC := Ok [] |}.

(** A readable profile without depth samples. *)
Definition bare_profile (platform cycle : Z) : profile_view :=
  {| PLATFORM_NUMBER := Ok platform;
     CYCLE_NUMBER := Ok cycle;
     JULD := Ok f_one_and_half;
     LATITUDE := Ok f_ten;
     LONGITUDE := Ok f_twenty;
     TEMP := Ok []; TEMP_QC := Ok [];
     PSAL := Ok []; PSAL_QC := Ok [];
     PRES := Ok []; PRES_QC := Ok [] |}.

(** The sample profile under another key. *)
Definition rekey (platform cycle : Z) (pv : profile_view) : profile_view :=
  {| PLATFORM_NUMBER := Ok platform;
     CYCLE_NUMBER := Ok cycle;
     JULD := JULD pv; LATITUDE := LATITUDE pv; LONGITUDE := LONGITUDE pv;
     TEMP := TEMP pv; TEMP_QC := TEMP_QC pv;
     PSAL := PSAL pv; PSAL_QC := PSAL_QC pv;
     PRES := PRES pv; PRES_QC := PRES_QC pv |}.

(** A file with the one sample profile. *)
Definition sample_file : nc_file :=
  {| file_path := "data/R1901393_007.nc"; dataset := Ok [five_samples] |}.

(** A file that cannot be opened. *)
Definition unreadable_file : nc_file :=
  {| file_path := "data/corrupt.nc"; dataset := Raise OSError |}.

(** A file whose second profile has no usable Julian day. *)
Definition aborting_file : nc_file :=
  {| file_path := "data/R0000002_001.nc";
     dataset := Ok [bare_profile 1 1; nan_juld 2 1; bare_profile 3 1] |}.

(** A file with the stored profile and a new one. *)
Definition known_and_new_file : nc_file :=
  {| file_path := "data/R1901393_008.nc";
     dataset := Ok [five_samples; rekey 1901393 8 five_samples] |}.

(** Two files that overlap on the key (7, 1): the first holds it with a
    masked Julian day and is followed there by profile (8, 1), the second
    holds it with a date. *)
Definition overlapping_files : list nc_file :=
  [ {| file_path := "data/a.nc";
       dataset := Ok [nan_juld 7 1; rekey 8 1 five_samples] |};
    {| file_path := "data/b.nc";
       dataset := Ok [bare_profile 7 1] |} ].

(** Two empty tables. *)
Definition empty_tables : tables :=
  {| argo_profiles := []; ocean_measurements := [] |}.

(** A fresh store behind a connection on which nothing fails. *)
Definition fresh_world : world :=
  {| committed := empty_tables; session := empty_tables; unique_key := true;
     next_profile_id := 1; faults := []; log := [] |}.

(** A connection whose round trips succeed or fail as scheduled, on an
    empty store. *)
Definition scheduled_world (fs : list bool) : world :=
  {| committed := empty_tables; session := empty_tables; unique_key := true;
     next_profile_id := 1; faults := fs; log := [] |}.


(** A store whose key generator is at 0. *)
Definition zero_id_world : world :=
  {| committed := empty_tables; session := empty_tables; unique_key := true;
     next_profile_id := 0; faults := []; log := [] |}.

(** The store after the sample file was ingested. *)
Definition stored_world : world := exec (main_loop [sample_file]) fresh_world.

(** A measurement row of profile 1. *)
Definition sample_row : measurement :=
  {| m_profile_id := 1; pressure_dbar := Some f_ten;
     temperature_celsius := Some f_twenty; salinity_psu := None |}.

(** 1950-01-02T12:00:00. *)
Definition noon_1950_01_02 : datetime :=
  {| year := 1950; month := 1; day := 2;
     hour := 12; minute := 0; second := 0; microsecond := 0 |}.

(** Finite day counts: ten thousand million, three million, and a million
    before the epoch. *)
Definition f_ten_billion : float := S754_finite false 5242880000000000 (-19).
Definition f_three_million : float := S754_finite false 6442450944000000 (-31).
Definition f_minus_million : float := S754_finite true 8589934592000000 (-33).

(** A data directory: two files to find at the top, one below, and what
    the walk passes over. *)
Definition sample_tree : list fs_entry :=
  [ Regular "R1901393_007.nc";
    Regular "README.txt";
    Folder "2019" (Some [Regular "R1901393_008.nc"; Regular "d.NC"]);
    Folder "old.nc" None;
    FolderLink "latest";
    Regular ".nc" ].

(** A new profile whose temperature array cannot be read. *)
Definition without_temperature : profile_view :=
  {| PLATFORM_NUMBER := Ok 1901393;
     CYCLE_NUMBER := Ok 9;
     JULD := Ok f_one_and_half;
     LATITUDE := Ok f_ten;
     LONGITUDE := Ok f_twenty;
     TEMP := Raise KeyError; TEMP_QC := Raise KeyError;
     PSAL := Ok [f_thirty_five]; PSAL_QC := Ok [Some Byte.x31];
     PRES := Ok [f_ten]; PRES_QC := Ok [Some Byte.x31] |}.

(** A script that creates what is missing and declares the key unique. *)
Definition sample_script : schema_script :=
  {| script_tables := λ t, t;
     script_unique_key := λ _, true;
     script_next_profile_id := λ n, n |}.

(** A run on the sample directory, whose files cannot be opened. *)
Definition sample_environment : environment :=
  {| argv := ["convertor.py"; "argo"];
     isdir := λ _, true;
     scandir := λ _, Some sample_tree;
     connect := Connected;
     db_setup_sql := Ok sample_script;
     open_dataset := λ _, Raise OSError |}.

(** The same run without the script. *)
Definition no_script_environment : environment :=
  {| argv := ["convertor.py"; "argo"];
     isdir := λ _, true;
     scandir := λ _, Some sample_tree;
     connect := Connected;
     db_setup_sql := Raise OSError;
     open_dataset := λ _, Raise OSError |}.

(** The same run against a server that answers with an error that is not
    an [OperationalError]. *)
Definition bad_login_environment : environment :=
  {| argv := ["convertor.py"; "argo"];
     isdir := λ _, true;
     scandir := λ _, Some sample_tree;
     connect := OtherError DatabaseError;
     db_setup_sql := Ok sample_script;
     open_dataset := λ _, Raise OSError |}.

(** * Properties *)

(** ** Quality filtering *)

Lemma isin_good_true (f : qc_flag) :
  isin_good f = true ↔ f = Some Byte.x31 ∨ f = Some Byte.x32.
Proof.
  destruct f as [b|]; simpl.
  - split.
    + destruct b; simpl; intros H; try discriminate H; auto.
    + intros [H|H]; injection H as ->; reflexivity.
  - split; [discriminate | intros [H|H]; discriminate H].
Qed.

Lemma xr_where_lookup (values : list float) (cond : list bool) (i : nat)
    (v : float) (c : bool) (out : list float) :
  xr_where values cond = Ok out →
  values !! i = Some v → cond !! i = Some c →
  out !! i = Some (if c then v else nan).
Proof.
  unfold xr_where. destruct (length values =? length cond)%nat; [|discriminate].
  intros [= <-] Hv Hc. rewrite lookup_zip_with, Hv. simpl. rewrite Hc. reflexivity.
Qed.

Lemma qc_filter_total (values : list float) (flags : list qc_flag) :
  length values = length flags →
  ∃ out, qc_filter values flags = Ok out ∧ qc_filtered values flags out.
Proof.
  intros Hlen. unfold qc_filter.
  assert (Hw : ∃ out, xr_where values (isin_good <$> flags) = Ok out
                      ∧ length out = length values).
  { unfold xr_where. rewrite length_fmap, Hlen, Nat.eqb_refl.
    eexists; split; [reflexivity|].
    rewrite length_zip_with, length_fmap. lia. }
  destruct Hw as (out & Hout & Hl). exists out. split; [exact Hout|].
  split; [exact Hl|]. intros i v f Hv Hf.
  assert (Hc : (isin_good <$> flags) !! i = Some (isin_good f))
    by (rewrite list_lookup_fmap, Hf; reflexivity).
  pose proof (xr_where_lookup _ _ _ _ _ _ Hout Hv Hc) as Hi.
  split.
  - intros Hgood. apply isin_good_true in Hgood. rewrite Hgood in Hi. exact Hi.
  - intros H1 H2. destruct (isin_good f) eqn:E; [|exact Hi].
    apply isin_good_true in E. tauto.
Qed.

(** C1. Every variable of a profile is filtered by its own flags alone:
    when the three arrays and their flag arrays are readable and each flag
    array is as long as its values, the filter yields for pressure,
    temperature and salinity an array of the length of the input in which
    a position whose flag is [b'1'] or [b'2'] keeps the raw value and any
    other position, a missing flag included, holds NaN, whatever the raw
    reading. *)
Theorem qc_filtering_per_variable
    (pv : profile_view)
    (pres_raw temp_raw psal_raw : list float)
    (pres_qc temp_qc psal_qc : list qc_flag)
    (Hpres : PRES pv = Ok pres_raw) (Hpres_qc : PRES_QC pv = Ok pres_qc)
    (Htemp : TEMP pv = Ok temp_raw) (Htemp_qc : TEMP_QC pv = Ok temp_qc)
    (Hpsal : PSAL pv = Ok psal_raw) (Hpsal_qc : PSAL_QC pv = Ok psal_qc)
    (Lpres : length pres_raw = length pres_qc)
    (Ltemp : length temp_raw = length temp_qc)
    (Lpsal : length psal_raw = length psal_qc) :
  ∃ pres temp psal,
    filtered_arrays pv = Ok (pres, temp, psal) ∧
    qc_filter pres_raw pres_qc = Ok pres ∧
    qc_filter temp_raw temp_qc = Ok temp ∧
    qc_filter psal_raw psal_qc = Ok psal ∧
    qc_filtered pres_raw pres_qc pres ∧
    qc_filtered temp_raw temp_qc temp ∧
    qc_filtered psal_raw psal_qc psal.
Proof.
  destruct (qc_filter_total _ _ Lpres) as (pres & Ep & Fp).
  destruct (qc_filter_total _ _ Ltemp) as (temp & Et & Ft).
  destruct (qc_filter_total _ _ Lpsal) as (psal & Es & Fs).
  exists pres, temp, psal. unfold filtered_arrays.
  rewrite Htemp, Htemp_qc, Hpsal, Hpsal_qc, Hpres, Hpres_qc. simpl.
  rewrite Et. simpl. rewrite Es. simpl. rewrite Ep. simpl.
  split; [reflexivity|]. auto 10.
Qed.

Lemma qc_filtering_per_variable_witness :
  ∃ pres temp psal,
    filtered_arrays five_samples = Ok (pres, temp, psal) ∧
    qc_filter [f_ten; f_twenty; f_thirty_five; f_ten; f_twenty]
      [Some Byte.x31; Some Byte.x31; Some Byte.x31; Some Byte.x31;
       Some Byte.x31] = Ok pres ∧
    qc_filter [f_ten; f_twenty; f_ten; f_twenty; f_ten]
      [Some Byte.x31; Some Byte.x34; Some Byte.x31; Some Byte.x34;
       Some Byte.x32] = Ok temp ∧
    qc_filter [f_thirty_five; f_thirty_five; f_thirty_five; f_thirty_five;
               f_thirty_five]
      [Some Byte.x31; Some Byte.x31; None; Some Byte.x31; Some Byte.x31]
      = Ok psal ∧
    qc_filtered [f_ten; f_twenty; f_thirty_five; f_ten; f_twenty]
      [Some Byte.x31; Some Byte.x31; Some Byte.x31; Some Byte.x31;
       Some Byte.x31] pres ∧
    qc_filtered [f_ten; f_twenty; f_ten; f_twenty; f_ten]
      [Some Byte.x31; Some Byte.x34; Some Byte.x31; Some Byte.x34;
       Some Byte.x32] temp ∧
    qc_filtered [f_thirty_five; f_thirty_five; f_thirty_five; f_thirty_five;
                 f_thirty_five]
      [Some Byte.x31; Some Byte.x31; None; Some Byte.x31; Some Byte.x31] psal.
Proof.
  apply (qc_filtering_per_variable five_samples); reflexivity.
Defined.

(** ** Pressure-required invariant: the extraction *)

Lemma to_tuple_has_pressure (id : Z) (r : frame_row) :
  notna (fr_pressure r) = true → has_pressure (to_tuple id r).
Proof.
  intros H. exists (fr_pressure r). simpl. unfold where_notna.
  split; [reflexivity|]. unfold notna in H. destruct (isna _); [discriminate|reflexivity].
Qed.

Lemma extract_rows_inv (pv : profile_view) (id : Z) (rows : list measurement) :
  extract_rows pv id = Ok rows →
  ∃ df, candidate_frame pv = Ok df ∧ rows = to_tuple id <$> dropna_pressure df.
Proof.
  unfold extract_rows. destruct (candidate_frame pv) as [df|e]; simpl; [|discriminate].
  intros [= <-]. exists df. auto.
Qed.

Lemma extract_rows_has_pressure (pv : profile_view) (id : Z)
    (rows : list measurement) :
  extract_rows pv id = Ok rows → Forall has_pressure rows.
Proof.
  intros H. destruct (extract_rows_inv _ _ _ H) as (df & _ & ->).
  apply Forall_fmap, Forall_forall. intros r Hr.
  unfold dropna_pressure in Hr. apply list_elem_of_In, filter_In in Hr.
  apply to_tuple_has_pressure, Hr.
Qed.

Lemma extract_rows_profile_id (pv : profile_view) (id : Z)
    (rows : list measurement) :
  extract_rows pv id = Ok rows → Forall (λ m, m_profile_id m = id) rows.
Proof.
  intros H. destruct (extract_rows_inv _ _ _ H) as (df & _ & ->).
  apply Forall_fmap, Forall_forall. intros r _. reflexivity.
Qed.

(** Five samples, two of them with a bad temperature flag: five rows, the
    temperature NaN on the two flagged ones. *)
Example five_rows_two_without_temperature :
  ∃ rows, extract_rows five_samples 1 = Ok rows ∧
    length rows = 5%nat ∧
    temperature_celsius <$> rows
    = [Some f_ten; Some nan; Some f_ten; Some nan; Some f_ten] ∧
    salinity_psu <$> rows
    = [Some f_thirty_five; Some f_thirty_five; Some nan; Some f_thirty_five;
       Some f_thirty_five].
Proof. eexists. split; [reflexivity|]. repeat split. Qed.

(** A sample with a rejected pressure and a valid temperature gives no
    row. *)
Example no_row_without_pressure :
  candidate_frame no_pressure_sample
  = Ok [{| fr_pressure := nan; fr_temperature := f_ten;
           fr_salinity := f_thirty_five |}]
  ∧ extract_rows no_pressure_sample 2 = Ok [].
Proof. split; reflexivity. Qed.

(** ** The operations on the connection *)

Lemma round_trip_cases (w : world) :
  (round_trip w = (Ok tt, w) ∧ faults w = []) ∨
  (∃ fs, faults w = false :: fs ∧ round_trip w = (Ok tt, set_faults fs w)) ∨
  (∃ fs, faults w = true :: fs
         ∧ round_trip w = (Raise DatabaseError, set_faults fs w)).
Proof.
  unfold round_trip. destruct (faults w) as [|[] fs]; eauto.
Qed.

Lemma same_store_refl (w : world) : same_store w w.
Proof. unfold same_store. auto. Qed.

Lemma same_store_trans (w1 w2 w3 : world) :
  same_store w1 w2 → same_store w2 w3 → same_store w1 w3.
Proof. unfold same_store. intros (?&?&?&?) (?&?&?&?). repeat split; congruence. Qed.

Lemma profile_exists_spec (p c : Z) (w : world) :
  same_store w (_profile_exists p c w).2 ∧
  ((_profile_exists p c w).1 = Raise DatabaseError ∨
   (_profile_exists p c w).1
   = Ok (existsb (has_key p c) (argo_profiles (session w)))).
Proof.
  unfold _profile_exists, bind, gets.
  destruct (round_trip_cases w) as [[-> _]|[(fs & _ & ->)|(fs & _ & ->)]];
    simpl; unfold same_store; auto.
Qed.

Lemma set_faults_same (w : world) : set_faults (faults w) w = w.
Proof. destruct w; reflexivity. Qed.

Lemma round_trip_result (w : world) :
  ∃ fs, round_trip w = (Ok tt, set_faults fs w)
        ∨ round_trip w = (Raise DatabaseError, set_faults fs w).
Proof.
  unfold round_trip. destruct (faults w) as [|[] fs] eqn:E; eauto.
  exists []. left. rewrite <- E, set_faults_same. reflexivity.
Qed.

Local Arguments round_trip : simpl never.

(** Case analysis on the next round trip of the goal. *)
Ltac on_round_trip :=
  match goal with
  | |- context [round_trip ?x] =>
      let fs := fresh "fs" in
      destruct (round_trip_result x) as [fs [-> | ->]]; cbn
  end.

(** Unfolding of the monadic combinators. *)
Ltac unfold_monad :=
  cbv beta iota delta
    [bind ret raise lift gets modify try_except logging commit rollback].


Lemma insert_profile_metadata_spec
    (p c : Z) (d : datetime) (la lo : float) (w : world) :
  quiescent w →
  ∃ r w', _insert_profile_metadata p c d la lo w = (r, w') ∧
  quiescent w' ∧ unique_key w' = unique_key w ∧
  (((r = Ok None ∨ r = Raise DatabaseError) ∧ committed w' = committed w) ∨
   (r = Ok (Some (next_profile_id w)) ∧
    committed w'
    = with_profile (new_row (next_profile_id w) p c d la lo) [] (committed w))).
Proof.
  unfold quiescent. intros Hq.
  unfold _insert_profile_metadata, execute_insert_profile. unfold_monad.
  on_round_trip; [|on_round_trip; eauto 12].
  destruct (unique_key w && _); cbn; [on_round_trip; eauto 12|].
  on_round_trip; [|on_round_trip; eauto 12].
  do 2 eexists. split; [reflexivity|]. cbn.
  split; [reflexivity|]. split; [reflexivity|]. right.
  split; [reflexivity|]. unfold with_profile, new_row. rewrite <- Hq.
  rewrite app_nil_r. reflexivity.
Qed.

Lemma insert_profile_metadata_returns
    (p c : Z) (d : datetime) (la lo : float) (w w' : world) (oid : option Z) :
  quiescent w →
  _insert_profile_metadata p c d la lo w = (Ok oid, w') →
  quiescent w' ∧ unique_key w' = unique_key w ∧
  ((oid = None ∧ committed w' = committed w) ∨
   (oid = Some (next_profile_id w) ∧
    committed w'
    = with_profile (new_row (next_profile_id w) p c d la lo) [] (committed w))).
Proof.
  intros Hq Hins.
  destruct (insert_profile_metadata_spec p c d la lo w Hq)
    as (r & w1 & E & Hq1 & Hu1 & Hcases).
  rewrite Hins in E. injection E as <- <-.
  split; [exact Hq1|]. split; [exact Hu1|].
  destruct Hcases as [[[Hr|Hr] Hc]|[Hr Hc]]; try discriminate;
    injection Hr as ->; auto.
Qed.

Lemma extract_measurements_spec (pv : profile_view) (id : Z) (w : world) :
  ∃ ms w', _extract_measurements pv id w = (Ok ms, w') ∧ same_store w w' ∧
  faults w' = faults w ∧
  (ms = [] ∨ extract_rows pv id = Ok ms).
Proof.
  unfold _extract_measurements. unfold_monad.
  destruct (extract_rows pv id) as [ms|e].
  - exists ms, w. auto using same_store_refl.
  - do 2 eexists. split; [reflexivity|]. cbn. unfold same_store. auto.
Qed.

Lemma paginate_concat {A} (fuel : nat) (rows : list A) :
  (length rows ≤ fuel)%nat → concat (paginate fuel rows) = rows.
Proof.
  revert rows. induction fuel as [|fuel IH]; intros [|x rows] Hlen;
    try reflexivity; [simpl in Hlen; lia|].
  change (paginate (S fuel) (x :: rows))
    with (take page_size (x :: rows)
            :: paginate fuel (drop page_size (x :: rows))).
  rewrite concat_cons, IH, take_drop; [reflexivity|].
  unfold page_size. simpl in *. rewrite length_drop. lia.
Qed.

Lemma execute_pages_spec (pages : list (list measurement)) (w : world) :
  ∃ r w', execute_pages pages w = (r, w') ∧
  committed w' = committed w ∧ unique_key w' = unique_key w ∧
  next_profile_id w' = next_profile_id w ∧
  (r = Ok tt →
   session w' = {| argo_profiles := argo_profiles (session w);
                   ocean_measurements :=
                     ocean_measurements (session w) ++ concat pages |}).
Proof.
  revert w. induction pages as [|page pages IH]; intros w.
  - exists (Ok tt), w. cbn. rewrite app_nil_r. destruct (session w); auto.
  - cbn [execute_pages]. unfold execute_insert_page. unfold_monad.
    on_round_trip.
    + match goal with |- context [execute_pages pages ?x] =>
        destruct (IH x) as (r & w' & -> & Hc & Hu & Hn & Hs) end.
      exists r, w'. cbn in *. repeat (split; [assumption || reflexivity|]).
      intros Hr. rewrite (Hs Hr), <- app_assoc. reflexivity.
    + do 2 eexists. split; [reflexivity|]. cbn.
      repeat (split; [reflexivity|]). discriminate.
Qed.

Lemma bulk_insert_measurements_spec (ms : list measurement) (w : world) :
  quiescent w →
  ∃ r w', _bulk_insert_measurements ms w = (r, w') ∧
  quiescent w' ∧ unique_key w' = unique_key w ∧
  next_profile_id w' = next_profile_id w ∧
  argo_profiles (committed w') = argo_profiles (committed w) ∧
  ((r = Ok tt ∧
    ocean_measurements (committed w') = ocean_measurements (committed w) ++ ms)
   ∨ (committed w' = committed w ∧ (r = Ok tt ∨ r = Raise DatabaseError) ∧
      ∃ e, last (log w') = Some (ErrorBulkInsert e))).
Proof.
  unfold quiescent. intros Hq.
  unfold _bulk_insert_measurements, execute_values.
  cbv beta iota delta [bind try_except].
  destruct (execute_pages_spec (paginate (length ms) ms) w)
    as (r & w1 & -> & Hc & Hu & Hn & Hs).
  rewrite paginate_concat in Hs by lia.
  assert (Hfail : ∀ e w2, committed w2 = committed w →
    unique_key w2 = unique_key w → next_profile_id w2 = next_profile_id w →
    ∃ r' w', (logging (ErrorBulkInsert e) ;;; rollback) w2 = (r', w') ∧
    session w' = committed w' ∧ unique_key w' = unique_key w ∧
    next_profile_id w' = next_profile_id w ∧
    argo_profiles (committed w') = argo_profiles (committed w) ∧
    ((r' = Ok tt ∧
      ocean_measurements (committed w') = ocean_measurements (committed w) ++ ms)
     ∨ (committed w' = committed w ∧ (r' = Ok tt ∨ r' = Raise DatabaseError) ∧
        ∃ e, last (log w') = Some (ErrorBulkInsert e)))).
  { intros e w2 Hc2 Hu2 Hn2. unfold_monad.
    on_round_trip; (eexists _, _; split; [reflexivity|]; cbn; rewrite Hc2;
      repeat (split; [assumption || reflexivity|]); right;
      split; [reflexivity|]; split; [by auto|]; rewrite last_snoc; eauto). }
  destruct r as [[]|e].
  - specialize (Hs eq_refl). unfold_monad. on_round_trip.
    + eexists _, _. split; [reflexivity|]. cbn. rewrite Hs, Hq. cbn. auto 10.
    + apply (Hfail DatabaseError); cbn; assumption.
  - apply (Hfail e); assumption.
Qed.

(** ** One profile, one file, the run *)

Lemma outcome_new (pv : profile_view) (t t' : tables) (id p c : Z)
    (d : datetime) (la lo : float) (ms : list measurement) :
  PLATFORM_NUMBER pv = Ok p → CYCLE_NUMBER pv = Ok c →
  existsb (has_key p c) (argo_profiles t) = false →
  ms = [] ∨ (id ≠ 0 ∧ extract_rows pv id = Ok ms) →
  t' = with_profile (new_row id p c d la lo) ms t →
  profile_outcome pv t t'.
Proof. intros. by eapply (outcome_ingested _ _ _ (new_row id p c d la lo) ms). Qed.

Lemma ingest_profile_spec (pv : profile_view) (p c : Z) (w : world) :
  quiescent w →
  PLATFORM_NUMBER pv = Ok p → CYCLE_NUMBER pv = Ok c →
  existsb (has_key p c) (argo_profiles (committed w)) = false →
  ∃ r w', ingest_profile pv p c w = (r, w') ∧
  quiescent w' ∧ unique_key w' = unique_key w ∧
  profile_outcome pv (committed w) (committed w') ∧
  (∀ e, r = Raise e →
        ocean_measurements (committed w') = ocean_measurements (committed w)).
Proof.
  intros Hq Hp Hc Hfresh. unfold ingest_profile.
  cbv beta iota delta [bind lift].
  assert (Hstay : ∀ (r : result unit) w', quiescent w' →
    unique_key w' = unique_key w → committed w' = committed w →
    ∃ (r0 : result unit) w0,
    (r, w') = (r0, w0) ∧ quiescent w0 ∧ unique_key w0 = unique_key w ∧
    profile_outcome pv (committed w) (committed w0) ∧
    (∀ e, r0 = Raise e →
          ocean_measurements (committed w0) = ocean_measurements (committed w))).
  { intros r w' Hq' Hu' Hc'. exists r, w'. repeat split; auto.
    - by constructor.
    - intros _ _. by rewrite Hc'. }
  destruct (JULD pv) as [jd|e]; [|by apply Hstay].
  destruct (profile_date_of jd) as [d|e]; [|by apply Hstay].
  destruct (LATITUDE pv) as [la|e]; [|by apply Hstay].
  destruct (LONGITUDE pv) as [lo|e]; [|by apply Hstay].
  destruct (insert_profile_metadata_spec p c d la lo w Hq)
    as (oid & w1 & -> & Hq1 & Hu1 & [[[-> | ->] Hc1]|[-> Hc1]]).
  - unfold ret. cbn [truthy negb]. by apply Hstay.
  - by apply Hstay.
  - assert (Hrow : ∀ ms, ms = [] → ∀ (r : result unit) w', quiescent w' →
      unique_key w' = unique_key w →
      committed w'
      = with_profile (new_row (next_profile_id w) p c d la lo) ms (committed w) →
      ∃ (r0 : result unit) w0,
      (r, w') = (r0, w0) ∧ quiescent w0 ∧ unique_key w0 = unique_key w ∧
      profile_outcome pv (committed w) (committed w0) ∧
      (∀ e, r0 = Raise e →
            ocean_measurements (committed w0)
            = ocean_measurements (committed w))).
    { intros ms -> r w' Hq' Hu' Hc'. exists r, w'. repeat split; auto.
      - eapply (outcome_new _ _ _ (next_profile_id w) p c d la lo []); eauto.
      - intros _ _. rewrite Hc'. cbn. by rewrite app_nil_r. }
    cbn [truthy]. destruct (next_profile_id w =? 0) eqn:Eid; cbn [negb].
    + unfold ret. by apply (Hrow []).
    + destruct (extract_measurements_spec pv (next_profile_id w) w1)
        as (ms & w2 & -> & (Hc2 & Hs2 & Hu2 & Hn2) & _ & Hms).
      assert (Hq2 : quiescent w2) by (unfold quiescent in *; congruence).
      destruct ms as [|m ms].
      * unfold ret. apply (Hrow []); auto; congruence.
      * destruct (bulk_insert_measurements_spec (m :: ms) w2 Hq2)
          as (r3 & w3 & -> & Hq3 & Hu3 & Hn3 & Hp3 & Hm3).
        destruct Hms as [Hms|Hms]; [discriminate|].
        destruct Hm3 as [[-> Hm3]|[Hm3 _]].
        -- exists (Ok tt), w3. repeat split; auto; [congruence| |discriminate].
           apply Z.eqb_neq in Eid.
           eapply (outcome_new _ _ _ (next_profile_id w) p c d la lo (m :: ms));
             eauto.
           destruct (committed w3) as [ps3 ms3]. cbn in *.
           rewrite Hp3, Hm3, Hc2, Hc1. unfold with_profile. cbn.
           rewrite app_nil_r. reflexivity.
        -- apply (Hrow []); auto; congruence.
Qed.

Lemma process_profile_spec (pv : profile_view) (w : world) :
  quiescent w →
  ∃ r w', process_profile pv w = (r, w') ∧
  quiescent w' ∧ unique_key w' = unique_key w ∧
  profile_outcome pv (committed w) (committed w') ∧
  (∀ e, r = Raise e →
        ocean_measurements (committed w') = ocean_measurements (committed w)).
Proof.
  intros Hq. unfold process_profile. cbv beta iota delta [bind lift].
  assert (Hstay : ∀ e : exn, ∃ (r : result unit) w',
    (Raise e, w) = (r, w') ∧ quiescent w' ∧ unique_key w' = unique_key w ∧
    profile_outcome pv (committed w) (committed w') ∧
    (∀ e, r = Raise e →
          ocean_measurements (committed w') = ocean_measurements (committed w))).
  { intros e. exists (Raise e), w. repeat split; auto. by constructor. }
  destruct (PLATFORM_NUMBER pv) as [p|e] eqn:Hp; [|apply Hstay].
  destruct (CYCLE_NUMBER pv) as [c|e] eqn:Hc; [|apply Hstay].
  destruct (profile_exists_spec p c w) as [(Hc1 & Hs1 & Hu1 & Hn1) Hr].
  destruct (_profile_exists p c w) as [r w1]. cbn [fst snd] in *.
  assert (Hq1 : quiescent w1) by (unfold quiescent in *; congruence).
  destruct Hr as [->| ->].
  - exists (Raise DatabaseError), w1. repeat split; auto; [|congruence].
    by constructor.
  - destruct (existsb _ _) eqn:Hex.
    + eexists _, _. split; [reflexivity|]. cbn.
      repeat split; auto; [|congruence]. by constructor.
    + rewrite Hq, <- Hc1 in Hex.
      destruct (ingest_profile_spec pv p c w1 Hq1 Hp Hc Hex)
        as (r & w2 & -> & Hq2 & Hu2 & Ho & Hraise).
      exists r, w2. rewrite <- Hc1. repeat split; auto; congruence.
Qed.

Lemma process_profiles_spec (pvs : list profile_view) (w : world) :
  quiescent w →
  ∃ r w', process_profiles pvs w = (r, w') ∧
  quiescent w' ∧ unique_key w' = unique_key w ∧
  reachable (committed w) (committed w').
Proof.
  revert w. induction pvs as [|pv pvs IH]; intros w Hq.
  - exists (Ok tt), w. repeat split; auto. apply rtc_refl.
  - cbn [process_profiles]. cbv beta iota delta [bind].
    destruct (process_profile_spec pv w Hq) as (r & w1 & -> & Hq1 & Hu1 & Ho & _).
    assert (Hstep : reachable (committed w) (committed w1))
      by (apply rtc_once; exists pv; exact Ho).
    destruct r as [[]|e].
    + destruct (IH w1 Hq1) as (r & w2 & -> & Hq2 & Hu2 & Hr).
      exists r, w2. repeat split; auto; [congruence|].
      eapply rtc_trans; eassumption.
    + exists (Raise e), w1. auto.
Qed.

Lemma process_file_unfold (f : nc_file) (w : world) :
  process_file f w =
  match file_body f w with
  | (Ok a, w') => (Ok a, w')
  | (Raise e, w') => (Ok tt, add_log (ErrorFile (file_path f) e) w')
  end.
Proof. reflexivity. Qed.

Lemma process_file_spec (f : nc_file) (w : world) :
  quiescent w →
  ∃ w', process_file f w = (Ok tt, w') ∧
  quiescent w' ∧ unique_key w' = unique_key w ∧
  reachable (committed w) (committed w').
Proof.
  intros Hq. rewrite process_file_unfold. unfold file_body.
  cbv beta iota delta [bind lift].
  destruct (dataset f) as [pvs|e].
  - destruct (process_profiles_spec pvs w Hq) as (r & w1 & -> & Hq1 & Hu1 & Hr).
    destruct r as [[]|e]; eexists; (split; [reflexivity|]); auto.
  - eexists. split; [reflexivity|]. cbn. repeat split; auto. apply rtc_refl.
Qed.

Lemma main_loop_spec (fs : list nc_file) (w : world) :
  quiescent w →
  ∃ w', main_loop fs w = (Ok tt, w') ∧
  quiescent w' ∧ unique_key w' = unique_key w ∧
  reachable (committed w) (committed w').
Proof.
  revert w. induction fs as [|f fs IH]; intros w Hq.
  - exists w. repeat split; auto. apply rtc_refl.
  - cbn [main_loop]. cbv beta iota delta [bind].
    destruct (process_file_spec f w Hq) as (w1 & -> & Hq1 & Hu1 & Hr1).
    destruct (IH w1 Hq1) as (w2 & -> & Hq2 & Hu2 & Hr2).
    exists w2. repeat split; auto; [congruence|].
    eapply rtc_trans; eassumption.
Qed.

Lemma reachable_invariant (P : tables → Prop) (t t' : tables) :
  (∀ pv t1 t2, P t1 → profile_outcome pv t1 t2 → P t2) →
  reachable t t' → P t → P t'.
Proof.
  intros Hstep Hr. induction Hr as [|t1 t2 t3 [pv Ho] _ IH]; [auto|].
  intros HP. apply IH. eapply Hstep; eassumption.
Qed.

(** ** Pressure-required invariant *)

Lemma outcome_has_pressure (pv : profile_view) (t t' : tables) :
  Forall has_pressure (ocean_measurements t) →
  profile_outcome pv t t' →
  Forall has_pressure (ocean_measurements t').
Proof.
  intros HP [->|row ms _ _ _ Hms ->]; [exact HP|].
  cbn. apply Forall_app. split; [exact HP|].
  destruct Hms as [->|[_ Hms]]; [constructor|].
  eapply extract_rows_has_pressure, Hms.
Qed.

(** C2. Every row that [_extract_measurements] hands to the bulk insert
    carries a pressure that is not NaN, the rows are exactly the candidate
    rows of the data frame whose filtered pressure is present (a candidate
    without pressure is dropped whatever its temperature and salinity),
    and a run of the pipeline from a store whose measurement rows all have
    a pressure ends in such a store. *)
Theorem pressure_required
    (fs : list nc_file) (w : world)
    (Hq : quiescent w)
    (Hw : Forall has_pressure (ocean_measurements (committed w))) :
  Forall has_pressure
    (ocean_measurements (committed (exec (main_loop fs) w))) ∧
  ∀ (pv : profile_view) (id : Z) (w0 : world),
    ∃ ms w1, _extract_measurements pv id w0 = (Ok ms, w1) ∧
    Forall has_pressure ms ∧
    (ms = [] ∨
     ∃ df, candidate_frame pv = Ok df ∧
           ms = to_tuple id <$> List.filter (λ r, notna (fr_pressure r)) df).
Proof.
  split.
  - destruct (main_loop_spec fs w Hq) as (w' & E & _ & _ & Hr).
    unfold exec. rewrite E. cbn.
    apply (reachable_invariant
             (λ t, Forall has_pressure (ocean_measurements t)) _ _
             outcome_has_pressure Hr Hw).
  - intros pv id w0.
    destruct (extract_measurements_spec pv id w0) as (ms & w1 & E & _ & _ & Hms).
    exists ms, w1. split; [exact E|]. destruct Hms as [->|Hms].
    + split; [constructor|by left].
    + split; [eapply extract_rows_has_pressure, Hms|].
      right. apply extract_rows_inv, Hms.
Qed.

Lemma pressure_required_witness :
  Forall has_pressure
    (ocean_measurements (committed (exec (main_loop [sample_file]) fresh_world))) ∧
  ∀ (pv : profile_view) (id : Z) (w0 : world),
    ∃ ms w1, _extract_measurements pv id w0 = (Ok ms, w1) ∧
    Forall has_pressure ms ∧
    (ms = [] ∨
     ∃ df, candidate_frame pv = Ok df ∧
           ms = to_tuple id <$> List.filter (λ r, notna (fr_pressure r)) df).
Proof.
  apply (pressure_required [sample_file] fresh_world).
  - reflexivity.
  - constructor.
Defined.

(** ** Profile uniqueness *)

Lemma existsb_has_key_false (p c : Z) (rows : list profile_row) :
  existsb (has_key p c) rows = false → (p, c) ∉ key_of <$> rows.
Proof.
  intros Hex Hin. apply list_elem_of_fmap in Hin as (r & Hk & Hr).
  assert (Ht : existsb (has_key p c) rows = true).
  { apply existsb_exists. exists r. split; [by apply list_elem_of_In|].
    unfold key_of in Hk. injection Hk as -> ->. unfold has_key.
    by rewrite !Z.eqb_refl. }
  congruence.
Qed.

Lemma outcome_unique (pv : profile_view) (t t' : tables) :
  NoDup (key_of <$> argo_profiles t) →
  profile_outcome pv t t' →
  NoDup (key_of <$> argo_profiles t').
Proof.
  intros HP [->|row ms _ _ Hfresh _ ->]; [exact HP|].
  cbn. rewrite fmap_app. apply NoDup_app. split; [exact HP|]. split.
  - intros k Hk Hin. cbn in Hin. apply list_elem_of_singleton in Hin as ->.
    by apply existsb_has_key_false in Hfresh.
  - cbn. apply NoDup_singleton.
Qed.

(** C4. From a store in which no two profiles share a key and with no
    pending statement, the store after any run of the pipeline over any
    files, and after any part of a file, has no two profile rows with the
    same (platform_number, cycle_number), whether or not the schema
    declares the key unique and whatever fails on the way. *)
Theorem profile_uniqueness
    (fs : list nc_file) (pvs : list profile_view) (w : world)
    (Hq : quiescent w)
    (Hw : NoDup (key_of <$> argo_profiles (committed w))) :
  let w1 := exec (main_loop fs) w in
  NoDup (key_of <$> argo_profiles (committed w1)) ∧
  NoDup (key_of <$> argo_profiles (committed (exec (process_profiles pvs) w1))).
Proof.
  destruct (main_loop_spec fs w Hq) as (w1 & E & Hq1 & _ & Hr).
  unfold exec. rewrite E. cbn.
  assert (H1 : NoDup (key_of <$> argo_profiles (committed w1))).
  { apply (reachable_invariant
             (λ t, NoDup (key_of <$> argo_profiles t)) _ _
             outcome_unique Hr Hw). }
  split; [exact H1|].
  destruct (process_profiles_spec pvs w1 Hq1) as (r & w2 & E2 & _ & _ & Hr2).
  rewrite E2. cbn.
  apply (reachable_invariant
           (λ t, NoDup (key_of <$> argo_profiles t)) _ _
           outcome_unique Hr2 H1).
Qed.

Lemma profile_uniqueness_witness :
  let w1 := exec (main_loop [sample_file; sample_file]) fresh_world in
  NoDup (key_of <$> argo_profiles (committed w1)) ∧
  NoDup (key_of <$> argo_profiles
           (committed (exec (process_profiles [five_samples; five_samples]) w1))).
Proof.
  apply (profile_uniqueness [sample_file; sample_file]
           [five_samples; five_samples] fresh_world).
  - reflexivity.
  - constructor.
Defined.

(** ** Duplicate skip *)

(** C5. When the duplicate guard answers that the key of a profile is in
    the store, the loop body ends there: the world is the one the guard's
    query left, with the skip recorded; the tables and the key generator
    are untouched; the result is the same for every profile with that key,
    whatever its timestamp, position and measurement arrays hold, even
    where reading them would raise; and the loop goes on with the next
    profile. *)
Theorem duplicate_skip
    (pv : profile_view) (pvs : list profile_view) (p c : Z) (w w1 : world)
    (Hp : PLATFORM_NUMBER pv = Ok p)
    (Hc : CYCLE_NUMBER pv = Ok c)
    (Hex : _profile_exists p c w = (Ok true, w1)) :
  process_profile pv w = (Ok tt, add_log (DebugSkipExisting p c) w1) ∧
  committed (exec (process_profile pv) w) = committed w ∧
  session (exec (process_profile pv) w) = session w ∧
  next_profile_id (exec (process_profile pv) w) = next_profile_id w ∧
  (∀ pv', PLATFORM_NUMBER pv' = Ok p → CYCLE_NUMBER pv' = Ok c →
          process_profile pv' w = process_profile pv w) ∧
  process_profiles (pv :: pvs) w
  = process_profiles pvs (add_log (DebugSkipExisting p c) w1).
Proof.
  assert (E : ∀ pv', PLATFORM_NUMBER pv' = Ok p → CYCLE_NUMBER pv' = Ok c →
    process_profile pv' w = (Ok tt, add_log (DebugSkipExisting p c) w1)).
  { intros pv' Hp' Hc'. unfold process_profile.
    cbv beta iota delta [bind lift]. rewrite Hp', Hc', Hex. reflexivity. }
  pose proof (profile_exists_spec p c w) as [(Hc1 & Hs1 & _ & Hn1) _].
  rewrite Hex in Hc1, Hs1, Hn1. cbn in Hc1, Hs1, Hn1.
  unfold exec. rewrite (E pv Hp Hc). cbn.
  split; [reflexivity|]. split; [exact Hc1|]. split; [exact Hs1|].
  split; [exact Hn1|]. split.
  - intros pv' Hp' Hc'. apply E; assumption.
  - cbn [process_profiles]. cbv beta iota delta [bind].
    rewrite (E pv Hp Hc). reflexivity.
Qed.

Lemma duplicate_skip_witness :
  process_profile key_only stored_world
  = (Ok tt, add_log (DebugSkipExisting 1901393 7) stored_world) ∧
  committed (exec (process_profile key_only) stored_world)
  = committed stored_world ∧
  session (exec (process_profile key_only) stored_world)
  = session stored_world ∧
  next_profile_id (exec (process_profile key_only) stored_world)
  = next_profile_id stored_world ∧
  (∀ pv', PLATFORM_NUMBER pv' = Ok 1901393 → CYCLE_NUMBER pv' = Ok 7 →
          process_profile pv' stored_world
          = process_profile key_only stored_world) ∧
  process_profiles [key_only; five_samples] stored_world
  = process_profiles [five_samples]
      (add_log (DebugSkipExisting 1901393 7) stored_world).
Proof.
  apply (duplicate_skip key_only [five_samples] 1901393 7
           stored_world stored_world); reflexivity.
Defined.

(** A file with one profile already in the store and one new profile: one
    more profile row, and measurement rows for the new profile only. *)
Example one_known_one_new :
  let w := exec (process_file known_and_new_file) stored_world in
  row_counts stored_world = (1%nat, 5%nat) ∧
  row_counts w = (2%nat, 10%nat) ∧
  (profile_id <$> argo_profiles (committed w)) = [1; 2] ∧
  (m_profile_id <$> ocean_measurements (committed w))
  = [1; 1; 1; 1; 1; 2; 2; 2; 2; 2].
Proof. vm_compute. repeat split. Qed.

(** ** Atomicity of the measurement batch *)

Lemma round_trip_ok_iff (w : world) :
  (round_trip w).1 = Ok tt ↔ fails_within 1 w = false.
Proof.
  unfold round_trip, fails_within.
  destruct (faults w) as [|[] fs]; cbn; rewrite ?take_0; cbn; split; congruence.
Qed.

Lemma fails_within_S (n : nat) (w : world) :
  fails_within (S n) w
  = fails_within 1 w || fails_within n (round_trip w).2.
Proof.
  unfold fails_within, round_trip.
  destruct (faults w) as [|[] fs] eqn:E; cbn; rewrite ?E, ?take_0, ?take_nil; cbn;
    reflexivity.
Qed.

Lemma execute_pages_ok_iff (pages : list (list measurement)) (w : world) :
  (execute_pages pages w).1 = Ok tt ↔ fails_within (length pages) w = false.
Proof.
  revert w. induction pages as [|page pages IH]; intros w.
  - cbn. unfold fails_within. rewrite take_0. cbn. tauto.
  - cbn [length]. rewrite fails_within_S, orb_false_iff, <- round_trip_ok_iff.
    cbn [execute_pages]. unfold execute_insert_page. unfold_monad.
    destruct (round_trip w) as [[[]|e] w1] eqn:E; cbn.
    + rewrite IH. unfold fails_within. cbn. tauto.
    + split; [discriminate|]. intros [H _]. discriminate H.
Qed.

Lemma execute_pages_faults (pages : list (list measurement)) (w : world) :
  (execute_pages pages w).1 = Ok tt →
  faults (execute_pages pages w).2 = drop (length pages) (faults w).
Proof.
  revert w. induction pages as [|page pages IH]; intros w.
  - reflexivity.
  - cbn [execute_pages]. unfold execute_insert_page. unfold_monad.
    unfold round_trip. destruct (faults w) as [|[] fs] eqn:E; cbn.
    + intros H. rewrite (IH _ H). cbn. rewrite E, !drop_nil. reflexivity.
    + discriminate.
    + intros H. rewrite (IH _ H). reflexivity.
Qed.

Lemma fails_within_snoc (n : nat) (w w' : world) :
  faults w' = drop n (faults w) →
  fails_within (S n) w = fails_within n w || fails_within 1 w'.
Proof.
  unfold fails_within. intros ->.
  rewrite <- existsb_app, take_take_drop. f_equal. f_equal. lia.
Qed.

Lemma fails_within_mono (n : nat) (w : world) :
  fails_within n w = true → fails_within (S n) w = true.
Proof.
  unfold fails_within. intros H.
  replace (S n) with (n + 1)%nat by lia.
  rewrite <- take_take_drop, existsb_app, H. reflexivity.
Qed.

Lemma round_trip_eq (w : world) :
  round_trip w
  = (if fails_at 0 w then Raise DatabaseError else Ok tt,
     set_faults (drop 1 (faults w)) w).
Proof.
  unfold round_trip, fails_at.
  destruct (faults w) as [|[] fs] eqn:E; cbn; rewrite ?drop_0; try reflexivity.
  by rewrite <- E, set_faults_same.
Qed.



Lemma rollback_eq (w : world) :
  rollback w
  = (if fails_at 0 w then Raise DatabaseError else Ok tt,
     set_session (committed w) (set_faults (drop 1 (faults w)) w)).
Proof. unfold rollback. rewrite round_trip_eq. reflexivity. Qed.



Lemma main_loop_returns (fs : list nc_file) (w : world) :
  (main_loop fs w).1 = Ok tt.
Proof.
  revert w. induction fs as [|f fs IH]; intros w; [reflexivity|].
  cbn [main_loop]. cbv beta iota delta [bind]. rewrite process_file_unfold.
  destruct (file_body f w) as [[[]|e] w1]; apply IH.
Qed.



(** The connection is lost while the second page of a batch is sent: the
    rollback fails as well and the call raises; nothing of the batch is
    stored. *)
Example batch_on_lost_connection :
  let w := scheduled_world [false; true; true] in
  (_bulk_insert_measurements (replicate 150 sample_row) w).1
  = Raise DatabaseError ∧
  committed (exec (_bulk_insert_measurements (replicate 150 sample_row)) w)
  = committed w.
Proof. split; reflexivity. Qed.

(** The same loss while the measurements of the first file are sent: the
    exception of the rollback ends that file, whose profile stays without
    measurements, and the run goes on with the next file. *)
Example run_after_lost_rollback :
  let w := exec (main_loop [sample_file; known_and_new_file])
             (scheduled_world [false; false; false; true; true]) in
  row_counts w = (2%nat, 5%nat) ∧
  log w = [ErrorBulkInsert DatabaseError;
           ErrorFile "data/R1901393_007.nc" DatabaseError;
           DebugSkipExisting 1901393 7].
Proof. vm_compute. split; reflexivity. Qed.

(** ** Failure isolation *)

Lemma main_loop_app (fs1 fs2 : list nc_file) (w : world) :
  main_loop (fs1 ++ fs2) w = main_loop fs2 (exec (main_loop fs1) w).
Proof.
  revert w. induction fs1 as [|f fs1 IH]; intros w; [reflexivity|].
  cbn [app main_loop]. unfold exec. cbv beta iota delta [bind].
  rewrite process_file_unfold.
  destruct (file_body f w) as [[[]|e] w1]; cbn; apply IH.
Qed.

Lemma process_file_ok (f : nc_file) (w : world) :
  (process_file f w).1 = Ok tt.
Proof.
  rewrite process_file_unfold. by destruct (file_body f w) as [[[]|e] w1].
Qed.

(** C8. [process_file] never raises: when the opening of the file or the
    reading of its profiles raises, the exception is caught there, logged
    with the file's path, and nothing else is done for that file; the loop
    of [main] then processes every later file, from the world that file
    left. *)
Theorem per_file_failure_isolation
    (fs1 fs2 : list nc_file) (f : nc_file) (w : world) :
  let w1 := exec (main_loop fs1) w in
  (process_file f w1).1 = Ok tt ∧
  (∀ e, dataset f = Raise e →
        process_file f w1 = (Ok tt, add_log (ErrorFile (file_path f) e) w1)) ∧
  (∀ e w2, file_body f w1 = (Raise e, w2) →
           process_file f w1 = (Ok tt, add_log (ErrorFile (file_path f) e) w2)) ∧
  main_loop (fs1 ++ f :: fs2) w = main_loop fs2 (exec (process_file f) w1) ∧
  (main_loop (fs1 ++ f :: fs2) w).1 = Ok tt.
Proof.
  cbn zeta. split; [apply process_file_ok|]. split; [|split; [|split]].
  - intros e He. rewrite process_file_unfold. unfold file_body.
    cbv beta iota delta [bind lift]. rewrite He. reflexivity.
  - intros e w2 He. rewrite process_file_unfold, He. reflexivity.
  - rewrite main_loop_app. cbn [main_loop]. cbv beta iota delta [bind].
    unfold exec at 2.
    pose proof (process_file_ok f (exec (main_loop fs1) w)) as Hok.
    destruct (process_file f (exec (main_loop fs1) w)) as [r w2]. cbn in *.
    rewrite Hok. reflexivity.
  - generalize (fs1 ++ f :: fs2). intros fs. revert w.
    induction fs as [|f' fs IH]; intros w; [reflexivity|].
    cbn [main_loop]. cbv beta iota delta [bind].
    pose proof (process_file_ok f' w) as Hok.
    destruct (process_file f' w) as [r w2]. cbn in Hok. rewrite Hok. apply IH.
Qed.

Lemma per_file_failure_isolation_witness :
  let w1 := exec (main_loop [sample_file]) fresh_world in
  (process_file unreadable_file w1).1 = Ok tt ∧
  (∀ e, dataset unreadable_file = Raise e →
        process_file unreadable_file w1
        = (Ok tt, add_log (ErrorFile (file_path unreadable_file) e) w1)) ∧
  (∀ e w2, file_body unreadable_file w1 = (Raise e, w2) →
           process_file unreadable_file w1
           = (Ok tt, add_log (ErrorFile (file_path unreadable_file) e) w2)) ∧
  main_loop ([sample_file] ++ unreadable_file :: [sample_file]) fresh_world
  = main_loop [sample_file] (exec (process_file unreadable_file) w1) ∧
  (main_loop ([sample_file] ++ unreadable_file :: [sample_file])
     fresh_world).1 = Ok tt.
Proof.
  exact (per_file_failure_isolation [sample_file] [sample_file]
           unreadable_file fresh_world).
Defined.

Lemma process_profiles_app (pre post : list profile_view) (w : world) :
  process_profiles (pre ++ post) w =
  match process_profiles pre w with
  | (Ok _, w1) => process_profiles post w1
  | (Raise e, w1) => (Raise e, w1)
  end.
Proof.
  revert w. induction pre as [|pv pre IH]; intros w; [reflexivity|].
  cbn [app process_profiles]. cbv beta iota delta [bind].
  destruct (process_profile pv w) as [[[]|e] w1]; [apply IH|reflexivity].
Qed.

Lemma metadata_raises_process (pv : profile_view) (w w2 : world) (e : exn) :
  metadata_raises pv w e w2 →
  process_profile pv w = (Raise e, w2) ∧ same_store w w2.
Proof.
  intros H. unfold process_profile, ingest_profile.
  cbv beta iota delta [bind lift].
  destruct H as [e Hp|p e Hp Hc|p c w1 e Hp Hc Hex Hj
                 |p c w1 jd e Hp Hc Hex Hj Hd
                 |p c w1 jd d e Hp Hc Hex Hj Hd Hla
                 |p c w1 jd d la e Hp Hc Hex Hj Hd Hla Hlo];
    rewrite ?Hp, ?Hc, ?Hex, ?Hj, ?Hd, ?Hla, ?Hlo;
    (split; [reflexivity|]); try apply same_store_refl;
    pose proof (profile_exists_spec p c w) as [Hs _];
    rewrite Hex in Hs; exact Hs.
Qed.

Lemma non_finite_date (x : float) :
  non_finite x = true → ∃ e, profile_date_of x = Raise e.
Proof. destruct x as [s|s| |s m ex]; try discriminate; intros _; eauto. Qed.

Lemma outcome_extends (pv : profile_view) (t t' : tables) :
  profile_outcome pv t t' → extends t t'.
Proof.
  intros [->|row ms _ _ _ _ ->]; unfold extends; cbn.
  - split; reflexivity.
  - split; apply prefix_app_r; reflexivity.
Qed.

Lemma reachable_extends (t t' : tables) : reachable t t' → extends t t'.
Proof.
  intros Hr. induction Hr as [t|t1 t2 t3 [pv Ho] _ IH].
  - split; reflexivity.
  - apply outcome_extends in Ho. destruct Ho, IH. split; etrans; eassumption.
Qed.

(** C9. When the metadata of the profile at some index of a file raises
    (the platform or the cycle number, or, for a profile the guard reports
    as new, the Julian day, its conversion to a date, which raises for NaN
    and for the infinities, the latitude or the longitude), the exception
    leaves the loop and is caught by [process_file] alone: the file's
    processing ends with the error logged, the world is the one at the
    raise, which has the tables left by the profiles before (their rows
    are kept), and it is the same whatever profiles follow in the file. *)
Theorem metadata_exception_aborts_file
    (f : nc_file) (pre post : list profile_view) (pv : profile_view)
    (w w2 : world) (e : exn)
    (Hds : dataset f = Ok (pre ++ pv :: post))
    (Hq : quiescent w)
    (Hpre : (process_profiles pre w).1 = Ok tt)
    (Herr : metadata_raises pv (exec (process_profiles pre) w) e w2) :
  process_profile pv (exec (process_profiles pre) w) = (Raise e, w2) ∧
  process_file f w = (Ok tt, add_log (ErrorFile (file_path f) e) w2) ∧
  committed w2 = committed (exec (process_profiles pre) w) ∧
  session w2 = committed w2 ∧
  extends (committed w) (committed w2) ∧
  (∀ f' post', dataset f' = Ok (pre ++ pv :: post') →
     exec (process_file f') w
     = add_log (ErrorFile (file_path f') e) w2) ∧
  (∀ x, non_finite x = true → ∃ e', profile_date_of x = Raise e').
Proof.
  destruct (metadata_raises_process _ _ _ _ Herr) as [Epv (Hc & Hs & _ & _)].
  destruct (process_profiles_spec pre w Hq) as (r & w1 & Epre & Hq1 & _ & Hr).
  unfold exec in *. rewrite Epre in *. cbn [fst snd] in *. subst r.
  assert (Hfile : ∀ f' post', dataset f' = Ok (pre ++ pv :: post') →
    process_file f' w = (Ok tt, add_log (ErrorFile (file_path f') e) w2)).
  { intros f' post' Hds'. rewrite process_file_unfold. unfold file_body.
    cbv beta iota delta [bind lift]. rewrite Hds', process_profiles_app, Epre.
    cbn [process_profiles]. cbv beta iota delta [bind]. rewrite Epv.
    reflexivity. }
  split; [exact Epv|]. split; [eapply Hfile, Hds|]. split; [exact Hc|].
  split; [unfold quiescent in Hq1; congruence|]. split.
  - rewrite Hc. apply reachable_extends, Hr.
  - split; [|apply non_finite_date].
    intros f' post' Hds'. rewrite (Hfile f' post' Hds'). reflexivity.
Qed.

Lemma metadata_exception_aborts_file_witness :
  let w1 := exec (process_profiles [bare_profile 1 1]) fresh_world in
  process_profile (nan_juld 2 1) w1 = (Raise ValueError, w1) ∧
  process_file aborting_file fresh_world
  = (Ok tt, add_log (ErrorFile (file_path aborting_file) ValueError) w1) ∧
  committed w1 = committed w1 ∧
  session w1 = committed w1 ∧
  extends (committed fresh_world) (committed w1) ∧
  (∀ f' post', dataset f' = Ok ([bare_profile 1 1] ++ nan_juld 2 1 :: post') →
     exec (process_file f') fresh_world
     = add_log (ErrorFile (file_path f') ValueError) w1) ∧
  (∀ x, non_finite x = true → ∃ e', profile_date_of x = Raise e').
Proof.
  intros w1.
  apply (metadata_exception_aborts_file aborting_file [bare_profile 1 1]
           [bare_profile 3 1] (nan_juld 2 1) fresh_world w1 ValueError).
  - reflexivity.
  - reflexivity.
  - reflexivity.
  - apply (raises_date _ _ 2 1 w1 nan ValueError); reflexivity.
Defined.

(** ** A falsy profile id *)

(** C10. Whatever [_insert_profile_metadata] returns that Python takes for
    false, [None] after a failed insert or the id 0 of a row that was
    inserted and committed, the loop body ends there: no measurement is
    extracted or inserted, the world is the one the insert left.  With
    the id 0 the profile row is in the store and the measurement table is
    as before. *)
Theorem falsy_profile_id_skips_measurements
    (pv : profile_view) (p c : Z) (w w2 : world)
    (jd : float) (d : datetime) (la lo : float) (oid : option Z)
    (Hq : quiescent w)
    (Hj : JULD pv = Ok jd) (Hd : profile_date_of jd = Ok d)
    (Hla : LATITUDE pv = Ok la) (Hlo : LONGITUDE pv = Ok lo)
    (Hins : _insert_profile_metadata p c d la lo w = (Ok oid, w2))
    (Hfalsy : truthy oid = false) :
  ingest_profile pv p c w = (Ok tt, w2) ∧
  (oid = None ∨ oid = Some 0) ∧
  (oid = Some 0 →
   committed w2 = with_profile (new_row 0 p c d la lo) [] (committed w)) ∧
  ocean_measurements (committed w2) = ocean_measurements (committed w).
Proof.
  split.
  - unfold ingest_profile. cbv beta iota delta [bind lift].
    rewrite Hj, Hd, Hla, Hlo, Hins. destruct oid as [id|]; [|reflexivity].
    rewrite Hfalsy. reflexivity.
  - destruct (insert_profile_metadata_returns p c d la lo w w2 oid Hq Hins)
      as (_ & _ & Hcases).
    destruct Hcases as [[-> Hc]|[-> Hc]].
    + split; [by left|]. split; [discriminate|]. by rewrite Hc.
    + cbn in Hfalsy. apply negb_false_iff, Z.eqb_eq in Hfalsy.
      rewrite Hfalsy in *. split; [by right|]. split; [intros _; exact Hc|].
      rewrite Hc. cbn. by rewrite app_nil_r.
Qed.

Lemma falsy_profile_id_skips_measurements_witness :
  let w2 := exec (_insert_profile_metadata 1901393 7 noon_1950_01_02
                    f_ten f_twenty) zero_id_world in
  ingest_profile five_samples 1901393 7 zero_id_world = (Ok tt, w2) ∧
  (Some 0 = None ∨ Some 0 = Some 0) ∧
  (Some 0 = Some 0 →
   committed w2
   = with_profile (new_row 0 1901393 7 noon_1950_01_02 f_ten f_twenty) []
       (committed zero_id_world)) ∧
  ocean_measurements (committed w2)
  = ocean_measurements (committed zero_id_world).
Proof.
  intros w2.
  apply (falsy_profile_id_skips_measurements five_samples 1901393 7
           zero_id_world w2 f_one_and_half noon_1950_01_02 f_ten f_twenty
           (Some 0)); reflexivity.
Defined.

(** ** Running the pipeline again *)

Lemma same_store_quiescent (w w' : world) :
  same_store w w' → quiescent w → quiescent w'.
Proof. unfold same_store, quiescent. intros (-> & -> & _) H. exact H. Qed.

Lemma process_profiles_present (pvs : list profile_view) (w : world) :
  quiescent w →
  Forall (present (committed w)) (keys_read pvs) →
  same_store w (exec (process_profiles pvs) w).
Proof.
  unfold exec. revert w. induction pvs as [|pv pvs IH]; intros w Hq Hall.
  - apply same_store_refl.
  - cbn [process_profiles keys_read] in *.
    unfold process_profile. cbv beta iota delta [bind lift].
    destruct (PLATFORM_NUMBER pv) as [p|e]; [|apply same_store_refl].
    destruct (CYCLE_NUMBER pv) as [c|e]; [|apply same_store_refl].
    apply Forall_cons in Hall as [Hk Hall]. unfold present in Hk. cbn in Hk.
    destruct (profile_exists_spec p c w) as [Hsame Hr].
    destruct (_profile_exists p c w) as [r w1]. cbn [fst snd] in *.
    destruct Hr as [->| ->]; [exact Hsame|].
    rewrite Hq, Hk. unfold logging, modify.
    assert (Hsame' : same_store w (add_log (DebugSkipExisting p c) w1)).
    { destruct Hsame as (?&?&?&?). unfold same_store. cbn. auto. }
    eapply same_store_trans; [exact Hsame'|].
    apply IH.
    + eapply same_store_quiescent; eassumption.
    + destruct Hsame' as (-> & _). exact Hall.
Qed.

Lemma main_loop_present (fs : list nc_file) (w : world) :
  quiescent w → all_present fs (committed w) →
  same_store w (exec (main_loop fs) w).
Proof.
  unfold exec. revert w. induction fs as [|f fs IH]; intros w Hq Hall.
  - apply same_store_refl.
  - apply Forall_cons in Hall as [Hf Hall].
    cbn [main_loop]. cbv beta iota delta [bind].
    assert (Hsame : same_store w (process_file f w).2).
    { rewrite process_file_unfold. unfold file_body.
      cbv beta iota delta [bind lift].
      destruct (dataset f) as [pvs|e].
      - pose proof (process_profiles_present pvs w Hq (Hf pvs eq_refl)) as Hs.
        unfold exec in Hs.
        destruct (process_profiles pvs w) as [[[]|e] w1]; cbn in *; [exact Hs|].
        destruct Hs as (?&?&?&?). unfold same_store. cbn. auto.
      - unfold same_store. cbn. auto. }
    pose proof (process_file_ok f w) as Hok.
    destruct (process_file f w) as [r w1]. cbn [fst snd] in *. subst r.
    eapply same_store_trans; [exact Hsame|]. apply IH.
    + eapply same_store_quiescent; eassumption.
    + destruct Hsame as (-> & _). exact Hall.
Qed.

Lemma round_trip_no_fault (w : world) :
  faults w = [] → round_trip w = (Ok tt, w).
Proof. unfold round_trip. intros ->. reflexivity. Qed.

Lemma execute_pages_faults_nil (pages : list (list measurement)) (w : world) :
  faults w = [] → faults (execute_pages pages w).2 = [].
Proof.
  revert w. induction pages as [|page pages IH]; intros w Hf; [exact Hf|].
  cbn [execute_pages]. unfold execute_insert_page. unfold_monad.
  rewrite round_trip_no_fault by exact Hf. apply IH. exact Hf.
Qed.

Lemma bulk_insert_faults_nil (ms : list measurement) (w : world) :
  faults w = [] → faults (_bulk_insert_measurements ms w).2 = [].
Proof.
  intros Hf. unfold _bulk_insert_measurements, execute_values.
  cbv beta iota delta [bind try_except].
  pose proof (execute_pages_faults_nil (paginate (length ms) ms) w Hf) as H1.
  destruct (execute_pages (paginate (length ms) ms) w) as [[[]|e] w1];
    cbn [snd] in H1; unfold_monad.
  - rewrite round_trip_no_fault by exact H1. exact H1.
  - rewrite round_trip_no_fault by exact H1. exact H1.
Qed.

Lemma bulk_insert_no_fault (ms : list measurement) (w : world) :
  faults w = [] → (_bulk_insert_measurements ms w).1 = Ok tt.
Proof.
  intros Hf. unfold _bulk_insert_measurements, execute_values.
  cbv beta iota delta [bind try_except].
  pose proof (execute_pages_faults_nil (paginate (length ms) ms) w Hf) as H1.
  pose proof (execute_pages_ok_iff (paginate (length ms) ms) w) as Hiff.
  destruct (execute_pages (paginate (length ms) ms) w) as [[[]|e] w1];
    cbn [fst snd] in *; unfold_monad.
  - by rewrite round_trip_no_fault by exact H1.
  - assert (Hno : fails_within (length (paginate (length ms) ms)) w = false)
      by (unfold fails_within; by rewrite Hf, take_nil).
    apply Hiff in Hno. discriminate Hno.
Qed.

Lemma insert_profile_metadata_no_fault
    (p c : Z) (d : datetime) (la lo : float) (w : world) :
  quiescent w → faults w = [] →
  existsb (has_key p c) (argo_profiles (committed w)) = false →
  ∃ w', _insert_profile_metadata p c d la lo w
        = (Ok (Some (next_profile_id w)), w') ∧
  quiescent w' ∧ faults w' = [] ∧
  committed w'
  = with_profile (new_row (next_profile_id w) p c d la lo) [] (committed w).
Proof.
  unfold quiescent. intros Hq Hf Hfresh.
  unfold _insert_profile_metadata, execute_insert_profile. unfold_monad.
  rewrite round_trip_no_fault by exact Hf. cbn.
  rewrite Hq, Hfresh, andb_false_r. cbn.
  rewrite round_trip_no_fault by exact Hf. cbn.
  eexists. split; [reflexivity|]. cbn. repeat split; auto.
  unfold with_profile, new_row. by rewrite app_nil_r, Hq.
Qed.

Lemma present_extends (t t' : tables) (k : Z * Z) :
  extends t t' → present t k → present t' k.
Proof.
  unfold present. intros [[rows ->] _] H. by rewrite existsb_app, H.
Qed.

Lemma extends_trans (t1 t2 t3 : tables) :
  extends t1 t2 → extends t2 t3 → extends t1 t3.
Proof. intros [] []. split; etrans; eassumption. Qed.

Lemma present_new_row (t : tables) (id p c : Z) (d : datetime) (la lo : float)
    (ms : list measurement) :
  present (with_profile (new_row id p c d la lo) ms t) (p, c).
Proof.
  unfold present. cbn. rewrite existsb_app. cbn. unfold has_key. cbn.
  by rewrite !Z.eqb_refl, orb_true_r.
Qed.

Lemma process_profile_clean (pv : profile_view) (p c : Z) (w : world) :
  quiescent w → faults w = [] →
  PLATFORM_NUMBER pv = Ok p → CYCLE_NUMBER pv = Ok c →
  clean_profile pv = true →
  ∃ w', process_profile pv w = (Ok tt, w') ∧
  quiescent w' ∧ faults w' = [] ∧
  extends (committed w) (committed w') ∧ present (committed w') (p, c).
Proof.
  intros Hq Hf Hp Hc Hclean. unfold process_profile, _profile_exists.
  unfold_monad. rewrite Hp, Hc, round_trip_no_fault by exact Hf. cbn.
  destruct (existsb (has_key p c) (argo_profiles (session w))) eqn:Hex.
  - eexists. split; [reflexivity|]. cbn. repeat split; auto.
    unfold present. cbn. by rewrite <- Hq.
  - unfold ingest_profile. cbv beta iota delta [bind lift].
    unfold clean_profile in Hclean.
    destruct (JULD pv) as [jd|e]; [|discriminate].
    destruct (profile_date_of jd) as [d|e]; [|discriminate].
    destruct (LATITUDE pv) as [la|e]; [|discriminate].
    destruct (LONGITUDE pv) as [lo|e]; [|discriminate].
    rewrite Hq in Hex.
    destruct (insert_profile_metadata_no_fault p c d la lo w Hq Hf Hex)
      as (w1 & -> & Hq1 & Hf1 & Hc1).
    assert (He1 : extends (committed w) (committed w1)).
    { rewrite Hc1. split; cbn; apply prefix_app_r; reflexivity. }
    assert (Hk1 : present (committed w1) (p, c))
      by (rewrite Hc1; apply present_new_row).
    cbn [truthy]. destruct (negb (negb _)); [exists w1; by auto|].
    + destruct (extract_measurements_spec pv (next_profile_id w) w1)
        as (ms & w2 & -> & Hsame & Hf2 & _).
      assert (Hq2 : quiescent w2) by (eapply same_store_quiescent; eassumption).
      destruct Hsame as (Hc2 & _).
      destruct ms as [|m ms].
      * exists w2. split; [reflexivity|]. split; [exact Hq2|].
        split; [congruence|]. rewrite Hc2. auto.
      * pose proof (bulk_insert_faults_nil (m :: ms) w2) as Hf3.
        pose proof (bulk_insert_no_fault (m :: ms) w2) as Hr3.
        destruct (bulk_insert_measurements_spec (m :: ms) w2 Hq2)
          as (r3 & w3 & E3 & Hq3 & _ & _ & Hp3 & Hm3).
        rewrite E3 in *. cbn [fst snd] in Hf3, Hr3.
        rewrite Hr3 by congruence.
        assert (He3 : extends (committed w1) (committed w3)).
        { rewrite <- Hc2. split.
          - rewrite Hp3. reflexivity.
          - destruct Hm3 as [[_ ->]|[-> _]]; [apply prefix_app_r|]; reflexivity. }
        exists w3. split; [reflexivity|]. split; [exact Hq3|].
        split; [apply Hf3; congruence|]. split.
        -- eapply extends_trans; eassumption.
        -- eapply present_extends; eassumption.
Qed.

Lemma process_profiles_clean (pvs : list profile_view) (w : world) :
  quiescent w → faults w = [] →
  forallb clean_profile pvs = true →
  ∃ r w', process_profiles pvs w = (r, w') ∧
  quiescent w' ∧ faults w' = [] ∧
  extends (committed w) (committed w') ∧
  Forall (present (committed w')) (keys_read pvs).
Proof.
  revert w. induction pvs as [|pv pvs IH]; intros w Hq Hf Hclean.
  - exists (Ok tt), w. repeat split; auto; reflexivity.
  - cbn [forallb] in Hclean. apply andb_true_iff in Hclean as [Hpv Hrest].
    cbn [process_profiles keys_read]. cbv beta iota delta [bind].
    assert (Hstop : ∀ e, process_profile pv w = (Raise e, w) →
      ∃ (r : result unit) w', (let (r0, w'0) := process_profile pv w in
         match r0 with
         | Ok _ => process_profiles pvs w'0
         | Raise e0 => (Raise e0, w'0)
         end) = (r, w') ∧ quiescent w' ∧ faults w' = [] ∧
        extends (committed w) (committed w') ∧
        Forall (present (committed w')) []).
    { intros e ->. exists (Raise e), w. repeat split; auto; reflexivity. }
    destruct (PLATFORM_NUMBER pv) as [p|e] eqn:Hp.
    2: { apply (Hstop e). unfold process_profile.
         cbv beta iota delta [bind lift]. by rewrite Hp. }
    destruct (CYCLE_NUMBER pv) as [c|e] eqn:Hc.
    2: { apply (Hstop e). unfold process_profile.
         cbv beta iota delta [bind lift]. by rewrite Hp, Hc. }
    destruct (process_profile_clean pv p c w Hq Hf Hp Hc Hpv)
      as (w1 & -> & Hq1 & Hf1 & He1 & Hk1).
    destruct (IH w1 Hq1 Hf1 Hrest) as (r & w2 & -> & Hq2 & Hf2 & He2 & Hk2).
    exists r, w2. split; [reflexivity|]. split; [exact Hq2|].
    split; [exact Hf2|]. split; [eapply extends_trans; eassumption|].
    constructor; [eapply present_extends; eassumption|exact Hk2].
Qed.

Lemma all_present_extends (fs : list nc_file) (t t' : tables) :
  extends t t' → all_present fs t → all_present fs t'.
Proof.
  intros He Hall. unfold all_present in *.
  eapply Forall_impl; [exact Hall|]. cbn. intros f Hf pvs Hds.
  eapply Forall_impl; [exact (Hf pvs Hds)|].
  intros k. by apply present_extends.
Qed.

Lemma main_loop_clean (fs done : list nc_file) (w : world) :
  quiescent w → faults w = [] →
  Forall (λ f, clean_file f = true) fs →
  all_present done (committed w) →
  let w' := exec (main_loop fs) w in
  quiescent w' ∧ all_present (done ++ fs) (committed w').
Proof.
  unfold exec. revert done w.
  induction fs as [|f fs IH]; intros done w Hq Hf Hclean Hdone.
  - cbn. by rewrite app_nil_r.
  - apply Forall_cons in Hclean as [Hcf Hclean].
    cbn [main_loop]. cbv beta iota delta [bind].
    assert (Hfile : ∃ w1, process_file f w = (Ok tt, w1) ∧ quiescent w1 ∧
      faults w1 = [] ∧ extends (committed w) (committed w1) ∧
      all_present [f] (committed w1)).
    { rewrite process_file_unfold. unfold file_body.
      cbv beta iota delta [bind lift]. unfold clean_file in Hcf.
      destruct (dataset f) as [pvs|e] eqn:Hds.
      - destruct (process_profiles_clean pvs w Hq Hf Hcf)
          as (r & w1 & -> & Hq1 & Hf1 & He1 & Hk1).
        assert (Hall : ∀ w1', committed w1' = committed w1 →
                              all_present [f] (committed w1')).
        { intros w1' ->. constructor; [|constructor].
          intros pvs' Hds'. rewrite Hds in Hds'. by injection Hds' as <-. }
        destruct r as [[]|e]; eexists; (split; [reflexivity|]); cbn; auto.
      - eexists. split; [reflexivity|]. cbn.
        repeat split; auto; try reflexivity.
        constructor; [|constructor]. intros pvs' Hds'. congruence. }
    destruct Hfile as (w1 & -> & Hq1 & Hf1 & He1 & Hk1).
    replace (done ++ f :: fs) with ((done ++ [f]) ++ fs)
      by (by rewrite <- app_assoc).
    apply IH; auto. apply Forall_app. split; [|exact Hk1].
    eapply all_present_extends; eassumption.
Qed.

(** C3, as stated, fails.  With the two overlapping files and no database
    failure at all, the first run stores one profile and no measurement
    (the first file is abandoned at its first profile), and the second run
    over the same files stores a second profile and its five measurements.
    With a failure of the INSERT of the only profile in the first run, the
    second run stores what the first could not. *)
Lemma rerun_changes_counts :
  (let once := exec (main_loop overlapping_files) fresh_world in
   let twice := exec (main_loop overlapping_files) once in
   row_counts once = (1%nat, 0%nat) ∧ row_counts twice = (2%nat, 5%nat) ∧
   row_counts twice ≠ row_counts once) ∧
  (let once := exec (main_loop [sample_file]) (scheduled_world [false; true]) in
   let twice := exec (main_loop [sample_file]) once in
   row_counts once = (0%nat, 0%nat) ∧ row_counts twice = (1%nat, 5%nat) ∧
   row_counts twice ≠ row_counts once).
Proof.
  split; cbv zeta; (split; [vm_compute; reflexivity|]);
    (split; [vm_compute; reflexivity|]); vm_compute; discriminate.
Qed.

(** C3, amended.  From a connection with no pending statement, when no
    round trip to the database fails during the first run and no profile
    of a file that opens raises on its Julian day, date conversion,
    latitude or longitude, a second run over the same files leaves the two
    tables as the first run left them, whatever fails during the second
    run; and in any run a profile's processing either leaves the tables
    alone or adds one profile row whose key was absent, with measurement
    rows that all carry the id of that row. *)
Theorem rerun_after_clean_run
    (fs : list nc_file) (w : world) (again : list bool)
    (Hq : quiescent w)
    (Hf : faults w = [])
    (Hclean : Forall (λ f, clean_file f = true) fs) :
  let once := exec (main_loop fs) w in
  let twice := exec (main_loop fs) (set_faults again once) in
  committed twice = committed once ∧
  row_counts twice = row_counts once ∧
  ∀ (pv : profile_view) (w0 : world), quiescent w0 →
    let t := committed w0 in
    let t' := committed (exec (process_profile pv) w0) in
    t' = t ∨
    ∃ row ms, (key_of row ∉ key_of <$> argo_profiles t) ∧
              Forall (λ m, m_profile_id m = profile_id row) ms ∧
              t' = with_profile row ms t.
Proof.
  cbv zeta.
  destruct (main_loop_clean fs [] w Hq Hf Hclean) as [Hq1 Hall];
    [constructor|]. cbn [app] in Hall.
  assert (Hsame : committed (exec (main_loop fs)
                    (set_faults again (exec (main_loop fs) w)))
                  = committed (exec (main_loop fs) w)).
  { apply (main_loop_present fs (set_faults again (exec (main_loop fs) w)));
      [exact Hq1|exact Hall]. }
  split; [exact Hsame|]. split; [unfold row_counts; by rewrite Hsame|].
  intros pv w0 Hq0.
  destruct (process_profile_spec pv w0 Hq0) as (r & w1 & E & _ & _ & Ho & _).
  unfold exec. rewrite E. cbn [snd].
  destruct Ho as [->|row ms _ _ Hfresh Hms ->]; [by left|].
  right. exists row, ms. split; [|split; [|reflexivity]].
  - apply existsb_has_key_false, Hfresh.
  - destruct Hms as [->|[_ Hms]]; [constructor|].
    eapply extract_rows_profile_id, Hms.
Qed.

Lemma rerun_after_clean_run_witness :
  let once := exec (main_loop [sample_file; unreadable_file; sample_file])
                fresh_world in
  let twice := exec (main_loop [sample_file; unreadable_file; sample_file])
                 (set_faults [false; true; true] once) in
  committed twice = committed once ∧
  row_counts twice = row_counts once ∧
  ∀ (pv : profile_view) (w0 : world), quiescent w0 →
    let t := committed w0 in
    let t' := committed (exec (process_profile pv) w0) in
    t' = t ∨
    ∃ row ms, (key_of row ∉ key_of <$> argo_profiles t) ∧
              Forall (λ m, m_profile_id m = profile_id row) ms ∧
              t' = with_profile row ms t.
Proof.
  apply (rerun_after_clean_run [sample_file; unreadable_file; sample_file]
           fresh_world [false; true; true]).
  - reflexivity.
  - reflexivity.
  - repeat constructor.
Defined.

(** ** Calendar arithmetic *)

(** Linear arithmetic with divisions by constants. *)
Ltac div_lia := Z.div_mod_to_equations; lia.

Lemma is_leap_spec (y : Z) :
  is_leap y = true ↔ y mod 4 = 0 ∧ (y mod 100 ≠ 0 ∨ y mod 400 = 0).
Proof.
  unfold is_leap.
  rewrite andb_true_iff, orb_true_iff, negb_true_iff, !Z.eqb_eq, Z.eqb_neq.
  tauto.
Qed.

Lemma month_tables (m : Z) (leap : bool) :
  2 <= m <= 12 →
  table DAYS_BEFORE_MONTH m + (if (2 <? m) && leap then 1 else 0)
  - (table DAYS_IN_MONTH (m - 1) + (if (m - 1 =? 2) && leap then 1 else 0))
  = table DAYS_BEFORE_MONTH (m - 1) + (if (2 <? m - 1) && leap then 1 else 0).
Proof.
  intros Hm.
  assert (Hcases : m = 2 ∨ m = 3 ∨ m = 4 ∨ m = 5 ∨ m = 6 ∨ m = 7 ∨ m = 8
                   ∨ m = 9 ∨ m = 10 ∨ m = 11 ∨ m = 12) by lia.
  destruct leap;
    repeat (destruct Hcases as [->|Hcases]; [reflexivity|]);
    subst m; reflexivity.
Qed.

Lemma ymd2ord_ord2ymd (n : Z) :
  1 <= n →
  ymd2ord (ord2ymd n).1.1 (ord2ymd n).1.2 (ord2ymd n).2 = n.
Proof.
  intros Hn. unfold ord2ymd, DI400Y, DI100Y, DI4Y.
  set (n0 := n - 1).
  set (n400 := n0 / 146097). set (r400 := n0 mod 146097).
  set (n100 := r400 / 36524). set (r100 := r400 mod 36524).
  set (n4 := r100 / 1461). set (r4 := r100 mod 1461).
  set (n1 := r4 / 365). set (r1 := r4 mod 365).
  assert (H400 : n0 = 146097 * n400 + r400 ∧ 0 <= r400 < 146097)
    by (subst n400 r400; div_lia).
  assert (H100 : r400 = 36524 * n100 + r100 ∧ 0 <= r100 < 36524)
    by (subst n100 r100; div_lia).
  assert (H4 : r100 = 1461 * n4 + r4 ∧ 0 <= r4 < 1461)
    by (subst n4 r4; div_lia).
  assert (H1 : r4 = 365 * n1 + r1 ∧ 0 <= r1 < 365)
    by (subst n1 r1; div_lia).
  assert (Hn0 : n = n0 + 1) by (subst n0; lia).
  clearbody n0 n400 r400 n100 r100 n4 r4 n1 r1.
  assert (Hb : 0 <= n100 <= 4 ∧ 0 <= n4 <= 24 ∧ 0 <= n1 <= 4) by lia.
  destruct ((n1 =? 4) || (n100 =? 4)) eqn:Hlast.
  - cbn [fst snd]. unfold ymd2ord, days_before_month, days_before_year.
    assert (Hcase : (n1 = 4 ∧ r1 = 0 ∧ n4 <= 23 ∧ n100 <= 3) ∨
                    (n100 = 4 ∧ r100 = 0 ∧ n4 = 0 ∧ r4 = 0 ∧ n1 = 0 ∧ r1 = 0)).
    { apply orb_true_iff in Hlast as [?%Z.eqb_eq|?%Z.eqb_eq]; lia. }
    clear Hlast.
    assert (Hleap : is_leap (n400 * 400 + 1 + n100 * 100 + n4 * 4 + n1 - 1)
                    = true).
    { apply is_leap_spec.
      destruct Hcase as [(-> & _ & ? & ?)|(-> & _ & -> & _ & -> & _)];
        div_lia. }
    rewrite Hleap. change (table DAYS_BEFORE_MONTH 12) with 334. cbn.
    destruct Hcase as [(-> & -> & ? & ?)|(-> & -> & -> & -> & -> & ->)];
      div_lia.
  - apply orb_false_iff in Hlast as [Hn1%Z.eqb_neq Hn100%Z.eqb_neq].
    set (leapyear := (n1 =? 3) && (negb (n4 =? 24) || (n100 =? 3))).
    set (y := n400 * 400 + 1 + n100 * 100 + n4 * 4 + n1).
    assert (Hleap : is_leap y = leapyear).
    { subst leapyear y. apply eq_true_iff_eq.
      rewrite is_leap_spec, andb_true_iff, orb_true_iff, negb_true_iff,
        !Z.eqb_eq, Z.eqb_neq. div_lia. }
    assert (Hdby : days_before_year y = n0 - r1)
      by (subst y; unfold days_before_year; div_lia).
    rewrite Z.shiftr_div_pow2 by lia. change (2 ^ 5) with 32.
    set (m := (r1 + 50) / 32).
    assert (Hm : 1 <= m <= 12) by (subst m; div_lia).
    destruct (r1 <? table DAYS_BEFORE_MONTH m
                    + (if (2 <? m) && leapyear then 1 else 0)) eqn:Hadj;
      cbn [fst snd]; unfold ymd2ord, days_before_month; rewrite Hleap, Hdby.
    + assert (Hm2 : 2 <= m <= 12).
      { destruct (Z.eq_dec m 1) as [Em|]; [|lia].
        rewrite Em in Hadj. change (table DAYS_BEFORE_MONTH 1) with 0 in Hadj.
        cbn in Hadj. apply Z.ltb_lt in Hadj. lia. }
      rewrite (month_tables m leapyear Hm2). lia.
    + lia.
Qed.

Lemma datetime_us_of_us (us : Z) :
  1 <= us / 1000000 / 86400 →
  datetime_us (datetime_of_us us) = us.
Proof.
  intros Hord. unfold datetime_of_us.
  pose proof (ymd2ord_ord2ymd _ Hord) as Hrt.
  destruct (ord2ymd (us / 1000000 / 86400)) as [[y m] d]. cbn in Hrt.
  unfold datetime_us. cbn. rewrite Hrt. div_lia.
Qed.

(** ** Valid dates *)

Lemma month_cases (m : Z) :
  1 <= m <= 12 →
  m = 1 ∨ m = 2 ∨ m = 3 ∨ m = 4 ∨ m = 5 ∨ m = 6 ∨ m = 7 ∨ m = 8
  ∨ m = 9 ∨ m = 10 ∨ m = 11 ∨ m = 12.
Proof. lia. Qed.

Lemma ord2ymd_valid (n : Z) :
  1 <= n <= MAXORDINAL →
  valid_date (ord2ymd n).1.1 (ord2ymd n).1.2 (ord2ymd n).2.
Proof.
  unfold MAXORDINAL. intros Hn. unfold ord2ymd, DI400Y, DI100Y, DI4Y.
  set (n0 := n - 1).
  set (n400 := n0 / 146097). set (r400 := n0 mod 146097).
  set (n100 := r400 / 36524). set (r100 := r400 mod 36524).
  set (n4 := r100 / 1461). set (r4 := r100 mod 1461).
  set (n1 := r4 / 365). set (r1 := r4 mod 365).
  assert (H400 : n0 = 146097 * n400 + r400 ∧ 0 <= r400 < 146097)
    by (subst n400 r400; div_lia).
  assert (H100 : r400 = 36524 * n100 + r100 ∧ 0 <= r100 < 36524)
    by (subst n100 r100; div_lia).
  assert (H4 : r100 = 1461 * n4 + r4 ∧ 0 <= r4 < 1461)
    by (subst n4 r4; div_lia).
  assert (H1 : r4 = 365 * n1 + r1 ∧ 0 <= r1 < 365)
    by (subst n1 r1; div_lia).
  assert (Hn0 : 0 <= n0 <= 3652058) by (subst n0; lia).
  clearbody n0 n400 r400 n100 r100 n4 r4 n1 r1.
  assert (Hb : 0 <= n400 <= 24 ∧ 0 <= n100 <= 4 ∧ 0 <= n4 <= 24 ∧ 0 <= n1 <= 4)
    by lia.
  unfold valid_date, days_in_month.
  destruct ((n1 =? 4) || (n100 =? 4)) eqn:Hlast.
  - cbn [fst snd].
    assert (Hcase : (n1 = 4 ∧ r1 = 0 ∧ n4 <= 23 ∧ n100 <= 3) ∨
                    (n100 = 4 ∧ r100 = 0 ∧ n4 = 0 ∧ r4 = 0 ∧ n1 = 0 ∧ r1 = 0)).
    { apply orb_true_iff in Hlast as [?%Z.eqb_eq|?%Z.eqb_eq]; lia. }
    change (table DAYS_IN_MONTH 12) with 31. cbn. lia.
  - apply orb_false_iff in Hlast as [Hn1%Z.eqb_neq Hn100%Z.eqb_neq].
    set (leapyear := (n1 =? 3) && (negb (n4 =? 24) || (n100 =? 3))).
    assert (Hleap : is_leap (n400 * 400 + 1 + n100 * 100 + n4 * 4 + n1)
                    = leapyear).
    { subst leapyear. apply eq_true_iff_eq.
      rewrite is_leap_spec, andb_true_iff, orb_true_iff, negb_true_iff,
        !Z.eqb_eq, Z.eqb_neq. div_lia. }
    assert (Hy : 1 <= n400 * 400 + 1 + n100 * 100 + n4 * 4 + n1 <= 9999) by lia.
    rewrite Z.shiftr_div_pow2 by lia. change (2 ^ 5) with 32.
    set (m := (r1 + 50) / 32).
    assert (Hm : 1 <= m <= 12) by (subst m; div_lia).
    assert (Hr1 : 32 * m - 50 <= r1 < 32 * m - 18) by (subst m; div_lia).
    clearbody m leapyear.
    pose proof (month_cases m Hm) as Hc.
    destruct leapyear;
      repeat (destruct Hc as [->|Hc]; [|]); subst;
      match goal with |- context [r1 <? ?x] =>
        let v := eval vm_compute in x in change x with v
      end;
      match goal with |- context [r1 <? ?x] =>
        destruct (Z.ltb_spec r1 x)
      end; cbn [fst snd]; rewrite Hleap;
      repeat match goal with |- context [table ?t ?i] =>
        let v := eval vm_compute in (table t i) in change (table t i) with v
      end;
      repeat match goal with |- context [if ?b then _ else _] =>
        let v := eval vm_compute in b in change b with v; cbv iota
      end; lia.
Qed.

Lemma datetime_of_us_valid (us : Z) :
  in_range us = true → valid_datetime (datetime_of_us us).
Proof.
  unfold in_range. intros Hin. apply andb_true_iff in Hin as [Hlo Hhi].
  apply Z.ltb_lt in Hlo. apply Z.leb_le in Hhi.
  pose proof (ord2ymd_valid (us / 1000000 / 86400)) as Hd.
  unfold datetime_of_us, valid_datetime.
  destruct (ord2ymd (us / 1000000 / 86400)) as [[y m] d]. cbn in *.
  split; [apply Hd; lia|]. div_lia.
Qed.

Lemma days_before_year_S (y : Z) :
  days_before_year (y + 1)
  = days_before_year y + 365 + (if is_leap y then 1 else 0).
Proof.
  destruct (is_leap y) eqn:E.
  - apply is_leap_spec in E. unfold days_before_year. div_lia.
  - assert (H : ¬ (y mod 4 = 0 ∧ (y mod 100 ≠ 0 ∨ y mod 400 = 0))).
    { intros H. apply is_leap_spec in H. congruence. }
    unfold days_before_year. div_lia.
Qed.

Lemma days_before_year_mono (y y' : Z) :
  y <= y' → days_before_year y <= days_before_year y'.
Proof.
  intros H. unfold days_before_year.
  destruct (Z.eq_dec y y') as [->|Hne]; [lia|]. div_lia.
Qed.

Lemma day_of_year_bounds (y m d : Z) (leap : bool) :
  1 <= m <= 12 →
  1 <= d <= (if (m =? 2) && leap then 29 else table DAYS_IN_MONTH m) →
  1 <= table DAYS_BEFORE_MONTH m + (if (2 <? m) && leap then 1 else 0) + d
    <= 365 + (if leap then 1 else 0).
Proof.
  intros Hm. pose proof (month_cases m Hm) as Hc.
  destruct leap; repeat (destruct Hc as [->|Hc]; [|]); subst;
    repeat match goal with |- context [table ?t ?i] =>
      let v := eval vm_compute in (table t i) in change (table t i) with v
    end;
    repeat match goal with |- context [if ?b then _ else _] =>
      let v := eval vm_compute in b in change b with v; cbv iota
    end; lia.
Qed.

Lemma month_day_inj (leap : bool) (m d m' d' : Z) :
  1 <= m <= 12 → 1 <= m' <= 12 →
  1 <= d <= (if (m =? 2) && leap then 29 else table DAYS_IN_MONTH m) →
  1 <= d' <= (if (m' =? 2) && leap then 29 else table DAYS_IN_MONTH m') →
  table DAYS_BEFORE_MONTH m + (if (2 <? m) && leap then 1 else 0) + d
  = table DAYS_BEFORE_MONTH m' + (if (2 <? m') && leap then 1 else 0) + d' →
  m = m' ∧ d = d'.
Proof.
  intros Hm Hm'. pose proof (month_cases m Hm) as Hc.
  pose proof (month_cases m' Hm') as Hc'.
  destruct leap; repeat (destruct Hc as [->|Hc]; [|]); subst;
    repeat (destruct Hc' as [->|Hc']; [|]); subst;
    repeat match goal with |- context [table ?t ?i] =>
      let v := eval vm_compute in (table t i) in change (table t i) with v
    end;
    repeat match goal with |- context [if ?b then _ else _] =>
      let v := eval vm_compute in b in change b with v; cbv iota
    end; lia.
Qed.

Lemma ymd2ord_inj (y m d y' m' d' : Z) :
  valid_date y m d → valid_date y' m' d' →
  ymd2ord y m d = ymd2ord y' m' d' → y = y' ∧ m = m' ∧ d = d'.
Proof.
  unfold valid_date, days_in_month, ymd2ord, days_before_month.
  intros (Hy & Hm & Hd) (Hy' & Hm' & Hd') Heq.
  pose proof (day_of_year_bounds y m d (is_leap y) Hm Hd) as Hb.
  pose proof (day_of_year_bounds y' m' d' (is_leap y') Hm' Hd') as Hb'.
  pose proof (days_before_year_S y) as HS.
  pose proof (days_before_year_S y') as HS'.
  assert (Hyy : y = y').
  { destruct (Z.lt_trichotomy y y') as [Hlt|[Heq'|Hgt]]; [|exact Heq'|].
    - pose proof (days_before_year_mono (y + 1) y') as Hmono. lia.
    - pose proof (days_before_year_mono (y' + 1) y) as Hmono. lia. }
  subst y'. split; [reflexivity|].
  apply (month_day_inj (is_leap y)); auto. lia.
Qed.

Lemma datetime_us_inj (t t' : datetime) :
  valid_datetime t → valid_datetime t' →
  datetime_us t = datetime_us t' → t = t'.
Proof.
  intros (Hd & Ht) (Hd' & Ht') Heq. unfold datetime_us in Heq.
  assert (Hord : ymd2ord (year t) (month t) (day t)
                 = ymd2ord (year t') (month t') (day t')) by lia.
  destruct (ymd2ord_inj _ _ _ _ _ _ Hd Hd' Hord) as (Hy & Hm & Hdd).
  destruct t, t'; cbn in *. f_equal; lia.
Qed.

(** ** Rounding of the float product *)

Lemma digits2_pos_size (p : positive) : digits2_pos p = Pos.size p.
Proof. induction p as [p IH|p IH|]; cbn; by rewrite ?IH. Qed.

Lemma Zdigits2_bounds (m : Z) :
  0 < m → 2 ^ (Zdigits2 m - 1) <= m < 2 ^ Zdigits2 m.
Proof.
  intros Hm. destruct m as [|p|p]; try lia. cbn [Zdigits2].
  rewrite digits2_pos_size.
  assert (Hlog : Z.pos (Pos.size p) = Z.log2 (Z.pos p) + 1)
    by (destruct p; cbn; lia).
  rewrite Hlog. replace (Z.log2 (Z.pos p) + 1 - 1) with (Z.log2 (Z.pos p)) by lia.
  pose proof (Z.log2_spec (Z.pos p) Hm) as Hs.
  replace (Z.log2 (Z.pos p) + 1) with (Z.succ (Z.log2 (Z.pos p))) by lia.
  exact Hs.
Qed.

Lemma Zdigits2_nonneg (m : Z) : 0 <= Zdigits2 m.
Proof. destruct m; cbn; lia. Qed.

Lemma Zdigits2_le (m j : Z) : 0 <= m < 2 ^ j → 0 <= j → Zdigits2 m <= j.
Proof.
  intros [Hm Hlt] Hj. destruct (Z.eq_dec m 0) as [->|Hne]; [cbn; lia|].
  destruct (Zdigits2_bounds m) as [Hlo _]; [lia|].
  destruct (Z.le_gt_cases (Zdigits2 m) j) as [|Hgt]; [assumption|].
  assert (2 ^ j <= 2 ^ (Zdigits2 m - 1)) by (apply Z.pow_le_mono_r; lia).
  lia.
Qed.

Lemma shr_1_m (mrs : shr_record) :
  0 <= shr_m mrs → shr_m (shr_1 mrs) = shr_m mrs / 2.
Proof.
  destruct mrs as [m r s]. cbn [shr_m]. intros Hm.
  destruct m as [|[p|p|]|p]; cbn [shr_1 shr_m]; try lia.
  - reflexivity.
  - rewrite Pos2Z.inj_xI. div_lia.
  - rewrite Pos2Z.inj_xO. div_lia.
  - reflexivity.
Qed.

Lemma iter_shr_1_m (p : positive) (mrs : shr_record) :
  0 <= shr_m mrs →
  shr_m (SpecFloat.iter_pos shr_1 p mrs) = shr_m mrs / 2 ^ Z.pos p.
Proof.
  revert mrs. induction p as [p IH|p IH|]; intros mrs Hm; cbn [SpecFloat.iter_pos].
  - assert (H1 : 0 <= shr_m (shr_1 mrs))
      by (rewrite shr_1_m by exact Hm; apply Z.div_pos; lia).
    assert (H2 : 0 <= shr_m (SpecFloat.iter_pos shr_1 p (shr_1 mrs)))
      by (rewrite IH by exact H1; apply Z.div_pos; lia).
    rewrite IH, IH, shr_1_m by assumption.
    rewrite !Z.div_div by lia. f_equal.
    replace (Z.pos p~1) with (1 + Z.pos p + Z.pos p) by lia.
    rewrite !Z.pow_add_r by lia. change (2 ^ 1) with 2. ring.
  - assert (H1 : 0 <= shr_m (SpecFloat.iter_pos shr_1 p mrs))
      by (rewrite IH by exact Hm; apply Z.div_pos; lia).
    rewrite IH, IH by assumption.
    rewrite !Z.div_div by lia. f_equal.
    replace (Z.pos p~0) with (Z.pos p + Z.pos p) by lia.
    rewrite Z.pow_add_r by lia. ring.
  - rewrite shr_1_m by exact Hm. reflexivity.
Qed.

Lemma shr_record_of_loc_m (m : Z) (l : location) :
  shr_m (shr_record_of_loc m l) = m.
Proof. by destruct l as [|[]]. Qed.

Lemma shr_fexp_spec (m e : Z) (l : location) :
  0 <= m →
  let n := Z.max 0 (fexp prec emax (Zdigits2 m + e) - e) in
  shr_m (shr_fexp prec emax m e l).1 = m / 2 ^ n ∧
  (shr_fexp prec emax m e l).2 = e + n.
Proof.
  intros Hm. cbn zeta. unfold shr_fexp, shr.
  destruct (fexp prec emax (Zdigits2 m + e) - e) as [|p|p] eqn:En; cbn [fst snd].
  - rewrite shr_record_of_loc_m. change (Z.max 0 0) with 0.
    rewrite Z.div_1_r. split; lia.
  - rewrite iter_shr_1_m by (rewrite shr_record_of_loc_m; exact Hm).
    rewrite shr_record_of_loc_m.
    replace (Z.max 0 (Z.pos p)) with (Z.pos p) by lia. split; reflexivity.
  - rewrite shr_record_of_loc_m.
    replace (Z.max 0 (Z.neg p)) with 0 by lia.
    rewrite Z.div_1_r. split; lia.
Qed.

Lemma round_nearest_even_bounds (m : Z) (l : location) :
  m <= round_nearest_even m l <= m + 1.
Proof.
  destruct l as [|[]]; cbn; try lia. destruct (Z.even m); lia.
Qed.

Lemma binary_round_aux_spec (sx : bool) (mx ex : Z) :
  0 < mx →
  ∃ m3 e2,
    0 <= m3 ∧ ex <= e2 ∧
    e2 <= Z.max ex (Z.max (Zdigits2 mx + ex - 52) (-1074)) ∧
    Z.abs (m3 * 2 ^ (e2 - ex) - mx) <= 2 * 2 ^ (e2 - ex) ∧
    (e2 <= emax - prec →
     binary_round_aux prec emax sx mx ex loc_Exact = mk_float sx m3 e2).
Proof.
  intros Hmx.
  destruct (shr_fexp_spec mx ex loc_Exact) as [Hm1 He1]; [lia|].
  set (n1 := Z.max 0 (fexp prec emax (Zdigits2 mx + ex) - ex)) in *.
  unfold binary_round_aux.
  destruct (shr_fexp prec emax mx ex loc_Exact) as [mrs1 e1].
  cbn [fst snd] in Hm1, He1.
  set (m2 := round_nearest_even (shr_m mrs1) (loc_of_shr_record mrs1)).
  pose proof (round_nearest_even_bounds (shr_m mrs1) (loc_of_shr_record mrs1))
    as Hm2. fold m2 in Hm2.
  assert (Hpow1 : 0 < 2 ^ n1) by (apply Z.pow_pos_nonneg; lia).
  assert (Hm1' : 2 ^ n1 * shr_m mrs1 <= mx < 2 ^ n1 * shr_m mrs1 + 2 ^ n1).
  { rewrite Hm1. pose proof (Z.mul_div_le mx (2 ^ n1) Hpow1).
    pose proof (Z.mul_succ_div_gt mx (2 ^ n1) Hpow1). lia. }
  assert (Hm1nn : 0 <= shr_m mrs1) by (rewrite Hm1; apply Z.div_pos; lia).
  destruct (shr_fexp_spec m2 e1 loc_Exact) as [Hm3 He2]; [lia|].
  set (n2 := Z.max 0 (fexp prec emax (Zdigits2 m2 + e1) - e1)) in *.
  destruct (shr_fexp prec emax m2 e1 loc_Exact) as [mrs2 e2].
  cbn [fst snd] in Hm3, He2.
  assert (Hpow2 : 0 < 2 ^ n2) by (apply Z.pow_pos_nonneg; lia).
  assert (Hm3' : 2 ^ n2 * shr_m mrs2 <= m2 < 2 ^ n2 * shr_m mrs2 + 2 ^ n2).
  { rewrite Hm3. pose proof (Z.mul_div_le m2 (2 ^ n2) Hpow2).
    pose proof (Z.mul_succ_div_gt m2 (2 ^ n2) Hpow2). lia. }
  assert (Hm3nn : 0 <= shr_m mrs2) by (rewrite Hm3; apply Z.div_pos; lia).
  exists (shr_m mrs2), e2.
  assert (Hn : e2 - ex = n1 + n2) by lia.
  split; [exact Hm3nn|]. split; [lia|]. split; [|split].
  - (* the exponent *)
    pose proof (Zdigits2_bounds mx Hmx) as Hdg.
    pose proof (Zdigits2_nonneg mx) as Hdgnn.
    assert (Hd2 : Zdigits2 m2 + e1 <= Z.max (Zdigits2 mx + ex + 1) (-1073)).
    { destruct (Z.le_gt_cases n1 (Zdigits2 mx)) as [Hle|Hgt].
      - assert (Hlt : shr_m mrs1 < 2 ^ (Zdigits2 mx - n1)).
        { assert (E : 2 ^ Zdigits2 mx = 2 ^ (Zdigits2 mx - n1) * 2 ^ n1).
          { rewrite <- Z.pow_add_r by lia. f_equal. lia. }
          nia. }
        assert (Zdigits2 m2 <= Zdigits2 mx - n1 + 1).
        { apply Zdigits2_le; [|lia]. split; [lia|].
          rewrite Z.pow_add_r by lia. change (2 ^ 1) with 2. lia. }
        lia.
      - assert (Hz : shr_m mrs1 = 0).
        { rewrite Hm1. apply Z.div_small. split; [lia|].
          eapply Z.lt_le_trans; [apply Hdg|].
          apply Z.pow_le_mono_r; lia. }
        assert (Zdigits2 m2 <= 1)
          by (apply Zdigits2_le; [change (2 ^ 1) with 2|]; lia).
        subst n1. unfold fexp, SpecFloat.emin, prec, emax in *. lia. }
    subst n1 n2. unfold fexp, SpecFloat.emin, prec, emax in *. lia.
  - (* the error *)
    rewrite Hn, Z.pow_add_r by lia.
    apply Z.abs_le. split; nia.
  - (* the value *)
    intros Hle. apply Z.leb_le in Hle.
    destruct (shr_m mrs2) as [|p|p]; cbn [mk_float]; [reflexivity| |lia].
    by rewrite Hle.
Qed.

(** ** Rounding to the microsecond *)

Lemma round_away_bound (q : Q) :
  (Qabs (inject_Z (round_away q) - q) <= 1 # 2)%Q.
Proof.
  apply Qabs_Qle_condition. unfold round_away.
  destruct (Qle_bool 0 q).
  - pose proof (Qfloor_le (q + (1 # 2))) as H1.
    pose proof (Qlt_floor (q + (1 # 2))) as H2.
    rewrite inject_Z_plus in H2. change (inject_Z 1) with 1%Q in H2. lra.
  - pose proof (Qle_ceiling (q - (1 # 2))) as H1.
    pose proof (Qceiling_lt (q - (1 # 2))) as H2.
    unfold Z.sub in H2. rewrite inject_Z_plus in H2.
    change (inject_Z (- (1))) with (- (1))%Q in H2. lra.
Qed.

Lemma whole_us_bound (x : Z) (lo : Q) :
  (Qabs (inject_Z (whole_us x lo) - lo) <= 1 # 2)%Q.
Proof.
  unfold whole_us.
  destruct (Qeq_bool _ _) eqn:Htie; [|apply round_away_bound].
  apply Qeq_bool_iff in Htie.
  set (w := round_away lo) in *.
  set (o := if Z.odd x then 1 else 0).
  assert (Ho : o = 0 ∨ o = 1) by (subst o; destruct (Z.odd x); auto).
  pose proof (round_away_bound ((lo + inject_Z o) * (1 # 2))) as Hrv.
  set (rv := round_away ((lo + inject_Z o) * (1 # 2))) in *.
  apply Qabs_Qle_condition in Hrv.
  assert (Hh : (lo == inject_Z w - (1 # 2))%Q ∨ (lo == inject_Z w + (1 # 2))%Q).
  { revert Htie. apply Qabs_case; intros; [left|right]; lra. }
  apply Qabs_Qle_condition.
  destruct Hh as [Hlo|Hlo].
  - assert (H1 : (inject_Z (4 * rv) <= inject_Z (2 * w + 2 * o + 1))%Q).
    { rewrite !inject_Z_plus, !inject_Z_mult.
      change (inject_Z 4) with 4%Q. change (inject_Z 2) with 2%Q.
      change (inject_Z 1) with 1%Q. lra. }
    assert (H2 : (inject_Z (2 * w + 2 * o - 3) <= inject_Z (4 * rv))%Q).
    { unfold Z.sub. rewrite !inject_Z_plus, !inject_Z_mult.
      change (inject_Z 4) with 4%Q. change (inject_Z 2) with 2%Q.
      change (inject_Z (- (3))) with (- (3))%Q. lra. }
    rewrite <- Zle_Qle in H1, H2.
    assert (H3 : w + -1 <= 2 * rv + - o) by lia.
    assert (H4 : 2 * rv + - o <= w) by lia.
    rewrite Zle_Qle in H3, H4. unfold Z.sub.
    rewrite !inject_Z_plus in *. change (inject_Z (-1)) with (- (1))%Q in H3.
    lra.
  - assert (H1 : (inject_Z (4 * rv) <= inject_Z (2 * w + 2 * o + 3))%Q).
    { rewrite !inject_Z_plus, !inject_Z_mult.
      change (inject_Z 4) with 4%Q. change (inject_Z 2) with 2%Q.
      change (inject_Z 3) with 3%Q. lra. }
    assert (H2 : (inject_Z (2 * w + 2 * o - 1) <= inject_Z (4 * rv))%Q).
    { unfold Z.sub. rewrite !inject_Z_plus, !inject_Z_mult.
      change (inject_Z 4) with 4%Q. change (inject_Z 2) with 2%Q.
      change (inject_Z (- (1))) with (- (1))%Q. lra. }
    rewrite <- Zle_Qle in H1, H2.
    assert (H3 : w <= 2 * rv + - o) by lia.
    assert (H4 : 2 * rv + - o <= w + 1) by lia.
    rewrite Zle_Qle in H3, H4. unfold Z.sub.
    rewrite !inject_Z_plus in *. change (inject_Z 1) with 1%Q in H4.
    lra.
Qed.

(** ** The value of the converted day count *)

Lemma F2Q_mk_float (s : bool) (m e : Z) :
  0 <= m →
  (F2Q (mk_float s m e) == inject_Z (cond_Zopp s m) * 2 ^ e)%Q.
Proof.
  intros Hm. destruct m as [|p|p]; [|reflexivity|lia].
  cbn [mk_float F2Q]. destruct s; cbn [cond_Zopp];
    change (inject_Z (- 0)) with 0%Q; change (inject_Z 0) with 0%Q; ring.
Qed.

Lemma modf_mk_float (s : bool) (m e : Z) :
  0 <= m → e < 0 →
  modf (mk_float s m e)
  = (mk_float s (m mod 2 ^ (- e)) e, mk_float s (m / 2 ^ (- e)) 0).
Proof.
  intros Hm He. destruct m as [|p|p]; [ | | lia].
  - cbn [mk_float modf]. rewrite Z.mod_0_l, Z.div_0_l; [reflexivity| |];
      apply Z.pow_nonzero; lia.
  - cbn [mk_float modf]. destruct (0 <=? e) eqn:E; [lia|reflexivity].
Qed.

Lemma long_from_double_mk_float (s : bool) (m : Z) :
  0 <= m → long_from_double (mk_float s m 0) = Ok (cond_Zopp s m).
Proof.
  intros Hm. destruct m as [|p|p]; [ | | lia].
  - by destruct s.
  - cbn [mk_float long_from_double]. change (0 <=? 0) with true. cbn iota.
    f_equal. f_equal. change (2 ^ 0) with 1. lia.
Qed.

Lemma is_zero_mk_float (s : bool) (m e : Z) :
  0 <= m → is_zero (mk_float s m e) = (m =? 0).
Proof. intros Hm. destruct m as [|p|p]; [reflexivity|reflexivity|lia]. Qed.

Lemma Qpower_2_inv (k : Z) :
  0 <= k → (2 ^ (- k) == / inject_Z (2 ^ k))%Q.
Proof.
  intros Hk. rewrite Zpower_Qpower by exact Hk. change (inject_Z 2) with 2%Q.
  apply Qpower_opp.
Qed.

Lemma inject_pow2_nonzero (k : Z) : 0 <= k → ¬ (inject_Z (2 ^ k) == 0)%Q.
Proof.
  intros Hk H. unfold Qeq in H. cbn in H.
  assert (0 < 2 ^ k) by (apply Z.pow_pos_nonneg; lia). lia.
Qed.

Lemma inject_cond_Zopp (s : bool) (z : Z) :
  inject_Z (cond_Zopp s z) = if s then (- inject_Z z)%Q else inject_Z z.
Proof. destruct s; [|reflexivity]. cbn [cond_Zopp]. by destruct z. Qed.

Lemma combine_errors (u xu sum x' w p d l : Q) :
  (u == sum + x' + w → xu == sum + p → x' + l == d →
   Qabs (d - p) <= 1 # 16384 → Qabs (w - l) <= 1 # 2 →
   Qabs (u - xu) <= tolerance)%Q.
Proof.
  unfold tolerance. intros Hu Hxu Hd Hdp Hwl.
  apply Qabs_Qle_condition in Hdp, Hwl. apply Qabs_Qle_condition. lra.
Qed.

Lemma scaled_error (m3 mx ex e2 : Z) :
  ex <= e2 → e2 <= -15 →
  Z.abs (m3 * 2 ^ (e2 - ex) - mx) <= 2 * 2 ^ (e2 - ex) →
  (Qabs (inject_Z m3 * 2 ^ e2 - inject_Z mx * 2 ^ ex) <= 1 # 16384)%Q.
Proof.
  intros Hex He2 Hz.
  assert (Hsplit : (2 ^ e2 == inject_Z (2 ^ (e2 - ex)) * 2 ^ ex)%Q).
  { rewrite Zpower_Qpower by lia. change (inject_Z 2) with 2%Q.
    rewrite <- Qpower_plus by discriminate. by replace (e2 - ex + ex) with e2 by lia. }
  assert (Hpos : (0 < 2 ^ ex)%Q) by (apply Qpower_0_lt; reflexivity).
  assert (Heq : (inject_Z m3 * 2 ^ e2 - inject_Z mx * 2 ^ ex
                 == inject_Z (m3 * 2 ^ (e2 - ex) - mx) * 2 ^ ex)%Q).
  { rewrite Hsplit. unfold Z.sub at 2.
    rewrite inject_Z_plus, inject_Z_mult, inject_Z_opp. ring. }
  rewrite Heq, Qabs_Qmult, (Qabs_pos (2 ^ ex)) by lra.
  change (Qabs (inject_Z (m3 * 2 ^ (e2 - ex) - mx)))
    with (inject_Z (Z.abs (m3 * 2 ^ (e2 - ex) - mx))).
  rewrite Zle_Qle in Hz. rewrite inject_Z_mult in Hz.
  change (inject_Z 2) with 2%Q in Hz.
  assert (Hle : (2 ^ e2 <= 2 ^ (-15))%Q)
    by (apply Qpower_le_compat_l; [exact He2|discriminate]).
  change (2 ^ (-15))%Q with (1 # 32768)%Q in Hle.
  assert (Hstep : (inject_Z (Z.abs (m3 * 2 ^ (e2 - ex) - mx)) * 2 ^ ex
                   <= 2 * inject_Z (2 ^ (e2 - ex)) * 2 ^ ex)%Q)
    by (apply Qmult_le_compat_r; [exact Hz|lra]).
  rewrite <- Qmult_assoc, <- Hsplit in Hstep. lra.
Qed.

Lemma double_from_long_us_per_day :
  double_from_long us_per_day = S754_finite false us_per_day_mantissa (-16).
Proof. reflexivity. Qed.

Lemma us_per_day_scaled (e : Z) :
  (inject_Z (Z.pos us_per_day_mantissa) * 2 ^ (e - 16)
   == 2 ^ e * inject_Z us_per_day)%Q.
Proof.
  unfold Z.sub. rewrite Qpower_plus by discriminate.
  assert (H : (inject_Z (Z.pos us_per_day_mantissa) * 2 ^ (- (16))
               == inject_Z us_per_day)%Q) by reflexivity.
  rewrite <- H. ring.
Qed.

Lemma total_us_whole (s : bool) (m : positive) (e : Z) :
  0 <= e →
  ∃ us, total_us (S754_finite s m e) = Ok us ∧
        (inject_Z us == F2Q (S754_finite s m e) * inject_Z us_per_day)%Q.
Proof.
  intros He. exists (cond_Zopp s (Z.pos m * 2 ^ e) * us_per_day). split.
  - apply Z.leb_le in He. unfold total_us, accum. cbn [modf]. rewrite He.
    cbn [long_from_double]. rewrite He. reflexivity.
  - assert (Hp : (inject_Z (2 ^ e) == 2 ^ e)%Q)
      by (rewrite Zpower_Qpower by exact He; reflexivity).
    cbn [F2Q]. rewrite <- Hp.
    destruct s; cbn [cond_Zopp];
      rewrite ?inject_Z_mult, ?inject_Z_opp, ?inject_Z_mult; ring.
Qed.

Lemma total_us_fraction (s : bool) (m : positive) (e : Z) :
  e < 0 →
  ∃ us, total_us (S754_finite s m e) = Ok us ∧
        (Qabs (inject_Z us - F2Q (S754_finite s m e) * inject_Z us_per_day)
         <= tolerance)%Q.
Proof.
  intros He.
  set (k := - e). set (q := Z.pos m / 2 ^ k). set (r := Z.pos m mod 2 ^ k).
  assert (Hpk : 0 < 2 ^ k) by (apply Z.pow_pos_nonneg; lia).
  assert (Hq : 0 <= q) by (subst q; apply Z.div_pos; lia).
  assert (Hr : 0 <= r < 2 ^ k) by (subst r; apply Z.mod_pos_bound; lia).
  assert (Hm : Z.pos m = q * 2 ^ k + r)
    by (subst q r; rewrite Z.mul_comm; apply Z.div_mod; lia).
  assert (Hinv : (2 ^ e == / inject_Z (2 ^ k))%Q).
  { replace e with (- k) by lia. apply Qpower_2_inv. lia. }
  assert (Hnz : ¬ (inject_Z (2 ^ k) == 0)%Q) by (apply inject_pow2_nonzero; lia).
  assert (HXU : (F2Q (S754_finite s m e) * inject_Z us_per_day
                 == inject_Z (cond_Zopp s q * us_per_day)
                    + inject_Z (cond_Zopp s r) * 2 ^ e * inject_Z us_per_day)%Q).
  { cbn [F2Q]. rewrite inject_Z_mult, !inject_cond_Zopp, Hm.
    rewrite inject_Z_plus, inject_Z_mult, Hinv.
    destruct s; field; exact Hnz. }
  unfold total_us, accum. cbn [modf].
  destruct (0 <=? e) eqn:E; [lia|]. fold k q r.
  rewrite long_from_double_mk_float by exact Hq. cbn [result_bind].
  rewrite is_zero_mk_float by lia.
  destruct (r =? 0) eqn:Er.
  - (* no fractional day *)
    apply Z.eqb_eq in Er. eexists. split; [reflexivity|]. cbn [is_zero].
    rewrite HXU, Er. rewrite Z.add_0_l.
    replace (cond_Zopp s 0) with 0 by (by destruct s).
    unfold tolerance. apply Qabs_Qle_condition.
    change (inject_Z 0) with 0%Q. lra.
  - (* a fractional day: one float product *)
    apply Z.eqb_neq in Er.
    destruct r as [|r'|r'] eqn:Hr'; [lia| |lia]. cbn [mk_float].
    rewrite double_from_long_us_per_day. unfold fmul. cbn [SFmul xorb].
    destruct (binary_round_aux_spec s (Z.pos (us_per_day_mantissa * r'))
                (-16 + e))
      as (m3 & e2 & Hm3 & Hex & Hhi & Herr & Hval); [lia|].
    assert (Hdg : Zdigits2 (Z.pos (us_per_day_mantissa * r')) <= 53 + k).
    { apply Zdigits2_le; [|lia]. split; [lia|].
      rewrite Z.pow_add_r by lia. rewrite Pos2Z.inj_mul.
      assert (Z.pos us_per_day_mantissa < 2 ^ 53) by reflexivity. nia. }
    assert (He2 : e2 <= -15) by lia.
    rewrite Hval by (unfold emax, prec; lia).
    rewrite modf_mk_float by lia.
    set (k2 := - e2). set (q3 := m3 / 2 ^ k2). set (r3 := m3 mod 2 ^ k2).
    assert (Hpk2 : 0 < 2 ^ k2) by (apply Z.pow_pos_nonneg; lia).
    assert (Hq3 : 0 <= q3) by (subst q3; apply Z.div_pos; lia).
    assert (Hr3 : 0 <= r3 < 2 ^ k2) by (subst r3; apply Z.mod_pos_bound; lia).
    assert (Hm3' : m3 = q3 * 2 ^ k2 + r3)
      by (subst q3 r3; rewrite Z.mul_comm; apply Z.div_mod; lia).
    assert (Hinv2 : (2 ^ e2 == / inject_Z (2 ^ k2))%Q).
    { replace e2 with (- k2) by lia. apply Qpower_2_inv. lia. }
    assert (Hnz2 : ¬ (inject_Z (2 ^ k2) == 0)%Q)
      by (apply inject_pow2_nonzero; lia).
    rewrite long_from_double_mk_float by exact Hq3. cbn [result_bind].
    eexists. split; [reflexivity|].
    set (sum := 0 + cond_Zopp s q * us_per_day).
    set (x' := cond_Zopp s q3).
    set (lo := F2Q (mk_float s r3 e2)).
    set (w := if is_zero (mk_float s r3 e2) then 0
              else whole_us (sum + x') lo).
    assert (Hus : (if is_zero (mk_float s r3 e2) then sum + x'
                   else sum + x' + whole_us (sum + x') lo) = sum + x' + w)
      by (subst w; destruct (is_zero _); lia).
    rewrite Hus.
    assert (Hlo : (lo == inject_Z (cond_Zopp s r3) * 2 ^ e2)%Q)
      by (apply F2Q_mk_float; lia).
    eapply (combine_errors _ _ (inject_Z sum) (inject_Z x') (inject_Z w)
              (inject_Z (cond_Zopp s (Z.pos r')) * 2 ^ e * inject_Z us_per_day)
              (inject_Z (cond_Zopp s m3) * 2 ^ e2) lo).
    + rewrite !inject_Z_plus. reflexivity.
    + rewrite HXU. subst sum. rewrite Z.add_0_l. reflexivity.
    + rewrite Hlo. subst x'. rewrite !inject_cond_Zopp, Hm3'.
      rewrite inject_Z_plus, inject_Z_mult, Hinv2.
      destruct s; field; exact Hnz2.
    + pose proof (scaled_error m3 (Z.pos (us_per_day_mantissa * r'))
                    (-16 + e) e2 Hex He2 Herr) as Hq'.
      assert (Hp : (inject_Z (Z.pos (us_per_day_mantissa * r')) * 2 ^ (-16 + e)
                    == inject_Z (Z.pos r') * 2 ^ e * inject_Z us_per_day)%Q).
      { rewrite Pos2Z.inj_mul, inject_Z_mult.
        replace (-16 + e) with (e - 16) by lia.
        transitivity (inject_Z (Z.pos r') * (2 ^ e * inject_Z us_per_day))%Q;
          [|ring].
        rewrite <- us_per_day_scaled. ring. }
      rewrite Hp in Hq'. rewrite !inject_cond_Zopp. destruct s; [|exact Hq'].
      match goal with |- (Qabs ?a <= _)%Q =>
        assert (Heq : (a == - (inject_Z m3 * 2 ^ e2
                               - inject_Z (Z.pos r') * 2 ^ e
                                 * inject_Z us_per_day))%Q) by ring
      end.
      rewrite Heq, Qabs_opp. exact Hq'.
    + subst w. destruct (is_zero (mk_float s r3 e2)) eqn:Ez.
      * rewrite is_zero_mk_float in Ez by lia. apply Z.eqb_eq in Ez.
        rewrite Hlo, Ez. replace (cond_Zopp s 0) with 0 by (by destruct s).
        apply Qabs_Qle_condition. change (inject_Z 0) with 0%Q. lra.
      * apply whole_us_bound.
Qed.

(** ** Time conversion *)

Lemma microseconds_to_delta_us (us : Z) (td : timedelta) :
  microseconds_to_delta us = Ok td → delta_us td = us.
Proof.
  unfold microseconds_to_delta.
  destruct (Z.abs (us / 1000000 / 86400) <=? MAX_DELTA_DAYS); [|discriminate].
  intros [= <-]. unfold delta_us. cbn. div_lia.
Qed.

Lemma profile_date_of_total (jd : float) (us : Z) :
  total_us jd = Ok us →
  profile_date_of jd
  = if in_range (datetime_us ref_date + us)
    then Ok (datetime_of_us (datetime_us ref_date + us))
    else Raise OverflowError.
Proof.
  intros Hus. unfold profile_date_of, timedelta_days. rewrite Hus.
  cbn [result_bind].
  change (datetime_us ref_date) with 61504531200000000.
  destruct (microseconds_to_delta us) as [td|e] eqn:Etd.
  - cbn [result_bind]. unfold datetime_add.
    rewrite (microseconds_to_delta_us us td Etd).
    change (datetime_us ref_date) with 61504531200000000.
    unfold in_range. by destruct (_ && _).
  - cbn [result_bind]. unfold microseconds_to_delta in Etd.
    destruct (Z.abs (us / 1000000 / 86400) <=? MAX_DELTA_DAYS) eqn:Eabs;
      [discriminate|]. injection Etd as <-.
    apply Z.leb_gt in Eabs. unfold MAX_DELTA_DAYS in Eabs.
    assert (Hout : in_range (61504531200000000 + us) = false).
    { unfold in_range, MAXORDINAL. apply andb_false_iff.
      rewrite Z.ltb_ge, Z.leb_gt. div_lia. }
    by rewrite Hout.
Qed.

Lemma total_us_accuracy (jd : float) :
  non_finite jd = false →
  ∃ us, total_us jd = Ok us ∧
        (Qabs (inject_Z us - F2Q jd * inject_Z us_per_day) <= tolerance)%Q.
Proof.
  destruct jd as [s|s| |s m e]; try discriminate; intros _.
  - exists 0. split; [reflexivity|]. cbn [F2Q]. unfold tolerance.
    apply Qabs_Qle_condition. change (inject_Z 0) with 0%Q. lra.
  - destruct (Z.le_gt_cases 0 e) as [He|He].
    + destruct (total_us_whole s m e He) as (us & Hus & Heq).
      exists us. split; [exact Hus|]. rewrite Heq. unfold tolerance.
      apply Qabs_Qle_condition. lra.
    + apply total_us_fraction. lia.
Qed.

(** C7, as stated, fails: three finite day counts for which the converter
    raises instead of giving a timestamp.  Ten thousand million days is
    more than a [timedelta] holds; three million days after the epoch is
    past the year 9999; a million days before it is before the year 1. *)
Lemma finite_day_count_raises :
  non_finite f_ten_billion = false ∧
  profile_date_of f_ten_billion = Raise OverflowError ∧
  non_finite f_three_million = false ∧
  profile_date_of f_three_million = Raise OverflowError ∧
  non_finite f_minus_million = false ∧
  profile_date_of f_minus_million = Raise OverflowError.
Proof. repeat split; vm_compute; reflexivity. Qed.

(** C7, amended.  For a day count [jd] that is not NaN or infinite the
    converter computes a whole number [us] of microseconds that differs
    from [jd] times 86 400 000 000 by at most half a microsecond plus
    1/16384 (the rounding of the product of the fractional day).  When the
    instant [us] microseconds after 1950-01-01T00:00:00 falls on a day of
    the years 1 to 9999, the result is the date and time of day at exactly
    that instant: a date of the calendar with a time of day, at that
    count of microseconds, and the only one.  For every other finite day
    count the conversion raises OverflowError.  The day count 0.0 gives
    exactly 1950-01-01T00:00:00 and 1.5 gives exactly
    1950-01-02T12:00:00. *)
Theorem time_conversion (jd : float) (Hfinite : non_finite jd = false) :
  ∃ us,
    total_us jd = Ok us ∧
    (Qabs (inject_Z us - F2Q jd * inject_Z us_per_day) <= tolerance)%Q ∧
    (in_range (datetime_us ref_date + us) = true →
     ∃ t, profile_date_of jd = Ok t ∧
          valid_datetime t ∧
          datetime_us t = datetime_us ref_date + us ∧
          (∀ t', valid_datetime t' →
                 datetime_us t' = datetime_us ref_date + us → t' = t) ∧
          t = datetime_of_us (datetime_us ref_date + us)) ∧
    (in_range (datetime_us ref_date + us) = false →
     profile_date_of jd = Raise OverflowError) ∧
    profile_date_of f_zero = Ok ref_date ∧
    profile_date_of f_one_and_half = Ok noon_1950_01_02.
Proof.
  destruct (total_us_accuracy jd Hfinite) as (us & Hus & Hacc).
  exists us. split; [exact Hus|]. split; [exact Hacc|].
  rewrite (profile_date_of_total jd us Hus).
  split; [|split; [|split; reflexivity]].
  - intros Hin. rewrite Hin. eexists. split; [reflexivity|].
    assert (Hvalid : valid_datetime (datetime_of_us (datetime_us ref_date + us)))
      by (apply datetime_of_us_valid, Hin).
    assert (Hat : datetime_us (datetime_of_us (datetime_us ref_date + us))
                  = datetime_us ref_date + us).
    { apply datetime_us_of_us.
      unfold in_range in Hin. apply andb_true_iff in Hin as [Hlo _].
      apply Z.ltb_lt in Hlo. lia. }
    split; [exact Hvalid|]. split; [exact Hat|]. split; [|reflexivity].
    intros t' Hvalid' Hat'. apply datetime_us_inj; [assumption..|congruence].
  - intros Hout. by rewrite Hout.
Qed.

Lemma time_conversion_witness :
  ∃ us,
    total_us f_one_and_half = Ok us ∧
    (Qabs (inject_Z us - F2Q f_one_and_half * inject_Z us_per_day)
     <= tolerance)%Q ∧
    (in_range (datetime_us ref_date + us) = true →
     ∃ t, profile_date_of f_one_and_half = Ok t ∧
          valid_datetime t ∧
          datetime_us t = datetime_us ref_date + us ∧
          (∀ t', valid_datetime t' →
                 datetime_us t' = datetime_us ref_date + us → t' = t) ∧
          t = datetime_of_us (datetime_us ref_date + us)) ∧
    (in_range (datetime_us ref_date + us) = false →
     profile_date_of f_one_and_half = Raise OverflowError) ∧
    profile_date_of f_zero = Ok ref_date ∧
    profile_date_of f_one_and_half = Ok noon_1950_01_02.
Proof.
  apply (time_conversion f_one_and_half). reflexivity.
Defined.

(** Forty days after the epoch is the tenth of February, and a quarter of
    a day later it is six in the morning. *)
Example forty_days_and_a_quarter :
  profile_date_of (S754_finite false 5664683906301952 (-47))
  = Ok {| year := 1950; month := 2; day := 10;
          hour := 6; minute := 0; second := 0; microsecond := 0 |}.
Proof. reflexivity. Qed.

(** * Further properties *)

(** ** File discovery *)

Lemma fs_entry_induction (P : fs_entry → Prop) :
  (∀ name, P (Regular name)) →
  (∀ name, P (Folder name None)) →
  (∀ name entries, Forall P entries → P (Folder name (Some entries))) →
  (∀ name, P (FolderLink name)) →
  ∀ e, P e.
Proof.
  intros Hreg Hnone Hsome Hlink.
  fix IH 1. intros [name|name [entries|]|name].
  - apply Hreg.
  - apply Hsome. induction entries as [|e entries IHentries]; constructor.
    + apply IH.
    + exact IHentries.
  - apply Hnone.
  - apply Hlink.
Qed.

Lemma string_app_cons (c : Ascii.ascii) (a b : string) :
  String c a +:+ b = String c (a +:+ b).
Proof. reflexivity. Qed.

Lemma string_app_assoc (a b c : string) : (a +:+ b) +:+ c = a +:+ b +:+ c.
Proof.
  induction a as [|x a IH]; [reflexivity|].
  by rewrite !string_app_cons, IH.
Qed.

Lemma list_ascii_of_string_app (a b : string) :
  String.list_ascii_of_string (a +:+ b)
  = String.list_ascii_of_string a ++ String.list_ascii_of_string b.
Proof.
  induction a as [|c a IH]; [reflexivity|].
  rewrite string_app_cons. cbn. by rewrite IH.
Qed.

Lemma endswith_spec (s suffix : string) :
  endswith s suffix = true ↔ ∃ front, s = front +:+ suffix.
Proof.
  unfold endswith. rewrite bool_decide_eq_true. split.
  - intros [front Hs]. exists (String.string_of_list_ascii front).
    rewrite <- (String.string_of_list_ascii_of_string s), Hs.
    rewrite <- (String.list_ascii_of_string_of_list_ascii front) at 1.
    rewrite <- list_ascii_of_string_app.
    by rewrite String.string_of_list_ascii_of_string.
  - intros [front ->]. rewrite list_ascii_of_string_app.
    by exists (String.list_ascii_of_string front).
Qed.

Lemma endswith_app (a b suffix : string) :
  endswith b suffix = true → endswith (a +:+ b) suffix = true.
Proof.
  rewrite !endswith_spec. intros [front ->]. exists (a +:+ front).
  by rewrite string_app_assoc.
Qed.

Lemma path_join_endswith (root name suffix : string) :
  endswith name suffix = true →
  endswith (path_join root name) suffix = true.
Proof.
  intros H. unfold path_join. destruct (startswith name "/"); [exact H|].
  destruct (_ || _); [by apply endswith_app|].
  by do 2 apply endswith_app.
Qed.

Lemma elem_of_nc_files_of (path root : string) (dirs files : list string) :
  path ∈ nc_files_of (root, dirs, files) ↔
  ∃ name, name ∈ files ∧ endswith name ".nc" = true ∧
          path = path_join root name.
Proof.
  unfold nc_files_of. rewrite list_elem_of_fmap. split.
  - intros (name & -> & Hin). apply list_elem_of_In, filter_In in Hin as [Hin He].
    exists name. by rewrite list_elem_of_In.
  - intros (name & Hin & He & ->). exists name. split; [reflexivity|].
    apply list_elem_of_In, filter_In. by rewrite <- list_elem_of_In.
Qed.

Lemma elem_of_files_of (name : string) (entries : list fs_entry) :
  name ∈ files_of entries ↔ Regular name ∈ entries.
Proof.
  unfold files_of. rewrite list_elem_of_omap. split.
  - intros ([n|n o|n] & Hin & [= <-]). exact Hin.
  - intros Hin. by exists (Regular name).
Qed.

Lemma directory_listed (top : string) (entries : list fs_entry) (path : string) :
  Forall (λ e, ∀ top path,
            In path (flat_map nc_files_of (walk_entry top e))
            ↔ found_below top e path) entries →
  In path (flat_map nc_files_of
             ((top, dirs_of entries, files_of entries)
                :: flat_map (walk_entry top) entries))
  ↔ ∃ root name, listed top entries root name ∧
                 endswith name ".nc" = true ∧ path = path_join root name.
Proof.
  intros IH. rewrite Forall_forall in IH.
  cbn [flat_map]. rewrite in_app_iff, <- list_elem_of_In, elem_of_nc_files_of.
  split.
  - intros [(name & Hin & He & ->)|Hin].
    + exists top, name. split; [|by auto].
      apply listed_here. by apply elem_of_files_of.
    + apply in_flat_map in Hin as (triple & Htriple & Hin).
      apply in_flat_map in Htriple as (e & He & Htriple).
      assert (Hfound : found_below top e path).
      { apply IH; [by apply list_elem_of_In|].
        apply in_flat_map. by exists triple. }
      destruct e as [n|dir [sub|]|n]; try contradiction.
      destruct Hfound as (root & name & Hl & Hs & ->).
      exists root, name. split; [|by auto].
      eapply listed_below; [|exact Hl]. by apply list_elem_of_In.
  - intros (root & name & Hl & Hs & ->).
    destruct Hl as [name Hin|dir sub root name Hdir Hl].
    + left. exists name. by rewrite elem_of_files_of.
    + right.
      assert (Hfound : found_below top (Folder dir (Some sub))
                         (path_join root name)) by (cbn; eauto).
      apply IH in Hfound; [|exact Hdir].
      apply in_flat_map in Hfound as (triple & Htriple & Hin).
      apply in_flat_map. exists triple. split; [|exact Hin].
      apply in_flat_map. exists (Folder dir (Some sub)).
      split; [by apply list_elem_of_In|exact Htriple].
Qed.

Lemma walk_entry_listed (e : fs_entry) (top path : string) :
  In path (flat_map nc_files_of (walk_entry top e)) ↔ found_below top e path.
Proof.
  revert top path.
  induction e as [name|name|name entries IH|name] using fs_entry_induction;
    intros top path; cbn [walk_entry found_below]; try (cbn; tauto).
  apply directory_listed. exact IH.
Qed.

(** X1. The paths that [find_netcdf_files] returns are exactly the joins of
    a directory of the tree, reached from the top through directories that
    can be listed and are not links, with a non-directory name listed
    there that ends in ".nc". *)
Theorem found_files_are_listed
    (directory : string) (entries : list fs_entry) (path : string) :
  path ∈ find_netcdf_files directory (Some entries)
  ↔ ∃ root name, listed directory entries root name ∧
                 endswith name ".nc" = true ∧ path = path_join root name.
Proof.
  rewrite list_elem_of_In. unfold find_netcdf_files, os_walk.
  apply directory_listed, Forall_forall. intros e _. apply walk_entry_listed.
Qed.

(** X2. Every path that [find_netcdf_files] returns ends in ".nc", whatever
    the directory it is given and whatever the tree holds; what cannot be
    listed gives no path. *)
Theorem found_files_end_in_nc
    (directory : string) (listing : option (list fs_entry)) :
  Forall (λ path, endswith path ".nc" = true)
    (find_netcdf_files directory listing) ∧
  find_netcdf_files directory None = [].
Proof.
  split; [|reflexivity]. apply Forall_forall. intros path Hin.
  apply list_elem_of_In, in_flat_map in Hin as ([[root dirs] files] & _ & Hin).
  apply list_elem_of_In, elem_of_nc_files_of in Hin as (name & _ & He & ->).
  by apply path_join_endswith.
Qed.

(** The sample tree: the two data files and the file named ".nc", in the
    order of the walk; the upper-case suffix, the directory named
    "old.nc" and the link give nothing. *)
Example sample_tree_files :
  find_netcdf_files "argo" (Some sample_tree)
  = ["argo/R1901393_007.nc"; "argo/.nc"; "argo/2019/R1901393_008.nc"].
Proof. vm_compute. reflexivity. Qed.

(** ** The store across a run *)

Lemma outcome_references (pv : profile_view) (t t' : tables) :
  references_ok t → profile_outcome pv t t' → references_ok t'.
Proof.
  unfold references_ok.
  intros Hok [->|row ms _ _ _ Hms ->]; [exact Hok|]. cbn.
  apply Forall_app. split.
  - eapply Forall_impl; [exact Hok|]. cbn. intros m Hm.
    rewrite fmap_app. apply elem_of_app. by left.
  - destruct Hms as [->|[_ Hms]]; [constructor|].
    eapply Forall_impl; [eapply extract_rows_profile_id, Hms|].
    cbn. intros m ->. rewrite fmap_app. apply elem_of_app. right.
    cbn. apply list_elem_of_singleton. reflexivity.
Qed.

(** X3. A run of the pipeline keeps the reference from measurements to
    profiles: from a store, with no pending statement, in which every
    measurement row carries the id of a stored profile, the store after
    any files and any failures is such a store. *)
Theorem measurements_reference_profiles
    (fs : list nc_file) (w : world)
    (Hq : quiescent w)
    (Hw : references_ok (committed w)) :
  references_ok (committed (exec (main_loop fs) w)).
Proof.
  destruct (main_loop_spec fs w Hq) as (w' & E & _ & _ & Hr).
  unfold exec. rewrite E. cbn.
  exact (reachable_invariant references_ok _ _ outcome_references Hr Hw).
Qed.

Lemma measurements_reference_profiles_witness :
  references_ok
    (committed (exec (main_loop [sample_file; known_and_new_file]) fresh_world)).
Proof.
  apply (measurements_reference_profiles [sample_file; known_and_new_file]
           fresh_world).
  - reflexivity.
  - constructor.
Defined.

(** X4. A run only appends: the rows that were in the two tables before
    the run are their first rows after it, unchanged and in the same
    order, whatever the files hold and whatever fails. *)
Theorem run_only_appends
    (fs : list nc_file) (w : world)
    (Hq : quiescent w) :
  extends (committed w) (committed (exec (main_loop fs) w)) ∧
  quiescent (exec (main_loop fs) w).
Proof.
  destruct (main_loop_spec fs w Hq) as (w' & E & Hq' & _ & Hr).
  unfold exec. rewrite E. cbn. split; [|exact Hq'].
  apply reachable_extends, Hr.
Qed.

Lemma run_only_appends_witness :
  extends (committed stored_world)
    (committed (exec (main_loop overlapping_files) stored_world)) ∧
  quiescent (exec (main_loop overlapping_files) stored_world).
Proof.
  apply (run_only_appends overlapping_files stored_world). reflexivity.
Defined.

(** ** Insert and look up *)

Lemma profile_exists_no_fault (p c : Z) (w : world) :
  fails_within 1 w = false →
  (_profile_exists p c w).1
  = Ok (existsb (has_key p c) (argo_profiles (session w))).
Proof.
  intros Hf. apply round_trip_ok_iff in Hf.
  destruct (profile_exists_spec p c w) as [_ [Hr|Hr]]; [|exact Hr].
  unfold _profile_exists in Hr. revert Hr. unfold_monad.
  destruct (round_trip w) as [[[]|e] w1]; cbn in *; [discriminate|].
  discriminate Hf.
Qed.

Lemma has_key_other (p c p' c' : Z) (row : profile_row) :
  key_of row = (p, c) → (p', c') ≠ (p, c) → has_key p' c' row = false.
Proof.
  unfold key_of, has_key. intros [= Hp Hc] Hne.
  destruct (platform_number row =? p') eqn:E1; [|reflexivity].
  destruct (cycle_number row =? c') eqn:E2; [|reflexivity].
  apply Z.eqb_eq in E1, E2. congruence.
Qed.

(** X5. After [_insert_profile_metadata] has returned an id for a key, the
    duplicate guard never answers that the key is absent: it answers
    [True] whenever its query goes through.  Its answer for every other
    key is what it was before the insert, and asking changes neither the
    tables nor the key generator. *)
Theorem insert_then_exists
    (p c : Z) (d : datetime) (la lo : float) (w w1 : world) (id : Z)
    (Hq : quiescent w)
    (Hins : _insert_profile_metadata p c d la lo w = (Ok (Some id), w1)) :
  (_profile_exists p c w1).1 ≠ Ok false ∧
  (fails_within 1 w1 = false → (_profile_exists p c w1).1 = Ok true) ∧
  (∀ p' c', (p', c') ≠ (p, c) →
     existsb (has_key p' c') (argo_profiles (session w1))
     = existsb (has_key p' c') (argo_profiles (session w))) ∧
  same_store w1 (exec (_profile_exists p c) w1).
Proof.
  destruct (insert_profile_metadata_returns p c d la lo w w1 (Some id) Hq Hins)
    as (Hq1 & _ & Hcases).
  destruct Hcases as [[? _]|[_ Hc]]; [discriminate|].
  assert (Hs : session w1
               = with_profile (new_row (next_profile_id w) p c d la lo) []
                   (committed w)) by (rewrite Hq1; exact Hc).
  assert (Hyes : existsb (has_key p c) (argo_profiles (session w1)) = true).
  { rewrite Hs. apply (present_new_row (committed w)). }
  destruct (profile_exists_spec p c w1) as [Hsame Hr].
  split; [|split; [|split]].
  - destruct Hr as [-> | ->]; [discriminate|]. rewrite Hyes. discriminate.
  - intros Hf. rewrite (profile_exists_no_fault p c w1 Hf), Hyes. reflexivity.
  - intros p' c' Hne. rewrite Hs, <- Hq. cbn. rewrite existsb_app. cbn.
    rewrite (has_key_other p c p' c') by (reflexivity || exact Hne).
    by rewrite !orb_false_r.
  - exact Hsame.
Qed.

Lemma insert_then_exists_witness :
  let w1 := exec (_insert_profile_metadata 7 1 noon_1950_01_02 f_ten f_twenty)
              fresh_world in
  (_profile_exists 7 1 w1).1 ≠ Ok false ∧
  (fails_within 1 w1 = false → (_profile_exists 7 1 w1).1 = Ok true) ∧
  (∀ p' c', (p', c') ≠ (7, 1) →
     existsb (has_key p' c') (argo_profiles (session w1))
     = existsb (has_key p' c') (argo_profiles (session fresh_world))) ∧
  same_store w1 (exec (_profile_exists 7 1) w1).
Proof.
  intros w1.
  apply (insert_then_exists 7 1 noon_1950_01_02 f_ten f_twenty
           fresh_world w1 1); reflexivity.
Defined.

(** X6. [_insert_profile_metadata] on a connection with no pending
    statement leaves no statement pending.  It returns the generated id,
    with the new row stored last in the profile table, exactly when
    neither the INSERT nor the commit fails and the schema does not
    reject the key.  In every other case the durable tables are what they
    were and the error is logged; the call then returns [None], unless
    the rollback of its handler fails too, in which case that exception
    leaves the call.  The rollback is the round trip after the INSERT
    when the INSERT failed or was rejected, and the one after the commit
    when the commit failed. *)
Theorem insert_profile_outcome
    (p c : Z) (d : datetime) (la lo : float) (w : world)
    (Hq : quiescent w) :
  ∃ r w', _insert_profile_metadata p c d la lo w = (r, w') ∧
  quiescent w' ∧
  let rejected :=
    unique_key w && existsb (has_key p c) (argo_profiles (committed w)) in
  (fails_within 2 w = false ∧ rejected = false →
   r = Ok (Some (next_profile_id w)) ∧
   committed w'
   = with_profile (new_row (next_profile_id w) p c d la lo) [] (committed w)) ∧
  (fails_within 2 w = true ∨ rejected = true →
   committed w' = committed w ∧
   (∃ e, last (log w') = Some (ErrorProfileInsert p c e)) ∧
   r = if fails_at (if fails_within 1 w || rejected then 1 else 2) w
       then Raise DatabaseError else Ok None).
Proof.
  unfold quiescent in *. cbn zeta.
  unfold _insert_profile_metadata, execute_insert_profile, fails_within, fails_at.
  unfold_monad. unfold round_trip.
  destruct (faults w) as [|[] [|[] [|[] fs]]] eqn:E; cbn; rewrite ?Hq;
    try (destruct (unique_key w
                   && existsb (has_key p c) (argo_profiles (committed w)));
         cbn; rewrite ?E; cbn);
    (eexists _, _; split; [reflexivity|]; cbn; split; [by rewrite ?Hq|];
     split;
     [ intros [? ?];
       first [ discriminate
             | split; [reflexivity|];
               unfold with_profile, new_row; cbn;
               by rewrite ?Hq, app_nil_r ]
     | intros [?|?];
       first [ discriminate
             | split; [reflexivity|];
               split; [rewrite last_snoc; eauto|reflexivity] ] ]).
Qed.

Lemma insert_profile_outcome_witness :
  ∃ r w', _insert_profile_metadata 7 1 noon_1950_01_02 f_ten f_twenty
            (scheduled_world [false; true; true]) = (r, w') ∧
  quiescent w' ∧
  let rejected :=
    unique_key (scheduled_world [false; true; true])
    && existsb (has_key 7 1)
         (argo_profiles (committed (scheduled_world [false; true; true]))) in
  (fails_within 2 (scheduled_world [false; true; true]) = false
   ∧ rejected = false →
   r = Ok (Some (next_profile_id (scheduled_world [false; true; true]))) ∧
   committed w'
   = with_profile
       (new_row (next_profile_id (scheduled_world [false; true; true])) 7 1
          noon_1950_01_02 f_ten f_twenty) []
       (committed (scheduled_world [false; true; true]))) ∧
  (fails_within 2 (scheduled_world [false; true; true]) = true
   ∨ rejected = true →
   committed w' = committed (scheduled_world [false; true; true]) ∧
   (∃ e, last (log w') = Some (ErrorProfileInsert 7 1 e)) ∧
   r = if fails_at
            (if fails_within 1 (scheduled_world [false; true; true]) || rejected
             then 1 else 2)%nat
            (scheduled_world [false; true; true])
       then Raise DatabaseError else Ok None).
Proof.
  apply (insert_profile_outcome 7 1 noon_1950_01_02 f_ten f_twenty
           (scheduled_world [false; true; true])).
  reflexivity.
Defined.

(** ** The rows of a profile, sample by sample *)

Lemma frame_rows_by_sample (id : Z) (pres temp psal : list float)
    (pres_qc temp_qc psal_qc : list qc_flag) :
  to_tuple id <$>
    dropna_pressure
      (zip_with (λ p ts, Build_frame_row p ts.1 ts.2)
         (zip_with (λ v (c : bool), if c then v else nan) pres
            (isin_good <$> pres_qc))
         (zip (zip_with (λ v (c : bool), if c then v else nan) temp
                 (isin_good <$> temp_qc))
              (zip_with (λ v (c : bool), if c then v else nan) psal
                 (isin_good <$> psal_qc))))
  = omap (row_of_sample id)
      (zip (zip (zip pres pres_qc) (zip temp temp_qc)) (zip psal psal_qc)).
Proof.
  revert pres_qc temp temp_qc psal psal_qc.
  induction pres as [|p pres IH];
    intros [|pq pres_qc] [|t temp] [|tq temp_qc] [|s psal] [|sq psal_qc];
    try reflexivity.
  cbn [zip_with fmap list_fmap omap list_omap row_of_sample].
  specialize (IH pres_qc temp temp_qc psal psal_qc).
  unfold dropna_pressure in *. cbn [List.filter fr_pressure].
  unfold kept.
  destruct (isin_good pq), (isin_good tq), (isin_good sq);
    destruct p, t, s; cbn; rewrite <- ?IH; reflexivity.
Qed.

(** X7. When the six arrays of a profile are readable and of one length,
    the extraction yields, in depth order, one row for every sample whose
    pressure flag is [b'1'] or [b'2'] and whose pressure is a number, and
    no row for any other sample.  The row carries the profile id and the
    pressure; its temperature (salinity) is the reading when the
    temperature (salinity) flag is good, and NaN when it is not.  No cell
    of a row is empty: a rejected or missing value goes to the database
    as the float NaN, not as NULL. *)
Theorem rows_by_sample
    (pv : profile_view) (id : Z)
    (pres temp psal : list float) (pres_qc temp_qc psal_qc : list qc_flag)
    (Hpres : PRES pv = Ok pres) (Hpres_qc : PRES_QC pv = Ok pres_qc)
    (Htemp : TEMP pv = Ok temp) (Htemp_qc : TEMP_QC pv = Ok temp_qc)
    (Hpsal : PSAL pv = Ok psal) (Hpsal_qc : PSAL_QC pv = Ok psal_qc)
    (Lpres : length pres_qc = length pres)
    (Ltemp : length temp = length pres) (Ltemp_qc : length temp_qc = length pres)
    (Lpsal : length psal = length pres) (Lpsal_qc : length psal_qc = length pres) :
  extract_rows pv id
  = Ok (omap (row_of_sample id)
          (zip (zip (zip pres pres_qc) (zip temp temp_qc)) (zip psal psal_qc)))
  ∧ ∀ rows m, extract_rows pv id = Ok rows → m ∈ rows →
      is_Some (pressure_dbar m) ∧ is_Some (temperature_celsius m)
      ∧ is_Some (salinity_psu m).
Proof.
  split; [|intros rows m Hrows Hm;
           destruct (extract_rows_inv _ _ _ Hrows) as (df & _ & ->);
           apply list_elem_of_fmap in Hm as (r & -> & _);
           cbn; unfold where_notna; eauto].
  unfold extract_rows, candidate_frame, filtered_arrays.
  rewrite Hpres, Hpres_qc, Htemp, Htemp_qc, Hpsal, Hpsal_qc.
  unfold qc_filter, xr_where. cbn [result_bind].
  rewrite !length_fmap, Ltemp, Ltemp_qc, Lpsal, Lpsal_qc, Lpres, Nat.eqb_refl.
  cbn [result_bind]. unfold make_frame.
  rewrite !length_zip_with, !length_fmap,
    Ltemp, Ltemp_qc, Lpsal, Lpsal_qc, Lpres, Nat.min_id, Nat.eqb_refl.
  cbn [andb result_bind]. f_equal. apply frame_rows_by_sample.
Qed.

Lemma rows_by_sample_witness :
  extract_rows five_samples 1
  = Ok (omap (row_of_sample 1)
          (zip (zip (zip [f_ten; f_twenty; f_thirty_five; f_ten; f_twenty]
                       [Some Byte.x31; Some Byte.x31; Some Byte.x31;
                        Some Byte.x31; Some Byte.x31])
                  (zip [f_ten; f_twenty; f_ten; f_twenty; f_ten]
                     [Some Byte.x31; Some Byte.x34; Some Byte.x31;
                      Some Byte.x34; Some Byte.x32]))
             (zip [f_thirty_five; f_thirty_five; f_thirty_five;
                   f_thirty_five; f_thirty_five]
                [Some Byte.x31; Some Byte.x31; None; Some Byte.x31;
                 Some Byte.x31])))
  ∧ ∀ rows m, extract_rows five_samples 1 = Ok rows → m ∈ rows →
      is_Some (pressure_dbar m) ∧ is_Some (temperature_celsius m)
      ∧ is_Some (salinity_psu m).
Proof.
  apply (rows_by_sample five_samples 1); reflexivity.
Defined.


(** ** Round trips that succeed *)

Lemma fails_within_add (a b : nat) (w w' : world) :
  faults w' = drop a (faults w) →
  fails_within (a + b) w = fails_within a w || fails_within b w'.
Proof.
  unfold fails_within. intros ->.
  by rewrite <- existsb_app, take_take_drop.
Qed.

Lemma round_trip_success (w : world) :
  fails_within 1 w = false →
  round_trip w = (Ok tt, set_faults (drop 1 (faults w)) w).
Proof.
  unfold round_trip, fails_within.
  destruct (faults w) as [|[] fs] eqn:E; cbn; try discriminate; intros _.
  - by rewrite <- E, set_faults_same.
  - by rewrite drop_0.
Qed.

Lemma profile_exists_success (p c : Z) (w : world) :
  fails_within 1 w = false →
  _profile_exists p c w
  = (Ok (existsb (has_key p c) (argo_profiles (session w))),
     set_faults (drop 1 (faults w)) w).
Proof.
  intros Hf. unfold _profile_exists. unfold_monad.
  by rewrite (round_trip_success w Hf).
Qed.

Lemma insert_profile_metadata_success
    (p c : Z) (d : datetime) (la lo : float) (w : world) :
  quiescent w → fails_within 2 w = false →
  existsb (has_key p c) (argo_profiles (committed w)) = false →
  ∃ w', _insert_profile_metadata p c d la lo w
        = (Ok (Some (next_profile_id w)), w') ∧
  committed w'
  = with_profile (new_row (next_profile_id w) p c d la lo) [] (committed w) ∧
  quiescent w' ∧ unique_key w' = unique_key w ∧
  next_profile_id w' = next_profile_id w + 1 ∧
  faults w' = drop 2 (faults w) ∧ log w' = log w.
Proof.
  unfold quiescent, fails_within. intros Hq Hf Hnew.
  unfold _insert_profile_metadata, execute_insert_profile.
  unfold_monad. unfold round_trip.
  destruct (faults w) as [|[] [|[] fs]] eqn:E; cbn in Hf; try discriminate;
    cbn; rewrite ?Hq, Hnew, andb_false_r; cbn; rewrite ?E; cbn;
    (eexists; split; [reflexivity|]; cbn;
     unfold with_profile, new_row; cbn; rewrite ?Hq, ?app_nil_r, ?E;
     repeat split; reflexivity).
Qed.

Lemma execute_pages_log (pages : list (list measurement)) (w : world) :
  log (execute_pages pages w).2 = log w.
Proof.
  revert w. induction pages as [|page pages IH]; intros w; [reflexivity|].
  cbn [execute_pages]. unfold execute_insert_page. unfold_monad.
  destruct (round_trip_result w) as [fs [-> | ->]]; cbn; [|reflexivity].
  by rewrite IH.
Qed.

Lemma bulk_insert_measurements_success (ms : list measurement) (w : world) :
  quiescent w → fails_within (S (statements ms)) w = false →
  ∃ w', _bulk_insert_measurements ms w = (Ok tt, w') ∧
  committed w'
  = {| argo_profiles := argo_profiles (committed w);
       ocean_measurements := ocean_measurements (committed w) ++ ms |} ∧
  quiescent w' ∧ unique_key w' = unique_key w ∧
  next_profile_id w' = next_profile_id w ∧ log w' = log w.
Proof.
  unfold quiescent, statements. intros Hq Hf.
  pose proof (execute_pages_ok_iff (paginate (length ms) ms) w) as Hiff.
  pose proof (execute_pages_faults (paginate (length ms) ms) w) as Hfl.
  pose proof (execute_pages_log (paginate (length ms) ms) w) as Hlog.
  destruct (execute_pages_spec (paginate (length ms) ms) w)
    as (r & w1 & E & Hc & Hu & Hn & Hs).
  rewrite E in Hiff, Hfl, Hlog. cbn [fst snd] in Hiff, Hfl, Hlog.
  rewrite paginate_concat in Hs by lia.
  assert (Hpages : fails_within (length (paginate (length ms) ms)) w = false).
  { destruct (fails_within (length (paginate (length ms) ms)) w) eqn:Ek;
      [|reflexivity]. apply fails_within_mono in Ek. congruence. }
  apply Hiff in Hpages. subst r. specialize (Hs eq_refl).
  rewrite (fails_within_snoc _ w w1 (Hfl eq_refl)) in Hf.
  apply orb_false_iff in Hf as [_ Hcommit].
  unfold _bulk_insert_measurements, execute_values.
  cbv beta iota delta [bind try_except]. rewrite E. unfold_monad.
  rewrite (round_trip_success w1 Hcommit).
  eexists. split; [reflexivity|]. cbn. rewrite Hs, Hq.
  repeat split; assumption.
Qed.

(** ** A profile whose arrays cannot be extracted *)

(** X8. When the insert of a new profile succeeds with an id that is not
    0 and the extraction of its arrays raises, the exception is logged as
    a warning and goes no further: the profile row stays in the store
    without any measurement row, and nothing is left pending.  From then
    on the duplicate guard stands in the way: processing a profile with
    that key again, in this or a later run, leaves the two tables as they
    are, so the measurements are never ingested. *)
Theorem extraction_failure_keeps_profile
    (pv : profile_view) (p c : Z) (jd : float) (d : datetime) (la lo : float)
    (w : world) (e : exn)
    (Hq : quiescent w)
    (Hj : JULD pv = Ok jd) (Hd : profile_date_of jd = Ok d)
    (Hla : LATITUDE pv = Ok la) (Hlo : LONGITUDE pv = Ok lo)
    (Hnew : existsb (has_key p c) (argo_profiles (committed w)) = false)
    (Hok : fails_within 2 w = false)
    (Hid : next_profile_id w ≠ 0)
    (Hex : extract_rows pv (next_profile_id w) = Raise e) :
  ∃ w', ingest_profile pv p c w = (Ok tt, w') ∧
  committed w'
  = with_profile (new_row (next_profile_id w) p c d la lo) [] (committed w) ∧
  quiescent w' ∧
  log w' = log w ++ [WarningExtract (next_profile_id w) e] ∧
  ∀ pv' w'', PLATFORM_NUMBER pv' = Ok p → CYCLE_NUMBER pv' = Ok c →
    quiescent w'' → extends (committed w') (committed w'') →
    committed (exec (process_profile pv') w'') = committed w''.
Proof.
  destruct (insert_profile_metadata_success p c d la lo w Hq Hok Hnew)
    as (w1 & E1 & Hc1 & Hq1 & _ & _ & _ & Hl1).
  exists (add_log (WarningExtract (next_profile_id w) e) w1).
  split; [|split; [exact Hc1|split; [exact Hq1|split; [by cbn; rewrite Hl1|]]]].
  - unfold ingest_profile. cbv beta iota delta [bind lift].
    rewrite Hj, Hd, Hla, Hlo, E1. cbn [truthy].
    apply Z.eqb_neq in Hid. rewrite Hid. cbn [negb].
    unfold _extract_measurements. unfold_monad. rewrite Hex. reflexivity.
  - intros pv' w'' Hp' Hc' Hq'' Hext. cbn [committed add_log] in Hext.
    assert (Hk : present (committed w'') (p, c)).
    { eapply present_extends; [exact Hext|]. rewrite Hc1. apply present_new_row. }
    pose proof (process_profiles_present [pv'] w'' Hq'') as Hsame.
    cbn [keys_read] in Hsame. rewrite Hp', Hc' in Hsame.
    destruct Hsame as [Hsame _]; [by repeat constructor|].
    unfold exec in *. cbn [process_profiles] in Hsame.
    cbv beta iota delta [bind ret] in Hsame.
    destruct (process_profile pv' w'') as [[[]|e'] w3]; exact Hsame.
Qed.

Lemma extraction_failure_keeps_profile_witness :
  ∃ w', ingest_profile without_temperature 1901393 9 fresh_world = (Ok tt, w') ∧
  committed w'
  = with_profile
      (new_row (next_profile_id fresh_world) 1901393 9 noon_1950_01_02
         f_ten f_twenty) [] (committed fresh_world) ∧
  quiescent w' ∧
  log w'
  = log fresh_world ++ [WarningExtract (next_profile_id fresh_world) KeyError] ∧
  ∀ pv' w'', PLATFORM_NUMBER pv' = Ok 1901393 → CYCLE_NUMBER pv' = Ok 9 →
    quiescent w'' → extends (committed w') (committed w'') →
    committed (exec (process_profile pv') w'') = committed w''.
Proof.
  apply (extraction_failure_keeps_profile without_temperature 1901393 9
           f_one_and_half noon_1950_01_02 f_ten f_twenty fresh_world KeyError);
    try reflexivity.
  discriminate.
Defined.


Lemma fails_within_prefix (a b : nat) (w : world) :
  fails_within (a + b) w = false → fails_within a w = false.
Proof.
  intros H.
  rewrite (fails_within_add a b w (set_faults (drop a (faults w)) w) eq_refl)
    in H.
  by apply orb_false_iff in H as [H _].
Qed.

(** ** A new profile, end to end *)

(** X9. When none of the round trips of a new profile fails (the SELECT
    of the guard, the INSERT of the profile and its commit, one INSERT a
    page of measurements and their commit), its metadata is readable, the
    generated id is not 0 and the extraction gives [ms], the loop body
    stores the profile row and all of [ms], in order and under that id,
    leaves no statement pending, advances the key generator by one and
    logs nothing.  The rows are stored as extracted: a rejected
    temperature or salinity as the float NaN. *)
Theorem new_profile_stored_with_rows
    (pv : profile_view) (p c : Z) (jd : float) (d : datetime) (la lo : float)
    (ms : list measurement) (w : world)
    (Hq : quiescent w)
    (Hp : PLATFORM_NUMBER pv = Ok p) (Hc : CYCLE_NUMBER pv = Ok c)
    (Hj : JULD pv = Ok jd) (Hd : profile_date_of jd = Ok d)
    (Hla : LATITUDE pv = Ok la) (Hlo : LONGITUDE pv = Ok lo)
    (Hnew : existsb (has_key p c) (argo_profiles (committed w)) = false)
    (Hid : next_profile_id w ≠ 0)
    (Hrows : extract_rows pv (next_profile_id w) = Ok ms)
    (Hok : fails_within (4 + statements ms) w = false) :
  ∃ w', process_profile pv w = (Ok tt, w') ∧
  committed w'
  = with_profile (new_row (next_profile_id w) p c d la lo) ms (committed w) ∧
  quiescent w' ∧
  next_profile_id w' = next_profile_id w + 1 ∧
  log w' = log w.
Proof.
  set (w0 := set_faults (drop 1 (faults w)) w).
  assert (Hq0 : quiescent w0) by exact Hq.
  change (4 + statements ms)%nat with (1 + (2 + S (statements ms)))%nat in Hok.
  rewrite (fails_within_add 1 _ w w0 eq_refl) in Hok.
  apply orb_false_iff in Hok as [Hsel Hok].
  pose proof (fails_within_prefix _ _ _ Hok) as Hins.
  destruct (insert_profile_metadata_success p c d la lo w0 Hq0 Hins Hnew) as
    (w1 & E1 & Hc1 & Hq1 & Hu1 & Hn1 & Hf1 & Hl1).
  rewrite (fails_within_add 2 _ w0 w1 Hf1), Hins in Hok. cbn [orb] in Hok.
  unfold process_profile. cbv beta iota delta [bind lift].
  rewrite Hp, Hc, (profile_exists_success p c w Hsel), Hq, Hnew.
  fold w0. unfold ingest_profile. cbv beta iota delta [bind lift].
  rewrite Hj, Hd, Hla, Hlo, E1. cbn [truthy].
  apply Z.eqb_neq in Hid. change (next_profile_id w0) with (next_profile_id w).
  rewrite Hid. cbn [negb].
  unfold _extract_measurements. unfold_monad. rewrite Hrows.
  change (next_profile_id w0) with (next_profile_id w) in Hn1.
  change (log w0) with (log w) in Hl1.
  change (committed w0) with (committed w) in Hc1.
  destruct ms as [|m ms].
  - exists w1. split; [reflexivity|]. repeat split; assumption.
  - destruct (bulk_insert_measurements_success (m :: ms) w1 Hq1 Hok)
      as (w2 & E2 & Hc2 & Hq2 & _ & Hn2 & Hl2).
    exists w2. split; [exact E2|].
    split; [|repeat split; congruence].
    rewrite Hc2, Hc1. unfold with_profile. cbn. by rewrite app_nil_r.
Qed.

Lemma new_profile_stored_with_rows_witness :
  ∃ w', process_profile five_samples (scheduled_world [false; false]) = (Ok tt, w') ∧
  committed w'
  = with_profile
      (new_row (next_profile_id (scheduled_world [false; false])) 1901393 7
         noon_1950_01_02 f_ten f_twenty)
      [ {| m_profile_id := 1; pressure_dbar := Some f_ten;
            temperature_celsius := Some f_ten; salinity_psu := Some f_thirty_five |};
         {| m_profile_id := 1; pressure_dbar := Some f_twenty;
            temperature_celsius := Some nan; salinity_psu := Some f_thirty_five |};
         {| m_profile_id := 1; pressure_dbar := Some f_thirty_five;
            temperature_celsius := Some f_ten; salinity_psu := Some nan |};
         {| m_profile_id := 1; pressure_dbar := Some f_ten;
            temperature_celsius := Some nan; salinity_psu := Some f_thirty_five |};
         {| m_profile_id := 1; pressure_dbar := Some f_twenty;
            temperature_celsius := Some f_ten; salinity_psu := Some f_thirty_five |} ]
      (committed (scheduled_world [false; false])) ∧
  quiescent w' ∧
  next_profile_id w' = next_profile_id (scheduled_world [false; false]) + 1 ∧
  log w' = log (scheduled_world [false; false]).
Proof.
  apply (new_profile_stored_with_rows five_samples 1901393 7 f_one_and_half
           noon_1950_01_02 f_ten f_twenty _ (scheduled_world [false; false]));
    try reflexivity.
  discriminate.
Defined.


(** ** A failure of the duplicate guard *)

(** X10. The query of the duplicate guard is not protected by a handler
    of its own.  When it fails for the profile at some index of a file,
    the exception ends the processing of the file: it is logged with the
    file's path, the profile and every profile after it are left
    unprocessed whatever they hold, the tables and the key generator are
    as the profiles before left them, and the rows of those profiles are
    kept. *)
Theorem guard_failure_aborts_file
    (f : nc_file) (pre post : list profile_view) (pv : profile_view)
    (p c : Z) (w : world)
    (Hds : dataset f = Ok (pre ++ pv :: post))
    (Hq : quiescent w)
    (Hpre : (process_profiles pre w).1 = Ok tt)
    (Hp : PLATFORM_NUMBER pv = Ok p) (Hc : CYCLE_NUMBER pv = Ok c)
    (Hfail : fails_within 1 (exec (process_profiles pre) w) = true) :
  let w1 := exec (process_profiles pre) w in
  ∃ w2, process_file f w
        = (Ok tt, add_log (ErrorFile (file_path f) DatabaseError) w2) ∧
  same_store w1 w2 ∧ log w2 = log w1 ∧
  extends (committed w) (committed w2) ∧
  ∀ f' pv' post', dataset f' = Ok (pre ++ pv' :: post') →
    PLATFORM_NUMBER pv' = Ok p → CYCLE_NUMBER pv' = Ok c →
    exec (process_file f') w
    = add_log (ErrorFile (file_path f') DatabaseError) w2.
Proof.
  cbn zeta.
  destruct (process_profiles_spec pre w Hq) as (r & w1 & Epre & Hq1 & _ & Hr).
  unfold exec in *. rewrite Epre in *. cbn [fst snd] in *. subst r.
  assert (Hrt : ∃ fs, round_trip w1 = (Raise DatabaseError, set_faults fs w1)).
  { destruct (round_trip_result w1) as [fs [E|E]]; [|eauto].
    pose proof (proj1 (round_trip_ok_iff w1)) as Hok. rewrite E in Hok.
    rewrite Hok in Hfail by reflexivity. discriminate Hfail. }
  destruct Hrt as [fs Ert]. exists (set_faults fs w1).
  assert (Hfile : ∀ f' pv' post', dataset f' = Ok (pre ++ pv' :: post') →
    PLATFORM_NUMBER pv' = Ok p → CYCLE_NUMBER pv' = Ok c →
    process_file f' w
    = (Ok tt, add_log (ErrorFile (file_path f') DatabaseError)
                (set_faults fs w1))).
  { intros f' pv' post' Hds' Hp' Hc'. rewrite process_file_unfold.
    unfold file_body. cbv beta iota delta [bind lift].
    rewrite Hds', process_profiles_app, Epre. cbn [process_profiles].
    unfold process_profile, _profile_exists. unfold_monad.
    rewrite Hp', Hc', Ert. reflexivity. }
  split; [exact (Hfile f pv post Hds Hp Hc)|].
  split; [unfold same_store; cbn; auto|]. split; [reflexivity|].
  split; [apply reachable_extends, Hr|].
  intros f' pv' post' Hds' Hp' Hc'.
  by rewrite (Hfile f' pv' post' Hds' Hp' Hc').
Qed.

Lemma guard_failure_aborts_file_witness :
  let w1 := exec (process_profiles [bare_profile 1 1])
              (scheduled_world [false; false; false; true]) in
  ∃ w2, process_file aborting_file (scheduled_world [false; false; false; true])
        = (Ok tt, add_log (ErrorFile (file_path aborting_file) DatabaseError) w2) ∧
  same_store w1 w2 ∧ log w2 = log w1 ∧
  extends (committed (scheduled_world [false; false; false; true]))
    (committed w2) ∧
  ∀ f' pv' post', dataset f' = Ok ([bare_profile 1 1] ++ pv' :: post') →
    PLATFORM_NUMBER pv' = Ok 2 → CYCLE_NUMBER pv' = Ok 1 →
    exec (process_file f') (scheduled_world [false; false; false; true])
    = add_log (ErrorFile (file_path f') DatabaseError) w2.
Proof.
  apply (guard_failure_aborts_file aborting_file [bare_profile 1 1]
           [bare_profile 3 1] (nan_juld 2 1) 2 1
           (scheduled_world [false; false; false; true])); reflexivity.
Defined.


(** ** Day counts that convert exactly *)

Lemma whole_day_instant (n : Z) :
  let us := datetime_us ref_date + n * us_per_day in
  us / 1000000 / 86400 = 711858 + n ∧
  (us / 1000000) mod 86400 = 0 ∧ us mod 1000000 = 0.
Proof.
  change (datetime_us ref_date) with 61504531200000000.
  unfold us_per_day. cbn zeta. div_lia.
Qed.

(** X11. A day count that is a whole number [k] of microseconds is
    converted without any rounding: the microseconds computed are [k].
    When the instant [k] microseconds after 1950-01-01T00:00:00 falls in
    the years 1 to 9999 the timestamp is the date of the calendar and the
    time of day at exactly that instant, and the only one; otherwise the
    conversion raises OverflowError.  For a whole number [n] of days the
    timestamp is midnight of the date whose day number is that of
    1950-01-01 plus [n]. *)
Theorem exact_day_counts
    (jd : float) (k : Z)
    (Hfinite : non_finite jd = false)
    (Hexact : (F2Q jd * inject_Z us_per_day == inject_Z k)%Q) :
  total_us jd = Ok k ∧
  (in_range (datetime_us ref_date + k) = false →
   profile_date_of jd = Raise OverflowError) ∧
  (in_range (datetime_us ref_date + k) = true →
   ∃ t, profile_date_of jd = Ok t ∧
        valid_datetime t ∧
        datetime_us t = datetime_us ref_date + k ∧
        (∀ t', valid_datetime t' →
               datetime_us t' = datetime_us ref_date + k → t' = t) ∧
        ∀ n, k = n * us_per_day →
          ymd2ord (year t) (month t) (day t)
          = ymd2ord (year ref_date) (month ref_date) (day ref_date) + n ∧
          hour t = 0 ∧ minute t = 0 ∧ second t = 0 ∧ microsecond t = 0).
Proof.
  destruct (total_us_accuracy jd Hfinite) as (us & Hus & Hacc).
  assert (Hk : us = k).
  { rewrite Hexact in Hacc. apply Qabs_Qle_condition in Hacc as [Hlo Hhi].
    unfold tolerance, Qle, Qminus, Qplus, Qopp, inject_Z in Hlo, Hhi.
    cbn in Hlo, Hhi. lia. }
  subst us. split; [exact Hus|].
  pose proof (profile_date_of_total jd k Hus) as Hdate.
  split; [intros Hout; by rewrite Hout in Hdate|].
  intros Hin. rewrite Hin in Hdate. eexists. split; [exact Hdate|].
  assert (Hat : datetime_us (datetime_of_us (datetime_us ref_date + k))
                = datetime_us ref_date + k).
  { apply datetime_us_of_us.
    unfold in_range in Hin. apply andb_true_iff in Hin as [Hlo _].
    apply Z.ltb_lt in Hlo. lia. }
  split; [apply datetime_of_us_valid, Hin|]. split; [exact Hat|]. split.
  { intros t' Hvalid' Hat'.
    apply datetime_us_inj;
      [assumption|apply datetime_of_us_valid, Hin|congruence]. }
  intros n ->.
  destruct (whole_day_instant n) as (Hd & Hs & Hu). cbn zeta in Hd, Hs, Hu.
  assert (Hord : 1 <= 711858 + n).
  { unfold in_range in Hin. apply andb_true_iff in Hin as [Hlo _].
    apply Z.ltb_lt in Hlo. rewrite Hd in Hlo. lia. }
  pose proof (ymd2ord_ord2ymd _ Hord) as Hrt.
  unfold datetime_of_us. rewrite Hd, Hs, Hu.
  destruct (ord2ymd (711858 + n)) as [[y m] d]. cbn in Hrt. cbn.
  repeat split; try reflexivity.
  rewrite Hrt. reflexivity.
Qed.

Lemma exact_day_counts_witness :
  total_us f_ten = Ok 864000000000 ∧
  (in_range (datetime_us ref_date + 864000000000) = false →
   profile_date_of f_ten = Raise OverflowError) ∧
  (in_range (datetime_us ref_date + 864000000000) = true →
   ∃ t, profile_date_of f_ten = Ok t ∧
        valid_datetime t ∧
        datetime_us t = datetime_us ref_date + 864000000000 ∧
        (∀ t', valid_datetime t' →
               datetime_us t' = datetime_us ref_date + 864000000000 → t' = t) ∧
        ∀ n, 864000000000 = n * us_per_day →
          ymd2ord (year t) (month t) (day t)
          = ymd2ord (year ref_date) (month ref_date) (day ref_date) + n ∧
          hour t = 0 ∧ minute t = 0 ∧ second t = 0 ∧ microsecond t = 0).
Proof.
  apply (exact_day_counts f_ten 864000000000); reflexivity.
Defined.

(** Ten days after the epoch. *)
Example ten_days :
  profile_date_of f_ten
  = Ok {| year := 1950; month := 1; day := 11;
          hour := 0; minute := 0; second := 0; microsecond := 0 |}.
Proof. reflexivity. Qed.


(** ** The program *)

Lemma setup_body_spec (env : environment) (w : world) :
  quiescent w →
  (∃ script w', db_setup_sql env = Ok script ∧ fails_within 2 w = false ∧
     setup_body env w = (Ok tt, w') ∧
     committed w' = script_tables script (committed w) ∧ quiescent w' ∧
     unique_key w' = script_unique_key script (unique_key w) ∧
     next_profile_id w' = script_next_profile_id script (next_profile_id w) ∧
     log w' = log w) ∨
  (∃ e w', setup_body env w = (Raise e, w') ∧
     (is_ok (db_setup_sql env) = false ∨ fails_within 2 w = true) ∧
     committed w' = committed w ∧ unique_key w' = unique_key w ∧
     next_profile_id w' = next_profile_id w ∧ log w' = log w).
Proof.
  unfold quiescent, fails_within. intros Hq.
  unfold setup_body, execute_script. unfold_monad. unfold round_trip.
  destruct (db_setup_sql env) as [script|e]; [|right; eauto 10].
  destruct (faults w) as [|[] [|[] fs]] eqn:E; cbn; rewrite ?E; cbn;
    first [ left; eexists _, _; split; [reflexivity|];
            split; [reflexivity|]; split; [reflexivity|]; cbn;
            rewrite ?Hq; by repeat split
          | right; eauto 10 ].
Qed.

(** X12. A run that ends with exit status 1 (a wrong number of arguments,
    a path that is no directory, a refused connection, or a schema script
    that cannot be read, executed or committed) has changed nothing: the
    durable tables, the key constraint and the key generator are what
    they were, no statement is pending, the converter has logged nothing
    and the connection was not closed by the program. *)
Theorem failed_start_changes_nothing
    (env : environment) (w : world)
    (Hq : quiescent w)
    (Hexit : (main env (start w)).1 = SysExit 1) :
  let s := (main env (start w)).2 in
  committed (database s) = committed w ∧ quiescent (database s) ∧
  unique_key (database s) = unique_key w ∧
  next_profile_id (database s) = next_profile_id w ∧
  log (database s) = log w ∧
  connection s ≠ ConnectionClosed ∧
  InfoSchemaReady ∉ records s.
Proof.
  cbn zeta. revert Hexit. unfold main.
  assert (Hstay : ∀ line,
    let s := print line (start w) in
    committed (database s) = committed w ∧ quiescent (database s) ∧
    unique_key (database s) = unique_key w ∧
    next_profile_id (database s) = next_profile_id w ∧
    log (database s) = log w ∧ connection s ≠ ConnectionClosed ∧
    InfoSchemaReady ∉ records s).
  { intros line. cbn. do 5 (split; [auto|]). split; [discriminate|].
    apply not_elem_of_nil. }
  destruct (argv env) as [|prog [|dir [|more args]]];
    try (intros _; apply Hstay).
  destruct (isdir env dir); cbn [negb]; [|intros _; apply Hstay].
  unfold get_db_connection.
  destruct (connect env) as [| |e]; cbn [fst snd].
  - unfold setup_database. cbn [database log_main set_connection start].
    destruct (setup_body_spec env w Hq)
      as [(script & w' & _ & _ & -> & _)|(e & w' & -> & _ & Hc & Hu & Hn & Hl)].
    + destruct (find_netcdf_files dir (scandir env dir)); [discriminate|].
      cbn [database log_main set_database].
      destruct (main_loop _ w') as [[[]|e] w2]; discriminate.
    + rewrite rollback_eq. destruct (fails_at 0 w'); [discriminate|].
      intros _. cbn. unfold quiescent. cbn.
      do 5 (split; [auto|]). split; [discriminate|].
      rewrite !elem_of_cons, elem_of_nil. intuition discriminate.
  - intros _. cbn. do 5 (split; [auto|]). split; [discriminate|].
    rewrite !elem_of_cons, elem_of_nil. intuition discriminate.
  - discriminate.
Qed.


Lemma failed_start_changes_nothing_witness :
  let s := (main no_script_environment (start fresh_world)).2 in
  committed (database s) = committed fresh_world ∧ quiescent (database s) ∧
  unique_key (database s) = unique_key fresh_world ∧
  next_profile_id (database s) = next_profile_id fresh_world ∧
  log (database s) = log fresh_world ∧
  connection s ≠ ConnectionClosed ∧
  InfoSchemaReady ∉ records s.
Proof.
  apply (failed_start_changes_nothing no_script_environment fresh_world);
    reflexivity.
Defined.


(** A connection error that is not an [OperationalError] leaves [main]
    before anything is done. *)
Example connect_error_leaves_main :
  main bad_login_environment (start fresh_world)
  = (Uncaught DatabaseError, start fresh_world).
Proof. reflexivity. Qed.


(** X14. Once the arguments are accepted, the connection is made and the
    schema script is read, executed and committed, the way the run ends
    depends on the discovery of files alone.  When no file name below the
    directory ends in [.nc] the program exits with status 0, with the
    schema of the script in force, the connection left open and nothing
    logged by the converter.  When there is one, [main] returns and the
    connection is closed, whatever the files hold and whatever fails
    while they are processed: no failure of a file or of the database
    reaches the exit status.  Nothing is printed in either case. *)
Theorem ending_after_setup
    (env : environment) (w : world) (prog dir : string) (script : schema_script)
    (Hq : quiescent w)
    (Hargv : argv env = [prog; dir])
    (Hdir : isdir env dir = true)
    (Hconn : connect env = Connected)
    (Hscript : db_setup_sql env = Ok script)
    (Hok : fails_within 2 w = false) :
  let files := find_netcdf_files dir (scandir env dir) in
  let r := main env (start w) in
  (files = [] →
   r.1 = SysExit 0 ∧ connection r.2 = ConnectionOpen ∧
   records r.2 = [InfoConnected; InfoSchemaReady; WarningNoFiles dir] ∧
   committed (database r.2) = script_tables script (committed w) ∧
   log (database r.2) = log w) ∧
  (files ≠ [] →
   r.1 = Returned ∧ connection r.2 = ConnectionClosed ∧
   records r.2
   = [InfoConnected; InfoSchemaReady; InfoFound (length files); InfoComplete]) ∧
  stdout r.2 = [].
Proof.
  cbn zeta. unfold main. rewrite Hargv, Hdir. cbn [negb].
  unfold get_db_connection. rewrite Hconn. unfold setup_database.
  cbn [database log_main set_connection start].
  destruct (setup_body_spec env w Hq)
    as [(script' & w' & Hs' & _ & -> & Hc & _ & _ & _ & Hl)
       |(e & w' & _ & [Hbad|Hbad] & _)];
    [|rewrite Hscript in Hbad; discriminate|congruence].
  rewrite Hscript in Hs'. injection Hs' as <-.
  destruct (find_netcdf_files dir (scandir env dir)) as [|path paths].
  - cbn. split; [intros _; repeat split; congruence|].
    split; [intros Hne; by destruct Hne|reflexivity].
  - cbn [database log_main set_database].
    match goal with |- context [main_loop ?fs ?x] =>
      pose proof (main_loop_returns fs x) as Hret;
      destruct (main_loop fs x) as [res w2]
    end.
    cbn in Hret. rewrite Hret. cbn. split; [discriminate|].
    split; [intros _; repeat split|reflexivity].
Qed.

Lemma ending_after_setup_witness :
  let files := find_netcdf_files "argo" (scandir sample_environment "argo") in
  let r := main sample_environment (start fresh_world) in
  (files = [] →
   r.1 = SysExit 0 ∧ connection r.2 = ConnectionOpen ∧
   records r.2 = [InfoConnected; InfoSchemaReady; WarningNoFiles "argo"] ∧
   committed (database r.2)
   = script_tables sample_script (committed fresh_world) ∧
   log (database r.2) = log fresh_world) ∧
  (files ≠ [] →
   r.1 = Returned ∧ connection r.2 = ConnectionClosed ∧
   records r.2
   = [InfoConnected; InfoSchemaReady; InfoFound (length files); InfoComplete]) ∧
  stdout r.2 = [].
Proof.
  apply (ending_after_setup sample_environment fresh_world "convertor.py"
           "argo" sample_script); reflexivity.
Defined.

Lemma found_nc_paths (directory : string) (listing : option (list fs_entry)) :
  Forall (λ path, endswith path ".nc" = true)
    (find_netcdf_files directory listing).
Proof.
  apply Forall_forall. intros path Hin.
  apply list_elem_of_In, in_flat_map in Hin as ([[root dirs] files] & _ & Hin).
  apply list_elem_of_In, elem_of_nc_files_of in Hin as (name & _ & He & ->).
  by apply path_join_endswith.
Qed.

(** X15. In a run that gets to the files, the database at the end is what
    the converter makes of the files found, taken in the order of the
    discovery and each opened at its path, starting from the database
    with the schema of the script in force.  Every path handed to the
    converter ends in [.nc]; the rows that the script left in the two
    tables are kept in place, and no statement is left pending. *)
Theorem main_ingests_found_files
    (env : environment) (w : world) (prog dir : string) (script : schema_script)
    (Hq : quiescent w)
    (Hargv : argv env = [prog; dir])
    (Hdir : isdir env dir = true)
    (Hconn : connect env = Connected)
    (Hscript : db_setup_sql env = Ok script)
    (Hok : fails_within 2 w = false)
    (Hfound : find_netcdf_files dir (scandir env dir) ≠ []) :
  let files := opened env <$> find_netcdf_files dir (scandir env dir) in
  let installed := exec (setup_body env) w in
  let final := database (main env (start w)).2 in
  final = exec (main_loop files) installed ∧
  committed installed = script_tables script (committed w) ∧
  Forall (λ f, endswith (file_path f) ".nc" = true
               ∧ dataset f = open_dataset env (file_path f)) files ∧
  extends (script_tables script (committed w)) (committed final) ∧
  quiescent final.
Proof.
  cbn zeta. unfold main, exec. rewrite Hargv, Hdir. cbn [negb].
  unfold get_db_connection. rewrite Hconn. unfold setup_database.
  cbn [database log_main set_connection start].
  destruct (setup_body_spec env w Hq)
    as [(script' & w' & Hs' & _ & -> & Hc & Hq' & _)
       |(e & w' & _ & [Hbad|Hbad] & _)];
    [|rewrite Hscript in Hbad; discriminate|congruence].
  rewrite Hscript in Hs'. injection Hs' as <-. cbn [snd].
  pose proof (found_nc_paths dir (scandir env dir)) as Hnc.
  destruct (find_netcdf_files dir (scandir env dir)) as [|path paths] eqn:E;
    [done|].
  cbn [database log_main set_database].
  destruct (main_loop_spec (opened env <$> path :: paths) w' Hq')
    as (w2 & -> & Hq2 & _ & Hr).
  cbn [database log_main set_connection set_database snd].
  split; [reflexivity|]. split; [exact Hc|]. split; [|split; [|exact Hq2]].
  - apply Forall_fmap. eapply Forall_impl; [exact Hnc|].
    cbn. intros p Hp. auto.
  - rewrite <- Hc. apply reachable_extends, Hr.
Qed.

Lemma main_ingests_found_files_witness :
  let files :=
    opened sample_environment
      <$> find_netcdf_files "argo" (scandir sample_environment "argo") in
  let installed := exec (setup_body sample_environment) fresh_world in
  let final := database (main sample_environment (start fresh_world)).2 in
  final = exec (main_loop files) installed ∧
  committed installed = script_tables sample_script (committed fresh_world) ∧
  Forall (λ f, endswith (file_path f) ".nc" = true
               ∧ dataset f = open_dataset sample_environment (file_path f))
    files ∧
  extends (script_tables sample_script (committed fresh_world))
    (committed final) ∧
  quiescent final.
Proof.
  apply (main_ingests_found_files sample_environment fresh_world
           "convertor.py" "argo" sample_script); try reflexivity.
  discriminate.
Defined.


(** ** What a run without failures stores *)

(** X16. After a run during which no round trip to the database fails,
    over files in which no profile raises on its Julian day, its date,
    its latitude or its longitude, the profile table holds the key of
    every profile whose platform and cycle number the run got to read,
    the profiles that were there before included, and nothing is left
    pending. *)
Theorem clean_run_stores_every_key
    (fs : list nc_file) (w : world)
    (Hq : quiescent w)
    (Hf : faults w = [])
    (Hclean : Forall (λ f, clean_file f = true) fs) :
  let w' := exec (main_loop fs) w in
  (∀ f pvs k, f ∈ fs → dataset f = Ok pvs → k ∈ keys_read pvs →
     k ∈ key_of <$> argo_profiles (committed w')) ∧
  (∀ k, k ∈ key_of <$> argo_profiles (committed w) →
     k ∈ key_of <$> argo_profiles (committed w')) ∧
  quiescent w'.
Proof.
  cbn zeta.
  assert (Hkey : ∀ t k, present t k → k ∈ key_of <$> argo_profiles t).
  { intros t [p c] Hk. unfold present in Hk. cbn in Hk.
    apply existsb_exists in Hk as (row & Hin & Hrow).
    apply list_elem_of_fmap. exists row. split; [|by apply list_elem_of_In].
    unfold has_key in Hrow. apply andb_true_iff in Hrow as [H1 H2].
    apply Z.eqb_eq in H1, H2. unfold key_of. congruence. }
  destruct (main_loop_clean fs [] w Hq Hf Hclean) as [Hq' Hall];
    [constructor|]. cbn [app] in Hall.
  destruct (main_loop_spec fs w Hq) as (w' & E & _ & _ & Hr).
  unfold exec in *. rewrite E in *. cbn [snd] in *.
  split; [|split; [|exact Hq']].
  - intros f pvs k Hin Hds Hk. apply Hkey.
    unfold all_present in Hall. rewrite Forall_forall in Hall.
    specialize (Hall f Hin pvs Hds). rewrite Forall_forall in Hall.
    by apply Hall.
  - intros k Hk. apply reachable_extends in Hr as [[rows ->] _].
    rewrite fmap_app. apply elem_of_app. by left.
Qed.

Lemma clean_run_stores_every_key_witness :
  let w' := exec (main_loop [sample_file; unreadable_file; known_and_new_file])
              fresh_world in
  (∀ f pvs k, f ∈ [sample_file; unreadable_file; known_and_new_file] →
     dataset f = Ok pvs → k ∈ keys_read pvs →
     k ∈ key_of <$> argo_profiles (committed w')) ∧
  (∀ k, k ∈ key_of <$> argo_profiles (committed fresh_world) →
     k ∈ key_of <$> argo_profiles (committed w')) ∧
  quiescent w'.
Proof.
  apply (clean_run_stores_every_key
           [sample_file; unreadable_file; known_and_new_file] fresh_world).
  - reflexivity.
  - reflexivity.
  - repeat constructor.
Defined.
